(** * Road-safety violation detector: spatial classifier, plate normaliser,
      fine policy and timeline timestamps

    A shallow embedding of the decision logic of the Python sources
    [website/spatial_logic.py], [website/detect.py],
    [website/paddle_ocr_reader.py], [website/rules.py],
    [website/video_processor.py], [website/worker.py], [website/app.py]
    and [website/enhanced_pdf.py].

    Conventions of the embedding:
    - a Python [int] is a [Z];
    - a Python [float] is an exact rational [Q]: the sources only add,
      subtract, multiply, divide and compare floats, and every property
      below is about the sign of a quotient, an exact constant passed
      through, or a bound with a margin far above rounding error;
    - a Python [str] is a list of Unicode code points ([list N]);
    - a Python list is a [list], a tuple a product, a [dict] with fixed
      keys a record or an inductive type with one constructor per shape;
    - a Python exception is [None] in an [option] result. *)

From Stdlib Require Import String Ascii NArith ZArith QArith Qabs Qround Qminmax
  List Bool Sorted Btauto Lia Lqa DecimalString.
Import ListNotations.

Local Open Scope Z_scope.

(** ** Python numbers *)

Module Py.

(** [int(x)] on a float: truncation toward zero. *)
Definition int_of_float (x : Q) : Z := Z.quot (Qnum x) (Zpos (Qden x)).

(** [a > b] on floats. *)
Definition Qgtb (a b : Q) : bool := negb (Qle_bool a b).

(** [a / b] on floats; [None] is [ZeroDivisionError]. *)
Definition truediv (a b : Q) : option Q :=
  if Qeq_bool b 0 then None else Some (a / b)%Q.

(** [a // b] on floats: the floor of the quotient, as a float. *)
Definition floordiv (a b : Q) : Q := inject_Z (Qfloor (a / b)).

(** [a % b] on floats, for a positive [b]. *)
Definition fmod (a b : Q) : Q := (a - b * floordiv a b)%Q.

(** [max(x :: rest, key=key)]: the first element whose key no later
    element exceeds; [gtb] is [>] on the keys. *)
Definition max_by {A K : Type} (gtb : K -> K -> bool) (key : A -> K)
  (x : A) (rest : list A) : A :=
  fold_left (fun best y => if gtb (key y) (key best) then y else best)
    rest x.

End Py.

(** ** Array slices of numpy *)

Module Np.

(** A bound [i] of a slice of an axis of length [n], step 1: a negative
    bound counts from the end, and the result is clipped to [0, n]. *)
Definition slice_bound (n i : Z) : Z :=
  if i <? 0 then Z.max 0 (i + n) else Z.min i n.

(** The part of a frame of [h] rows and [w] columns that
    [frame[y1:y2, x1:x2]] selects: its first row and column and its
    numbers of rows and columns. *)
Record region : Type := mk_region {
  top : Z;
  left : Z;
  rows : Z;
  cols : Z
}.

Definition crop (h w y1 y2 x1 x2 : Z) : region :=
  mk_region (slice_bound h y1) (slice_bound w x1)
    (Z.max 0 (slice_bound h y2 - slice_bound h y1))
    (Z.max 0 (slice_bound w x2 - slice_bound w x1)).

End Np.

(** ** [website/spatial_logic.py] *)

Module SpatialLogic.

(** [BBox = Tuple[int, int, int, int]], as [(x1, y1, x2, y2)]. *)
Definition BBox : Type := Z * Z * Z * Z.

Definition BBox_eqb (a b : BBox) : bool :=
  let '(ax1, ay1, ax2, ay2) := a in
  let '(bx1, by1, bx2, by2) := b in
  (ax1 =? bx1) && (ay1 =? by1) && (ax2 =? bx2) && (ay2 =? by2).

(** [bbox_center]: [((x1 + x2) / 2, (y1 + y2) / 2)], true division. *)
Definition bbox_center (b : BBox) : Q * Q :=
  let '(x1, y1, x2, y2) := b in
  ((inject_Z (x1 + x2) / 2)%Q, (inject_Z (y1 + y2) / 2)%Q).

(** [point_inside]: [x1 <= x <= x2 and y1 <= y <= y2]. *)
Definition point_inside (b : BBox) (p : Q * Q) : bool :=
  let '(x1, y1, x2, y2) := b in
  let '(x, y) := p in
  Qle_bool (inject_Z x1) x && Qle_bool x (inject_Z x2)
  && (Qle_bool (inject_Z y1) y && Qle_bool y (inject_Z y2)).

(** The integer part of [iou]: the intersection area and the sum
    [area_a + area_b - inter] to which the epsilon is added. *)
Definition inter_area (a b : BBox) : Z :=
  let '(ax1, ay1, ax2, ay2) := a in
  let '(bx1, by1, bx2, by2) := b in
  let inter_w := Z.max 0 (Z.min ax2 bx2 - Z.max ax1 bx1) in
  let inter_h := Z.max 0 (Z.min ay2 by2 - Z.max ay1 by1) in
  inter_w * inter_h.

Definition area (a : BBox) : Z :=
  let '(x1, y1, x2, y2) := a in (x2 - x1) * (y2 - y1).

(** The literal [1e-6]. *)
Definition eps : Q := 1 # 1000000.

(** [iou]: [inter / (area_a + area_b - inter + 1e-6)]. *)
Definition iou (a b : BBox) : Q :=
  let inter := inter_area a b in
  let union := (inject_Z (area a + area b - inter) + eps)%Q in
  (inject_Z inter / union)%Q.

(** [head_region(person_bbox, top_ratio=0.3)]:
    [(x1, y1, x2, int(y1 + top_ratio * h))] with [h = y2 - y1]. *)
Definition head_region_ratio (person_bbox : BBox) (top_ratio : Q) : BBox :=
  let '(x1, y1, x2, y2) := person_bbox in
  let h := y2 - y1 in
  (x1, y1, x2, Py.int_of_float (inject_Z y1 + top_ratio * inject_Z h)%Q).

Definition head_region (person_bbox : BBox) : BBox :=
  head_region_ratio person_bbox (3 # 10).

(** [assign_riders_to_bike]: the loop appends [pb] to [riders] when
    [point_inside(bike_bbox, bbox_center(pb))]. *)
Fixpoint assign_riders_to_bike (bike_bbox : BBox) (person_bboxes : list BBox)
  : list BBox :=
  match person_bboxes with
  | [] => []
  | pb :: rest =>
      if point_inside bike_bbox (bbox_center pb)
      then pb :: assign_riders_to_bike bike_bbox rest
      else assign_riders_to_bike bike_bbox rest
  end.

(** [has_helmet_for_person]: the loop returns [True] at the first helmet
    box with [iou(head, hb) > 0], and [False] when it runs out. *)
Fixpoint has_helmet_in (head : BBox) (helmet_bboxes : list BBox) : bool :=
  match helmet_bboxes with
  | [] => false
  | hb :: rest =>
      if Py.Qgtb (iou head hb) 0 then true else has_helmet_in head rest
  end.

Definition has_helmet_for_person (person_bbox : BBox)
  (helmet_bboxes : list BBox) : bool :=
  has_helmet_in (head_region person_bbox) helmet_bboxes.

(** [count_riders_on_bike]: [len(assign_riders_to_bike(...))]. *)
Definition count_riders_on_bike (bike_bbox : BBox)
  (person_bboxes : list BBox) : nat :=
  length (assign_riders_to_bike bike_bbox person_bboxes).

End SpatialLogic.

(** ** Python strings *)

Module PyStr.

(** A [str] is its sequence of Unicode code points. *)
Definition str : Type := list N.

(** An ASCII literal of the source as a [str]. *)
Definition lit (s : string) : str := map N_of_ascii (list_ascii_of_string s).

(** [a == b] on strings. *)
Fixpoint eqb (a b : str) : bool :=
  match a, b with
  | [], [] => true
  | x :: a', y :: b' => N.eqb x y && eqb a' b'
  | _, _ => false
  end.

(** [s in (t1, ..., tn)]. *)
Definition in_tuple (s : str) (ts : list str) : bool :=
  existsb (eqb s) ts.

(** [p] is a prefix of [s]. *)
Fixpoint starts_with (p s : str) : bool :=
  match p, s with
  | [], _ => true
  | x :: p', y :: s' => N.eqb x y && starts_with p' s'
  | _ :: _, [] => false
  end.

(** [p in s] on strings: [p] occurs in [s] as a substring. *)
Fixpoint contains (p s : str) : bool :=
  starts_with p s
  || match s with
     | [] => false
     | _ :: s' => contains p s'
     end.

(** [c in s] for a one-character string [c]. *)
Definition has_char (c : N) (s : str) : bool := existsb (N.eqb c) s.

(** The part of [s] after its last occurrence of [sep], scanning from the
    left and restarting at every occurrence. *)
Fixpoint after_last (sep : N) (s : str) (acc : str) : str :=
  match s with
  | [] => acc
  | c :: s' => if N.eqb c sep then after_last sep s' s'
               else after_last sep s' acc
  end.

(** [s.rsplit(sep, 1)] for a one-character [sep]: the whole string when
    [sep] does not occur, else the parts before and after its last
    occurrence. *)
Definition rsplit1 (sep : N) (s : str) : list str :=
  if has_char sep s then
    let tail := after_last sep s [] in
    [firstn (length s - length tail - 1) s; tail]
  else [s].

(** [sep.join(parts)]. *)
Fixpoint join (sep : str) (parts : list str) : str :=
  match parts with
  | [] => []
  | [p] => p
  | p :: rest => p ++ sep ++ join sep rest
  end.

Section Lower.

(** [str.lower] on a string that has a character outside ASCII (the
    interpreter's Unicode tables; the mapping depends on the context of a
    character, so it is taken on the whole string). *)
Variable lower_nonascii : str -> str.

Definition lower_ascii_char (c : N) : N :=
  if N.leb 65 c && N.leb c 90 then (c + 32)%N else c.

(** [str.lower]. *)
Definition lower (s : str) : str :=
  if forallb (fun c => N.ltb c 128) s then map lower_ascii_char s
  else lower_nonascii s.

End Lower.

End PyStr.

(** ** [website/detect.py] *)

Module Detect.

Import SpatialLogic.

(** The four fixed keys of the [bboxes] and [scores] dictionaries:
    [CLASS_PERSON], [CLASS_BIKE], [CLASS_HELMET], [CLASS_PLATE]. *)
Record by_class (A : Type) : Type := mk_by_class {
  person : list A;
  motorbike : list A;
  helmet : list A;
  license_plate : list A
}.
Arguments mk_by_class {A}.
Arguments person {A}.
Arguments motorbike {A}.
Arguments helmet {A}.
Arguments license_plate {A}.

(** The values [load_model] gives [self.model_type]. *)
Inductive model_type : Type :=
| custom_indonesian
| yolov8m
| yolov8n
| none.

Definition is_custom (m : model_type) : bool :=
  match m with custom_indonesian => true | _ => false end.

(** One element of [results.boxes]: the lower-cased class name
    [names.get(cls_id, str(cls_id)).lower()], the four float coordinates
    [box.xyxy[0].tolist()] and [float(box.conf[0])]. *)
Record yolo_box : Type := mk_box {
  cls_name : PyStr.str;
  xyxy : Q * Q * Q * Q;
  conf : Q
}.

(** [_to_bbox]: [map(int, xyxy)]. *)
Definition _to_bbox (c : Q * Q * Q * Q) : BBox :=
  let '(x1, y1, x2, y2) := c in
  (Py.int_of_float x1, Py.int_of_float y1,
   Py.int_of_float x2, Py.int_of_float y2).

(** The violation dictionaries the classifier builds, one constructor per
    key set:
    - [{"type": "helmet_violation", "bbox", "confidence",
        "detected_directly": True}];
    - [{"type": "triple_riding", "bike_bbox", "riders", "confidence"}];
    - [{"type": "helmet_violation", "rider_bbox", "bike_bbox",
        "confidence"}];
    and the one of the fallback detector:
    - [{"type": "helmet_violation", "confidence"}]. *)
Inductive violation : Type :=
| DirectViolation (bbox : BBox) (confidence : Q)
| TripleRiding (bike_bbox : BBox) (riders : nat) (confidence : Q)
| HelmetViolation (rider_bbox bike_bbox : BBox) (confidence : Q)
| FallbackViolation (confidence : Q).

(** The value under the key ["type"]. *)
Definition vtype (v : violation) : PyStr.str :=
  match v with
  | DirectViolation _ _ => PyStr.lit "helmet_violation"
  | TripleRiding _ _ _ => PyStr.lit "triple_riding"
  | HelmetViolation _ _ _ => PyStr.lit "helmet_violation"
  | FallbackViolation _ => PyStr.lit "helmet_violation"
  end.

(** The value under the key ["confidence"]. *)
Definition vconfidence (v : violation) : Q :=
  match v with
  | DirectViolation _ c => c
  | TripleRiding _ _ c => c
  | HelmetViolation _ _ c => c
  | FallbackViolation c => c
  end.

(** The state the extraction loop threads: [bboxes], [scores] and
    [direct_violations]. *)
Record extracted : Type := mk_extracted {
  bboxes : by_class BBox;
  scores : by_class Q;
  direct_violations : list violation
}.

Definition empty_extracted : extracted :=
  mk_extracted (mk_by_class [] [] [] []) (mk_by_class [] [] [] []) [].

Definition add_person (e : extracted) (b : BBox) (c : Q) : extracted :=
  let bb := bboxes e in
  let sc := scores e in
  mk_extracted
    (mk_by_class (person bb ++ [b]) (motorbike bb) (helmet bb)
       (license_plate bb))
    (mk_by_class (person sc ++ [c]) (motorbike sc) (helmet sc)
       (license_plate sc))
    (direct_violations e).

Definition add_bike (e : extracted) (b : BBox) (c : Q) : extracted :=
  let bb := bboxes e in
  let sc := scores e in
  mk_extracted
    (mk_by_class (person bb) (motorbike bb ++ [b]) (helmet bb)
       (license_plate bb))
    (mk_by_class (person sc) (motorbike sc ++ [c]) (helmet sc)
       (license_plate sc))
    (direct_violations e).

Definition add_helmet (e : extracted) (b : BBox) (c : Q) : extracted :=
  let bb := bboxes e in
  let sc := scores e in
  mk_extracted
    (mk_by_class (person bb) (motorbike bb) (helmet bb ++ [b])
       (license_plate bb))
    (mk_by_class (person sc) (motorbike sc) (helmet sc ++ [c])
       (license_plate sc))
    (direct_violations e).

Definition add_plate (e : extracted) (b : BBox) (c : Q) : extracted :=
  let bb := bboxes e in
  let sc := scores e in
  mk_extracted
    (mk_by_class (person bb) (motorbike bb) (helmet bb)
       (license_plate bb ++ [b]))
    (mk_by_class (person sc) (motorbike sc) (helmet sc)
       (license_plate sc ++ [c]))
    (direct_violations e).

Definition add_direct (e : extracted) (v : violation) : extracted :=
  mk_extracted (bboxes e) (scores e) (direct_violations e ++ [v]).

(** The body of [for box in results.boxes]. *)
Definition extract_box (mt : model_type) (e : extracted) (box : yolo_box)
  : extracted :=
  let name := cls_name box in
  let bbox := _to_bbox (xyxy box) in
  let c := conf box in
  if is_custom mt then
    if PyStr.in_tuple name [PyStr.lit "pengendara"] then add_person e bbox c
    else if PyStr.in_tuple name [PyStr.lit "helm"] then add_helmet e bbox c
    else if PyStr.in_tuple name [PyStr.lit "platnomor"] then add_plate e bbox c
    else if PyStr.in_tuple name [PyStr.lit "tanpahelm"] then
      add_direct (add_person e bbox c) (DirectViolation bbox c)
    else e
  else
    if PyStr.in_tuple name [PyStr.lit "person"] then add_person e bbox c
    else if PyStr.in_tuple name
              [PyStr.lit "motorbike"; PyStr.lit "motorcycle"; PyStr.lit "bike"]
         then add_bike e bbox c
    else if PyStr.in_tuple name [PyStr.lit "helmet"] then add_helmet e bbox c
    else if PyStr.in_tuple name
              [PyStr.lit "license_plate"; PyStr.lit "number_plate";
               PyStr.lit "plate"]
         then add_plate e bbox c
    else e.

Definition extract (mt : model_type) (boxes : list yolo_box) : extracted :=
  fold_left (extract_box mt) boxes empty_extracted.

(** The inner loop [for rider_bbox in riders], appending to [violations]. *)
Definition helmet_check (helmets : list BBox) (bike_bbox : BBox)
  (violations : list violation) (rider_bbox : BBox) : list violation :=
  if negb (has_helmet_for_person rider_bbox helmets)
  then violations ++ [HelmetViolation rider_bbox bike_bbox (85 # 100)]
  else violations.

(** The body of [for bike_bbox in bikes]. *)
Definition bike_step (mt : model_type) (persons helmets : list BBox)
  (violations : list violation) (bike_bbox : BBox) : list violation :=
  let riders := assign_riders_to_bike bike_bbox persons in
  let rider_count := length riders in
  let violations :=
    if (3 <=? rider_count)%nat
    then violations ++ [TripleRiding bike_bbox rider_count (90 # 100)]
    else violations in
  if negb (is_custom mt)
  then fold_left (helmet_check helmets bike_bbox) riders violations
  else violations.

(** The classification block of [_yolo_advanced_detection], from the
    extracted lists to the list [violations]. *)
Definition classify (mt : model_type) (e : extracted) : list violation :=
  let persons := person (bboxes e) in
  let bikes := motorbike (bboxes e) in
  let helmets := helmet (bboxes e) in
  let violations :=
    if is_custom mt && negb (Nat.eqb (length (direct_violations e)) 0)
    then [] ++ direct_violations e
    else [] in
  fold_left (bike_step mt persons helmets) bikes violations.

(** The entries of the returned [metadata] that depend on the
    classification only. *)
Record metadata : Type := mk_metadata {
  violations : list violation;
  md_bboxes : by_class BBox;
  md_scores : by_class Q;
  is_vehicle_image : bool
}.

Definition _yolo_advanced_detection (mt : model_type)
  (boxes : list yolo_box) : metadata :=
  let e := extract mt boxes in
  mk_metadata (classify mt e) (bboxes e) (scores e)
    ((0 <? length (motorbike (bboxes e)))%nat
     || (0 <? length (person (bboxes e)))%nat).

(** The loop of [_fallback_detection] over the contour areas
    [cv2.contourArea(contour)]: the state is [violations] and
    [vehicle_count]. *)
Definition fallback_step (st : list violation * Z) (area : Q)
  : list violation * Z :=
  let '(violations, vehicle_count) := st in
  if Py.Qgtb area (inject_Z 2000) && Py.Qgtb (inject_Z 50000) area then
    let vehicle_count := vehicle_count + 1 in
    if vehicle_count <=? 2
    then (violations ++ [FallbackViolation (65 # 100)], vehicle_count)
    else (violations, vehicle_count)
  else (violations, vehicle_count).

Definition _fallback_detection (areas : list Q) : metadata :=
  let '(violations, vehicle_count) := fold_left fallback_step areas ([], 0) in
  mk_metadata violations (mk_by_class [] [] [] []) (mk_by_class [] [] [] [])
    (0 <? vehicle_count).

(** What one call of [detect_violations] does with a frame: the YOLO
    path on the boxes the model predicts, or the fallback on the contour
    areas, taken when no model is loaded and when the YOLO path raises. *)
Inductive detector_run : Type :=
| RunYolo (mt : model_type) (boxes : list yolo_box)
| RunFallback (areas : list Q).

Definition detect_violations (run : detector_run) : metadata :=
  match run with
  | RunYolo mt boxes => _yolo_advanced_detection mt boxes
  | RunFallback areas => _fallback_detection areas
  end.

(** [counts["bikes"]] of [_fallback_detection]: the final
    [vehicle_count]. *)
Definition fallback_vehicle_count (areas : list Q) : Z :=
  snd (fold_left fallback_step areas ([], 0)).

(** [extract_plate_region] on a frame of [h] rows and [w] columns. *)
Definition extract_plate_region (h w : Z) (bbox : Q * Q * Q * Q)
  : Np.region :=
  let '(x1, y1, x2, y2) := _to_bbox bbox in
  let margin := 10 in
  let x1 := Z.max 0 (x1 - margin) in
  let y1 := Z.max 0 (y1 - margin) in
  let x2 := Z.min w (x2 + margin) in
  let y2 := Z.min h (y2 + margin) in
  Np.crop h w y1 y2 x1 x2.

End Detect.

(** ** The part of Python's [re] the sources use *)

Module Re.

Import PyStr.

(** Patterns without unbounded repetition: a character class, the empty
    pattern, concatenation and alternation. *)
Inductive regex : Type :=
| Empty
| Class (p : N -> bool)
| Seq (r1 r2 : regex)
| Alt (r1 r2 : regex).

(** [r{n}]. *)
Fixpoint times (n : nat) (r : regex) : regex :=
  match n with
  | O => Empty
  | S n' => Seq r (times n' r)
  end.

(** [r{0,n}], greedy: one more [r] is tried before stopping. *)
Fixpoint upto (n : nat) (r : regex) : regex :=
  match n with
  | O => Empty
  | S n' => Alt (Seq r (upto n' r)) Empty
  end.

(** [r{m,n}] for [m <= n]. *)
Definition between (m n : nat) (r : regex) : regex :=
  Seq (times m r) (upto (n - m) r).

(** Backtracking matcher: [run r s k] tries [r] at the front of [s] and
    hands each possible remainder to the continuation [k]. *)
Fixpoint run (r : regex) (s : str) (k : str -> bool) : bool :=
  match r with
  | Empty => k s
  | Class p =>
      match s with
      | c :: s' => p c && k s'
      | [] => false
      end
  | Seq r1 r2 => run r1 s (fun s' => run r2 s' k)
  | Alt r1 r2 => run r1 s k || run r2 s k
  end.

(** [$] without [re.MULTILINE]: the end of the string, or the position
    just before a newline that ends the string. *)
Definition at_dollar (s : str) : bool :=
  match s with
  | [] => true
  | [c] => N.eqb c 10
  | _ => false
  end.

(** [re.match('^' + r + '$', s)] is not [None]. *)
Definition match_anchored (r : regex) (s : str) : bool := run r s at_dollar.

(** [re.sub('[...]', '', s)] for a one-character class: every character
    of the class is deleted. *)
Definition sub_class_empty (p : N -> bool) (s : str) : str :=
  filter (fun c => negb (p c)) s.

Definition in_range (lo hi c : N) : bool := N.leb lo c && N.leb c hi.

End Re.

(** ** [website/paddle_ocr_reader.py] *)

Module PaddleOcrReader.

Import PyStr.

Section Normalize.

(** The Unicode tables of the interpreter, outside ASCII: the full
    upper-case mapping of [str.upper] (one code point may become several)
    and the decimal digits that [\d] accepts in a [str] pattern. *)
Variable upper_nonascii : N -> list N.
Variable decimal_nonascii : N -> bool.

(** [str.upper], character by character. *)
Definition upper_char (c : N) : list N :=
  if Re.in_range 97 122 c then [(c - 32)%N]
  else if N.ltb c 128 then [c]
  else upper_nonascii c.

Definition upper (s : str) : str := flat_map upper_char s.

(** The class [[A-Z]]. *)
Definition cls_AZ (c : N) : bool := Re.in_range 65 90 c.

(** The class [\d]. *)
Definition cls_d (c : N) : bool :=
  if N.ltb c 128 then Re.in_range 48 57 c else decimal_nonascii c.

(** The class [[^A-Z0-9]]. *)
Definition cls_not_AZ09 (c : N) : bool :=
  negb (Re.in_range 65 90 c || Re.in_range 48 57 c).

(** [indian_plate_pattern], between [^] and [$]:
    [[A-Z]{2}\d{2}[A-Z]{1,2}\d{4}]. *)
Definition indian_plate_pattern : Re.regex :=
  Re.Seq (Re.times 2 (Re.Class cls_AZ))
    (Re.Seq (Re.times 2 (Re.Class cls_d))
       (Re.Seq (Re.between 1 2 (Re.Class cls_AZ))
          (Re.times 4 (Re.Class cls_d)))).

Definition UNKNOWN : str := lit "UNKNOWN".

(** [_normalize_plate_text]. *)
Definition _normalize_plate_text (text : str) : str :=
  match text with
  | [] => UNKNOWN
  | _ =>
      let clean_text := Re.sub_class_empty cls_not_AZ09 (upper text) in
      if Re.match_anchored indian_plate_pattern clean_text then clean_text
      else if (8 <=? length clean_text)%nat && (length clean_text <=? 10)%nat
      then clean_text
      else if (length clean_text <? 5)%nat then UNKNOWN else clean_text
  end.

(** One element of [result[0]]: [None] for a falsy line, else
    [(line[1][0], float(line[1][1]))]. *)
Definition ocr_line : Type := option (str * Q).

(** The body of [for line in result[0]], on [(best_text, best_conf)]. *)
Definition best_step (best : str * Q) (line : ocr_line) : str * Q :=
  match line with
  | None => best
  | Some (text, conf) =>
      if Py.Qgtb conf (snd best) then (text, conf) else best
  end.

(** [_paddle_ocr] on the lines of [result[0]] (no line when [result] or
    [result[0]] is falsy). *)
Definition _paddle_ocr (lines : list ocr_line) : str * Q :=
  let '(best_text, best_conf) := fold_left best_step lines ([], 0%Q) in
  (_normalize_plate_text best_text, best_conf).

(** [_easyocr_fallback] on [results], each reduced to
    [(result[1], result[2])]. *)
Definition _easyocr_fallback (results : list (str * Q)) : str * Q :=
  match results with
  | [] => (UNKNOWN, 0%Q)
  | r :: rest =>
      let best_result := Py.max_by Py.Qgtb snd r rest in
      (_normalize_plate_text (fst best_result), snd best_result)
  end.

End Normalize.

(** [crop_from_bbox] on an image of [h] rows and [w] columns. *)
Definition crop_from_bbox (h w : Z) (bbox : SpatialLogic.BBox) : Np.region :=
  let '(x1, y1, x2, y2) := bbox in
  let x1 := Z.max 0 x1 in
  let y1 := Z.max 0 y1 in
  let x2 := Z.min (w - 1) x2 in
  let y2 := Z.min (h - 1) y2 in
  Np.crop h w y1 y2 x1 x2.

End PaddleOcrReader.

(** ** [website/rules.py] *)

Module Rules.

Section ComputeFine.

(** [configs.config] and [db.models]: the two configured amounts, the
    database manager and its offense-history query. *)
Variables FIRST_OFFENSE_FINE REPEAT_OFFENSE_FINE : Z.
Variable DatabaseManager : Type.
Variable count_previous_violations : DatabaseManager -> PyStr.str -> Z.

(** [compute_fine]. *)
Definition compute_fine (vehicle_no violation_type : PyStr.str)
  (db : DatabaseManager) : Z :=
  let previous_violations := count_previous_violations db vehicle_no in
  if previous_violations =? 0 then FIRST_OFFENSE_FINE
  else REPEAT_OFFENSE_FINE.

End ComputeFine.

End Rules.

(** ** [website/video_processor.py] *)

Module VideoProcessor.

Section ProcessVideo.

(** A decoded frame, the violation dictionaries of the detector, and
    [result.get('violations', [])] of [self.detector.detect_violations]. *)
Variable frame : Type.
Variable V : Type.
Variable detect_violations : frame -> list V.

(** The entries of [violation_info] that depend on the frame only. *)
Record violation_info : Type := mk_info {
  frame_number : Z;
  timestamp_seconds : Q;
  vi_violations : list V
}.

(** [frame_idx / fps if fps > 0 else frame_idx], on the integer [fps]. *)
Definition timestamp_sec (fps frame_idx : Z) : Q :=
  if 0 <? fps then (inject_Z frame_idx / inject_Z fps)%Q
  else inject_Z frame_idx.

(** The variables of the [while True] loop. *)
Record loop_state : Type := mk_loop {
  violations_timeline : list violation_info;
  frames_processed : Z;
  total_violations : Z;
  frame_idx : Z
}.

(** One iteration, for a frame that [cap.read()] delivered. *)
Definition loop_body (fps frame_skip : Z) (st : loop_state) (f : frame)
  : loop_state :=
  if negb (frame_idx st mod frame_skip =? 0) then
    mk_loop (violations_timeline st) (frames_processed st)
      (total_violations st) (frame_idx st + 1)
  else
    let timestamp := timestamp_sec fps (frame_idx st) in
    let violations := detect_violations f in
    match violations with
    | [] =>
        mk_loop (violations_timeline st) (frames_processed st + 1)
          (total_violations st) (frame_idx st + 1)
    | _ :: _ =>
        mk_loop
          (violations_timeline st
             ++ [mk_info (frame_idx st) timestamp violations])
          (frames_processed st + 1)
          (total_violations st + Z.of_nat (length violations))
          (frame_idx st + 1)
    end.

(** [process_video] on an opened source that reports [reported_fps] and
    delivers [frames]: [fps = int(cap.get(cv2.CAP_PROP_FPS))], then the
    loop.  [None] is the [ZeroDivisionError] of [fps/self.frame_skip] and
    of [frame_idx % self.frame_skip] for a zero [frame_skip]. *)
Definition process_video (frame_skip : Z) (reported_fps : Q)
  (frames : list frame) : option loop_state :=
  let fps := Py.int_of_float reported_fps in
  if frame_skip =? 0 then None
  else Some (fold_left (loop_body fps frame_skip) frames (mk_loop [] 0 0 0)).

End ProcessVideo.

Arguments mk_info {V}.
Arguments frame_number {V}.
Arguments timestamp_seconds {V}.
Arguments vi_violations {V}.
Arguments violations_timeline {V}.
Arguments frame_idx {V}.

End VideoProcessor.

(** ** [website/worker.py] *)

Module Worker.

(** [timestamp = frame_count / fps], on the float [fps] that
    [cap.get(cv2.CAP_PROP_FPS)] returned. *)
Definition timestamp (fps : Q) (frame_count : Z) : option Q :=
  Py.truediv (inject_Z frame_count) fps.

(** The sampling of [process_video]: [frame_count] is incremented for
    every frame read, and the frames with [frame_count % FRAME_SKIP == 0]
    get a timestamp.  The result lists [(frame_count, timestamp)] of the
    sampled frames; [None] is an uncaught exception. *)
Fixpoint sample (FRAME_SKIP : Z) (fps : Q) (frames : nat) (frame_count : Z)
  : option (list (Z * Q)) :=
  match frames with
  | O => Some []
  | S frames' =>
      let frame_count := frame_count + 1 in
      if FRAME_SKIP =? 0 then None
      else if frame_count mod FRAME_SKIP =? 0 then
        match timestamp fps frame_count with
        | None => None
        | Some t =>
            match sample FRAME_SKIP fps frames' frame_count with
            | None => None
            | Some rest => Some ((frame_count, t) :: rest)
            end
        end
      else sample FRAME_SKIP fps frames' frame_count
  end.

Definition process_video (FRAME_SKIP : Z) (fps : Q) (frames : nat)
  : option (list (Z * Q)) :=
  sample FRAME_SKIP fps frames 0.

End Worker.

(** ** [hashlib.md5] (RFC 1321)

    Bytes are integers in [0, 255], words are integers modulo [2^32]. *)

Module Md5.

Definition w32 (x : Z) : Z := x mod 4294967296.

Definition rotl (x c : Z) : Z :=
  w32 (Z.lor (Z.shiftl x c) (Z.shiftr x (32 - c))).

Definition not32 (x : Z) : Z := Z.lxor x 4294967295.

(** [K[i] = floor(2^32 * abs(sin(i + 1)))]. *)
Definition K : list Z :=
  [3614090360; 3905402710; 606105819; 3250441966;
   4118548399; 1200080426; 2821735955; 4249261313;
   1770035416; 2336552879; 4294925233; 2304563134;
   1804603682; 4254626195; 2792965006; 1236535329;
   4129170786; 3225465664; 643717713; 3921069994;
   3593408605; 38016083; 3634488961; 3889429448;
   568446438; 3275163606; 4107603335; 1163531501;
   2850285829; 4243563512; 1735328473; 2368359562;
   4294588738; 2272392833; 1839030562; 4259657740;
   2763975236; 1272893353; 4139469664; 3200236656;
   681279174; 3936430074; 3572445317; 76029189;
   3654602809; 3873151461; 530742520; 3299628645;
   4096336452; 1126891415; 2878612391; 4237533241;
   1700485571; 2399980690; 4293915773; 2240044497;
   1873313359; 4264355552; 2734768916; 1309151649;
   4149444226; 3174756917; 718787259; 3951481745].

(** The per-round shift amounts. *)
Definition shifts : list Z :=
  [7; 12; 17; 22; 7; 12; 17; 22; 7; 12; 17; 22; 7; 12; 17; 22;
   5; 9; 14; 20; 5; 9; 14; 20; 5; 9; 14; 20; 5; 9; 14; 20;
   4; 11; 16; 23; 4; 11; 16; 23; 4; 11; 16; 23; 4; 11; 16; 23;
   6; 10; 15; 21; 6; 10; 15; 21; 6; 10; 15; 21; 6; 10; 15; 21].

(** [n] bytes of [x], least significant first. *)
Fixpoint le_bytes (n : nat) (x : Z) : list Z :=
  match n with
  | O => []
  | S n' => x mod 256 :: le_bytes n' (x / 256)
  end.

Fixpoint le_word (bs : list Z) : Z :=
  match bs with
  | [] => 0
  | b :: rest => b + 256 * le_word rest
  end.

(** Padding: a [0x80] byte, zeros up to 56 modulo 64, then the bit
    length on 64 bits. *)
Definition pad (msg : list Z) : list Z :=
  let len := Z.of_nat (length msg) in
  msg ++ [128] ++ repeat 0 (Z.to_nat ((55 - len) mod 64))
      ++ le_bytes 8 (8 * len).

(** [l] cut into [count] pieces of [size] elements. *)
Fixpoint chunks {A : Type} (size count : nat) (l : list A) : list (list A) :=
  match count with
  | O => []
  | S count' => firstn size l :: chunks size count' (skipn size l)
  end.

Definition state : Type := Z * Z * Z * Z.

Definition init : state := (1732584193, 4023233417, 2562383102, 271733878).

(** Operation [i] of a block with message words [M]. *)
Definition round (M : list Z) (st : state) (i : nat) : state :=
  let '(a, b, c, d) := st in
  let iz := Z.of_nat i in
  let '(f, g) :=
    if iz <? 16 then (Z.lor (Z.land b c) (Z.land (not32 b) d), iz)
    else if iz <? 32 then
      (Z.lor (Z.land d b) (Z.land (not32 d) c), (5 * iz + 1) mod 16)
    else if iz <? 48 then (Z.lxor b (Z.lxor c d), (3 * iz + 5) mod 16)
    else (Z.lxor c (Z.lor b (not32 d)), (7 * iz) mod 16) in
  let f := w32 (f + a + nth i K 0 + nth (Z.to_nat g) M 0) in
  (d, w32 (b + rotl f (nth i shifts 0)), b, c).

Definition block (st : state) (bytes : list Z) : state :=
  let M := map le_word (chunks 4 16 bytes) in
  let '(a, b, c, d) := st in
  let '(a', b', c', d') := fold_left (round M) (seq 0 64) st in
  (w32 (a + a'), w32 (b + b'), w32 (c + c'), w32 (d + d')).

(** The sixteen bytes of the digest. *)
Definition digest (msg : list Z) : list Z :=
  let padded := pad msg in
  let '(a, b, c, d) :=
    fold_left block (chunks 64 (length padded / 64) padded) init in
  le_bytes 4 a ++ le_bytes 4 b ++ le_bytes 4 c ++ le_bytes 4 d.

Definition hex_digit (n : Z) : N :=
  if n <? 10 then Z.to_N (48 + n) else Z.to_N (87 + n).

Definition hex_byte (b : Z) : PyStr.str :=
  [hex_digit (b / 16 mod 16); hex_digit (b mod 16)].

(** [hashlib.md5(msg).hexdigest()]. *)
Definition hexdigest (msg : list Z) : PyStr.str :=
  flat_map hex_byte (digest msg).

End Md5.

(** ** Formatting and parsing of integers *)

Module PyFmt.

Import PyStr.

Fixpoint uint_digits (u : Decimal.uint) : str :=
  match u with
  | Decimal.Nil => []
  | Decimal.D0 u' => 48%N :: uint_digits u'
  | Decimal.D1 u' => 49%N :: uint_digits u'
  | Decimal.D2 u' => 50%N :: uint_digits u'
  | Decimal.D3 u' => 51%N :: uint_digits u'
  | Decimal.D4 u' => 52%N :: uint_digits u'
  | Decimal.D5 u' => 53%N :: uint_digits u'
  | Decimal.D6 u' => 54%N :: uint_digits u'
  | Decimal.D7 u' => 55%N :: uint_digits u'
  | Decimal.D8 u' => 56%N :: uint_digits u'
  | Decimal.D9 u' => 57%N :: uint_digits u'
  end.

(** [str(n)] for a non-negative integer. *)
Definition str_int (n : N) : str := uint_digits (N.to_uint n).

(** [f"{n:0wd}"] for a non-negative integer: zeros on the left up to
    [w] characters. *)
Definition format_0d (w : nat) (n : N) : str :=
  let d := str_int n in
  repeat 48%N (w - length d) ++ d.

(** [f"{z:0wd}"] for any integer: the sign counts in the width and the
    zeros come after it. *)
Definition format_0d_int (w : nat) (z : Z) : str :=
  if z <? 0 then 45%N :: format_0d (w - 1) (Z.to_N (- z))
  else format_0d w (Z.to_N z).

(** [s[i:j]] for [0 <= i <= j]. *)
Definition slice (i j : nat) (s : str) : str := firstn (j - i) (skipn i s).

Definition hex_value (c : N) : option N :=
  if Re.in_range 48 57 c then Some (c - 48)%N
  else if Re.in_range 97 102 c then Some (c - 87)%N
  else if Re.in_range 65 70 c then Some (c - 55)%N
  else None.

Fixpoint int16_from (acc : N) (s : str) : option N :=
  match s with
  | [] => Some acc
  | c :: s' =>
      match hex_value c with
      | Some d => int16_from (16 * acc + d)%N s'
      | None => None
      end
  end.

(** [int(s, 16)] on a string of hexadecimal digits; [None] is the
    [ValueError] for the empty string and for any other character.  (The
    signs, prefixes, underscores and blanks that [int] also accepts do not
    occur in a hexadecimal digest.) *)
Definition int16 (s : str) : option N :=
  match s with
  | [] => None
  | _ => int16_from 0 s
  end.

End PyFmt.

(** ** [website/video_processor.py], the formatting of timestamps *)

Module VideoFormat.

(** [_format_timestamp]. *)
Definition _format_timestamp (seconds : Q) : PyStr.str :=
  let hours := Py.int_of_float (Py.floordiv seconds 3600) in
  let minutes :=
    Py.int_of_float (Py.floordiv (Py.fmod seconds 3600) 60) in
  let secs := Py.int_of_float (Py.fmod seconds 60) in
  PyFmt.format_0d_int 2 hours ++ PyStr.lit ":"
    ++ PyFmt.format_0d_int 2 minutes ++ PyStr.lit ":"
    ++ PyFmt.format_0d_int 2 secs.

End VideoFormat.

(** ** [website/ai_detector.py] *)

Module AiDetector.

Import PyStr.

(** The entries of a formatted violation that the web application
    reads. *)
Record formatted_violation : Type := mk_formatted {
  type : str;
  confidence : Q
}.

(** The normalisation of type names. *)
Definition normalize_type (vtype : str) : str :=
  if in_tuple vtype [lit "NO_HELMET"; lit "no_helmet"]
  then lit "helmet_violation"
  else if in_tuple vtype [lit "TRIPLE_RIDING"] then lit "triple_riding"
  else vtype.

Definition format_violation (v : Detect.violation) : formatted_violation :=
  mk_formatted (normalize_type (Detect.vtype v)) (Detect.vconfidence v).

Record detection_result : Type := mk_result {
  violations : list formatted_violation;
  is_vehicle_image : bool;
  license_plate : str * Q;
  detection_confidence : option Q
}.

(** [detect_violations] after the detector has run: [md] is the detector's
    metadata and [ocr] what [ocr_reader.read_plate] returns for the crop
    of the largest plate box. *)
Definition detect_violations (md : Detect.metadata) (ocr : str * Q)
  : detection_result :=
  let plate :=
    match Detect.license_plate (Detect.md_bboxes md) with
    | [] => (lit "UNKNOWN", 0%Q)
    | _ :: _ => ocr
    end in
  let formatted_violations := map format_violation (Detect.violations md) in
  let detection_confidence :=
    match formatted_violations with
    | [] => None
    | _ :: _ =>
        Some (fold_left Qplus (map confidence formatted_violations) 0
              / inject_Z (Z.of_nat (length formatted_violations)))%Q
    end in
  mk_result formatted_violations (Detect.is_vehicle_image md) plate
    detection_confidence.

(** [areas]: each plate box with its index and its area. *)
Definition plate_areas (plates : list SpatialLogic.BBox) : list (nat * Z) :=
  combine (seq 0 (length plates)) (map SpatialLogic.area plates).

(** [idx = max(areas, key=lambda t: t[1])[0]], for a non-empty list of
    plates. *)
Definition largest_plate_index (plates : list SpatialLogic.BBox)
  : option nat :=
  match plate_areas plates with
  | [] => None
  | a :: rest => Some (fst (Py.max_by Z.gtb snd a rest))
  end.

End AiDetector.

(** ** [website/enhanced_pdf.py] *)

Module EnhancedPdf.

Import PyStr.

(** The dictionary [FINES]. *)
Definition FINES : list (str * Z) :=
  [(lit "helmet_violation", 500); (lit "no_helmet", 1000);
   (lit "triple_riding", 1000)].

(** [d.get(key, default)] on a dictionary with string keys. *)
Fixpoint dict_get (d : list (str * Z)) (key : str) (default : Z) : Z :=
  match d with
  | [] => default
  | (k, v) :: rest => if eqb k key then v else dict_get rest key default
  end.

(** The total of [generate_enhanced_pdf], over the ["type"] entries of
    [evidence["violations"]] ([None] for a dictionary without the key). *)
Definition total_fine (violations : list (option str)) : Z :=
  fold_left
    (fun total v =>
       let v_type := match v with Some t => t | None => lit "unknown" end in
       let fine_amt := dict_get FINES v_type 500 in
       total + fine_amt)
    violations 0.

End EnhancedPdf.

(** ** [website/app.py] *)

Module App.

Import PyStr.

(** One step of the [if ... elif ...] that accumulates [total_fine], on
    the ["type"] entry of a violation. *)
Definition add_fine (total_fine : Z) (vtype : option str) : Z :=
  match vtype with
  | Some t =>
      if eqb t (lit "helmet_violation") then total_fine + 500
      else if eqb t (lit "triple_riding") then total_fine + 1000
      else total_fine
  | None => total_fine
  end.

Section Totals.

(** A violation dictionary and its ["type"] entry, [None] when the key
    is absent. *)
Variable V : Type.
Variable get_type : V -> option str.

(** [process_demo_image]: the loop reads [violation.get('type')]. *)
Definition image_total_fine (violations : list V) : Z :=
  fold_left (fun total v => add_fine total (get_type v)) violations 0.

(** [process_demo_video]: the loops read [violation['type']], which
    raises [KeyError] ([None]) when the key is absent. *)
Definition frame_total_fine (total : option Z) (violations : list V)
  : option Z :=
  fold_left
    (fun total v =>
       match total, get_type v with
       | Some n, Some t => Some (add_fine n (Some t))
       | _, _ => None
       end)
    violations total.

Definition video_total_fine
  (violations_timeline : list (VideoProcessor.violation_info V)) : option Z :=
  fold_left
    (fun total frame_data =>
       frame_total_fine total (VideoProcessor.vi_violations frame_data))
    violations_timeline (Some 0).

End Totals.

(** The entries of the result of [process_demo_image] that depend on the
    detection only. *)
Record image_result : Type := mk_image_result {
  violations_found : bool;
  violations : list AiDetector.formatted_violation;
  license_plate : str;
  total_fine : Z;
  is_vehicle_image : bool
}.

Definition UNKNOWN : str := lit "UNKNOWN".

Definition state_codes : list str :=
  [lit "AP"; lit "TN"; lit "KA"; lit "MH"; lit "DL"; lit "UP"; lit "WB";
   lit "GJ"].

(** The plate built from [hash_val]; [None] is the [ValueError] of an
    [int(..., 16)]. *)
Definition synthetic_plate (hash_val : str) : option str :=
  match PyFmt.int16 (PyFmt.slice 0 2 hash_val),
        PyFmt.int16 (PyFmt.slice 2 4 hash_val),
        PyFmt.int16 (PyFmt.slice 4 6 hash_val),
        PyFmt.int16 (PyFmt.slice 6 8 hash_val),
        PyFmt.int16 (PyFmt.slice 8 12 hash_val) with
  | Some s, Some d, Some l1, Some l2, Some n =>
      let state :=
        nth (N.to_nat (s mod N.of_nat (length state_codes))) state_codes []
      in
      let district := PyFmt.format_0d 2 (d mod 50 + 1)%N in
      let letters := [(65 + l1 mod 26)%N] ++ [(65 + l2 mod 26)%N] in
      let numbers := PyFmt.format_0d 4 (n mod 10000)%N in
      Some (state ++ district ++ letters ++ numbers)
  | _, _, _, _, _ => None
  end.

(** [str(image.shape)] for the [(height, width, channels)] of an image
    read by [cv2.imread]. *)
Definition str_shape (shape : N * N * N) : str :=
  let '(h, w, c) := shape in
  lit "(" ++ PyFmt.str_int h ++ lit ", " ++ PyFmt.str_int w ++ lit ", "
    ++ PyFmt.str_int c ++ lit ")".

(** [s.encode()] on an ASCII string. *)
Definition encode (s : str) : list Z := map Z.of_N s.

(** [process_demo_image] once the image is read and
    [ai_detector.detect_violations] has returned [dr].  [None] stands for
    an exception in the body, after which the function returns the random
    scenario of [simulate_demo_detection]. *)
Definition process_demo_image (shape : N * N * N)
  (dr : AiDetector.detection_result) : option image_result :=
  let violations := AiDetector.violations dr in
  let plate_number := fst (AiDetector.license_plate dr) in
  if negb (AiDetector.is_vehicle_image dr) then
    Some (mk_image_result false [] UNKNOWN 0 false)
  else
    let plate_number :=
      if eqb plate_number UNKNOWN && (0 <? length violations)%nat
      then synthetic_plate (Md5.hexdigest (encode (str_shape shape)))
      else Some plate_number in
    match plate_number with
    | None => None
    | Some plate_number =>
        Some (mk_image_result (0 <? length violations)%nat violations
                plate_number
                (image_total_fine AiDetector.formatted_violation
                   (fun v => Some (AiDetector.type v)) violations)
                true)
    end.

Section Uploads.

Variable lower_nonascii : str -> str.

Definition ALLOWED_EXTENSIONS : list str :=
  [lit "png"; lit "jpg"; lit "jpeg"; lit "gif"; lit "mp4"; lit "avi";
   lit "mov"; lit "mkv"; lit "webm"].

(** The extension [filename.rsplit('.', 1)[1].lower()]. *)
Definition extension (filename : str) : str :=
  lower lower_nonascii (nth 1 (rsplit1 46 filename) []).

(** [allowed_file]. *)
Definition allowed_file (filename : str) : bool :=
  if has_char 46 filename
  then in_tuple (extension filename) ALLOWED_EXTENSIONS
  else false.

(** [is_video_file]. *)
Definition is_video_file (filename : str) : bool :=
  let video_extensions :=
    [lit "mp4"; lit "avi"; lit "mov"; lit "mkv"; lit "webm"] in
  if has_char 46 filename
  then in_tuple (extension filename) video_extensions
  else false.

End Uploads.

Section Payments.

Variable upper_nonascii : N -> list N.

(** [for pattern in patterns: if pattern in s: return ...] reaches its
    [return]. *)
Definition any_in (patterns : list str) (s : str) : bool :=
  existsb (fun pattern => contains pattern s) patterns.

(** [extract_demo_amount]; [None] is Python's [None]. *)
Definition extract_demo_amount (transaction_id : str) (expected_amount : Q)
  : option Q :=
  let transaction_upper := PaddleOcrReader.upper upper_nonascii transaction_id
  in
  if any_in [lit "LESS"; lit "UNDER"; lit "SMALL"; lit "HALF"]
       transaction_upper
  then Some (expected_amount * (5 # 10))%Q
  else if any_in [lit "MORE"; lit "OVER"; lit "EXTRA"; lit "DOUBLE"]
            transaction_upper
  then Some (expected_amount * 2)%Q
  else if any_in [lit "UPI"; lit "PAY"; lit "CORRECT"; lit "FULL";
                  lit "EXACT"] transaction_upper
  then Some expected_amount
  else if any_in [lit "123"; lit "456"; lit "789"] transaction_upper
  then Some expected_amount
  else if (12 <=? length transaction_id)%nat then Some expected_amount
  else None.

(** The dictionaries [verify_demo_payment] returns: success with the paid
    amount, or one of its four errors. *)
Inductive verification : Type :=
| Verified (paid_amount : Q)
| TooShort
| AlreadyUsed
| NotFound
| AmountMismatch (paid_amount : Q).

(** [verify_demo_payment]; [existing] tells whether the query finds
    another violation with this transaction id. *)
Definition verify_demo_payment (transaction_id : str) (expected_amount : Q)
  (existing : bool) : verification :=
  if (length transaction_id <? 8)%nat then TooShort
  else if existing then AlreadyUsed
  else
    match extract_demo_amount transaction_id expected_amount with
    | None => NotFound
    | Some simulated_paid_amount =>
        if Py.Qgtb (Qabs (simulated_paid_amount - expected_amount))
             (1 # 100)
        then AmountMismatch simulated_paid_amount
        else Verified simulated_paid_amount
    end.

End Payments.

(** [process_demo_video]: the inner step of the collection of plate
    numbers, [if plate['number'] not in all_plate_numbers: append]. *)
Definition collect_plate (all_plate_numbers : list str) (number : str)
  : list str :=
  if in_tuple number all_plate_numbers then all_plate_numbers
  else all_plate_numbers ++ [number].

(** The list [all_plate_numbers], from the plate numbers of each
    timeline entry. *)
Definition all_plate_numbers (timeline_plates : list (list str)) : list str :=
  fold_left (fun acc plates => fold_left collect_plate plates acc)
    timeline_plates [].

(** [create_demo_violation]: the loop over the ["type"] entries, on
    [(total_fine, violation_types)]; [None] is the [KeyError] of a
    missing key. *)
Definition demo_step (st : option (Z * list str)) (vtype : option str)
  : option (Z * list str) :=
  match st, vtype with
  | Some (total_fine, violation_types), Some t =>
      if eqb t (lit "helmet_violation")
      then Some (total_fine + 500,
                 violation_types ++ [lit "Riding without Helmet"])
      else if eqb t (lit "triple_riding")
      then Some (total_fine + 1000, violation_types ++ [lit "Triple Riding"])
      else Some (total_fine, violation_types)
  | _, _ => None
  end.

(** The [fine_amount] and the [violation_type] that
    [create_demo_violation] stores; [None] when the function returns
    [None] on the [KeyError]. *)
Definition create_demo_violation (types : list (option str))
  : option (Z * str) :=
  match fold_left demo_step types (Some (0, [])) with
  | None => None
  | Some (total_fine, violation_types) =>
      let combined_violation :=
        match violation_types with
        | [] => lit "Traffic Violation"
        | _ :: _ => join (lit " + ") violation_types
        end in
      Some (total_fine, combined_violation)
  end.

End App.

(** * Vocabulary of the statements *)

Module Spec.

Import PyStr SpatialLogic Detect.

(** The riders of a vehicle, said with [filter]: the person boxes whose
    centre lies inside the vehicle's box. *)
Definition riders_of (bike_bbox : BBox) (persons : list BBox) : list BBox :=
  filter (fun pb => point_inside bike_bbox (bbox_center pb)) persons.

(** What one vehicle contributes to the triple-riding rule. *)
Definition triple_part (persons : list BBox) (bike_bbox : BBox)
  : list violation :=
  let n := length (riders_of bike_bbox persons) in
  if (3 <=? n)%nat then [TripleRiding bike_bbox n (90 # 100)] else [].

(** What one vehicle contributes to the spatial helmet rule, rider by
    rider. *)
Definition helmet_part (mt : model_type) (persons helmets : list BBox)
  (bike_bbox : BBox) : list violation :=
  if is_custom mt then []
  else
    flat_map
      (fun rider_bbox =>
         if has_helmet_for_person rider_bbox helmets then []
         else [HelmetViolation rider_bbox bike_bbox (85 # 100)])
      (riders_of bike_bbox persons).

Definition is_direct (v : violation) : bool :=
  match v with DirectViolation _ _ => true | _ => false end.

Definition is_triple (v : violation) : bool :=
  match v with TripleRiding _ _ _ => true | _ => false end.

Definition is_spatial_helmet (v : violation) : bool :=
  match v with HelmetViolation _ _ _ => true | _ => false end.

(** A triple-riding violation of the vehicle box [b]. *)
Definition is_triple_of (b : BBox) (v : violation) : bool :=
  match v with TripleRiding b' _ _ => BBox_eqb b' b | _ => false end.

(** A detection of the direct-violation class of the custom model. *)
Definition is_tanpahelm (box : yolo_box) : bool :=
  PyStr.eqb (cls_name box) (lit "tanpahelm").

(** A vehicle detection of the frame: a detection of class motorbike,
    motorcycle or bike; the custom model has no vehicle class. *)
Definition is_vehicle_detection (mt : model_type) (box : yolo_box) : bool :=
  negb (is_custom mt)
  && (PyStr.eqb (cls_name box) (lit "motorbike")
      || PyStr.eqb (cls_name box) (lit "motorcycle")
      || PyStr.eqb (cls_name box) (lit "bike")).

(** A person detection of the frame: class person, or with the custom
    model its rider class and its direct-violation class. *)
Definition is_person_detection (mt : model_type) (box : yolo_box) : bool :=
  if is_custom mt
  then PyStr.eqb (cls_name box) (lit "pengendara")
       || PyStr.eqb (cls_name box) (lit "tanpahelm")
  else PyStr.eqb (cls_name box) (lit "person").

(** The integer boxes of the vehicle detections and of the person
    detections among the boxes the model returns, in detection order. *)
Definition vehicle_boxes (mt : model_type) (boxes : list yolo_box)
  : list BBox :=
  map (fun box => _to_bbox (xyxy box)) (filter (is_vehicle_detection mt) boxes).

Definition person_boxes (mt : model_type) (boxes : list yolo_box)
  : list BBox :=
  map (fun box => _to_bbox (xyxy box)) (filter (is_person_detection mt) boxes).

(** The ordering as the specification words it: a block of direct
    violations, then a block of triple-riding violations, then a block of
    spatially derived helmet violations. *)
Definition three_phase_order (out : list violation) : Prop :=
  exists ds ts hs,
    out = ds ++ ts ++ hs
    /\ Forall (fun v => is_direct v = true) ds
    /\ Forall (fun v => is_triple v = true) ts
    /\ Forall (fun v => is_spatial_helmet v = true) hs.

(** The plate normaliser as the specification words it. *)

Definition is_letter (c : N) : bool := Re.in_range 65 90 c.
Definition is_digit (c : N) : bool := Re.in_range 48 57 c.

(** A character of [[A-Z0-9]]. *)
Definition is_AZ09 (c : N) : bool := is_letter c || is_digit c.

(** Two letters, two digits, one or two letters, four digits. *)
Definition plate_grammar (s : str) : bool :=
  match s with
  | [l1; l2; d1; d2; m1; n1; n2; n3; n4] =>
      is_letter l1 && is_letter l2 && is_digit d1 && is_digit d2
      && is_letter m1
      && is_digit n1 && is_digit n2 && is_digit n3 && is_digit n4
  | [l1; l2; d1; d2; m1; m2; n1; n2; n3; n4] =>
      is_letter l1 && is_letter l2 && is_digit d1 && is_digit d2
      && is_letter m1 && is_letter m2
      && is_digit n1 && is_digit n2 && is_digit n3 && is_digit n4
  | _ => false
  end.

(** Upper-case, strip everything outside [[A-Z0-9]], then the three
    rules in order. *)
Definition normalize_spec (upper : str -> str) (raw : str) : str :=
  let cleaned := filter is_AZ09 (upper raw) in
  let len := length cleaned in
  if plate_grammar cleaned then cleaned
  else if (8 <=? len)%nat && (len <=? 10)%nat then cleaned
  else if (len <? 5)%nat then lit "UNKNOWN"
  else cleaned.

(** The dictionary has the key ["type"]. *)
Definition has_type {V : Type} (get_type : V -> option str) (v : V) : bool :=
  match get_type v with Some _ => true | None => false end.

(** The sum of a list of amounts. *)
Definition sumZ (l : list Z) : Z := fold_right Z.add 0 l.

(** The flat table as the specification words it: 500 for a helmet
    violation, 1000 for triple riding, 500 for any other type. *)
Definition claimed_amount (vtype : option str) : Z :=
  match vtype with
  | Some t =>
      if PyStr.eqb t (lit "helmet_violation") then 500
      else if PyStr.eqb t (lit "triple_riding") then 1000
      else 500
  | None => 500
  end.

(** The amount the running totals of the web application add: nothing
    for a type that is neither of the two. *)
Definition app_amount (vtype : option str) : Z :=
  match vtype with
  | Some t =>
      if PyStr.eqb t (lit "helmet_violation") then 500
      else if PyStr.eqb t (lit "triple_riding") then 1000
      else 0
  | None => 0
  end.

(** The amount the PDF report adds: its table, with 500 for a type that
    is not in it. *)
Definition pdf_amount (vtype : option str) : Z :=
  match vtype with
  | Some t =>
      if PyStr.eqb t (lit "helmet_violation") then 500
      else if PyStr.eqb t (lit "no_helmet") then 1000
      else if PyStr.eqb t (lit "triple_riding") then 1000
      else 500
  | None => 500
  end.

(** What the loop of the video processor keeps true of every timeline
    entry: its timestamp is computed from its frame index, its frame
    index is a multiple of the stride, and it has violations. *)
Definition entry_ok {V : Type} (fps frame_skip : Z)
  (entry : VideoProcessor.violation_info V) : Prop :=
  VideoProcessor.timestamp_seconds entry
  = VideoProcessor.timestamp_sec fps (VideoProcessor.frame_number entry)
  /\ VideoProcessor.frame_number entry mod frame_skip = 0
  /\ VideoProcessor.vi_violations entry <> [].

(** The timestamp as the specification words it: the frame index over
    the reported fps when that is above 0, the frame index otherwise. *)
Definition claimed_timestamp (fps : Q) (i : Z) : Q :=
  if Py.Qgtb fps 0 then (inject_Z i / fps)%Q else inject_Z i.

(** A well-formed box: [x1 <= x2] and [y1 <= y2]. *)
Definition well_formed (b : BBox) : Prop :=
  let '(x1, y1, x2, y2) := b in x1 <= x2 /\ y1 <= y2.

(** Two boxes without a common interior point: one lies to the left of,
    to the right of, above or below the other. *)
Definition disjoint (a b : BBox) : Prop :=
  let '(ax1, ay1, ax2, ay2) := a in
  let '(bx1, by1, bx2, by2) := b in
  ax2 <= bx1 \/ bx2 <= ax1 \/ ay2 <= by1 \/ by2 <= ay1.

(** Approximately 1.0: within the epsilon of [iou]. *)
Definition approx_one (q : Q) : Prop := (Qabs (q - 1) <= eps)%Q.

(** A lower-case hexadecimal digit. *)
Definition is_hex (c : N) : bool :=
  Re.in_range 48 57 c || Re.in_range 97 102 c.

(** The shape of a synthetic plate: a state code of the table, two
    digits, two letters, four digits. *)
Definition is_synthetic_plate (p : str) : bool :=
  match p with
  | [s1; s2; d1; d2; l1; l2; n1; n2; n3; n4] =>
      existsb (PyStr.eqb [s1; s2]) App.state_codes
      && is_digit d1 && is_digit d2
      && is_letter l1 && is_letter l2
      && is_digit n1 && is_digit n2 && is_digit n3 && is_digit n4
  | _ => false
  end.

(** Exactly [w] characters, all of them digits. *)
Definition is_digits (w : nat) (s : str) : bool :=
  Nat.eqb (length s) w && forallb is_digit s.

(** The text of an image's dimensions, ["(h, w, c)"], each number as the
    decimal numeral the Standard Library prints for it. *)
Definition shape_text (shape : N * N * N) : str :=
  let '(h, w, c) := shape in
  lit ("(" ++ NilEmpty.string_of_uint (N.to_uint h) ++ ", "
         ++ NilEmpty.string_of_uint (N.to_uint w) ++ ", "
         ++ NilEmpty.string_of_uint (N.to_uint c) ++ ")")%string.

(** The state codes of a synthetic plate, in the order of their
    indices. *)
Definition plate_states : list str :=
  [lit "AP"; lit "TN"; lit "KA"; lit "MH"; lit "DL"; lit "UP"; lit "WB";
   lit "GJ"].

(** The synthetic plate read off the bytes of a digest: the first byte
    modulo 8 picks the state code, the second modulo 50 plus 1 is the
    district on two digits, the third and the fourth modulo 26 pick the
    two letters, and the fifth and sixth, as a 16-bit number modulo
    10000, are the four digits. *)
Definition plate_of_digest (digest : list N) : str :=
  match digest with
  | b0 :: b1 :: b2 :: b3 :: b4 :: b5 :: _ =>
      let district := (b1 mod 50 + 1)%N in
      let number := ((256 * b4 + b5) mod 10000)%N in
      nth (N.to_nat (b0 mod 8)) plate_states []
        ++ [(48 + district / 10)%N; (48 + district mod 10)%N]
        ++ [(65 + b2 mod 26)%N; (65 + b3 mod 26)%N]
        ++ [(48 + number / 1000)%N; (48 + number / 100 mod 10)%N;
            (48 + number / 10 mod 10)%N; (48 + number mod 10)%N]
  | _ => []
  end.

(** The two hexadecimal digits of a byte spell the byte. *)
Definition hex_byte_ok (b : Z) : bool :=
  match map PyFmt.hex_value (Md5.hex_byte b) with
  | [Some dx; Some dy] => N.eqb (16 * dx + dy) (Z.to_N b)
  | _ => false
  end.

(** The synthetic plate of an image of the given dimensions: the plate
    of the MD5 digest of the bytes of the dimensions' text. *)
Definition shape_plate (shape : N * N * N) : str :=
  plate_of_digest (map Z.to_N (Md5.digest (map Z.of_N (shape_text shape)))).

End Spec.

(** * Concrete frames used in the examples *)

Module Examples.

Import PyStr SpatialLogic Detect.

Definition box (name : string) (x1 y1 x2 y2 : Z) (c : Q) : yolo_box :=
  mk_box (lit name) (inject_Z x1, inject_Z y1, inject_Z x2, inject_Z y2) c.

(** Two motorbikes: the first carries one rider without a helmet, the
    second three riders; no helmet box in the frame. *)
Definition two_bikes : list yolo_box :=
  [box "motorbike" 0 0 10 10 (80 # 100);
   box "person" 2 2 8 8 (70 # 100);
   box "motorcycle" 100 100 200 200 (75 # 100);
   box "person" 110 110 120 120 (60 # 100);
   box "person" 130 130 140 140 (61 # 100);
   box "person" 150 150 160 160 (62 # 100)].

(** A frame of the custom model with two direct-violation detections and
    a plate, and no rider or helmet class. *)
Definition two_direct : list yolo_box :=
  [box "tanpahelm" 10 10 50 90 (91 # 100);
   box "platnomor" 20 95 40 105 (55 # 100);
   box "tanpahelm" 60 10 100 90 (77 # 100)].

(** One vehicle with exactly three person centres inside it. *)
Definition three_riders : list yolo_box :=
  [box "bike" 0 0 100 100 (80 # 100);
   box "person" 10 10 30 60 (70 # 100);
   box "person" 35 10 55 60 (71 # 100);
   box "person" 60 10 80 60 (72 # 100);
   box "helmet" 12 10 28 20 (90 # 100);
   box "helmet" 37 10 53 20 (90 # 100);
   box "helmet" 62 10 78 20 (90 # 100)].

(** The violation types of the third scenario of
    [simulate_demo_detection], and a timeline with these violations on
    one frame and a helmet violation on another. *)
Definition simulated_types : list (option str) :=
  [Some (lit "helmet_violation"); Some (lit "triple_riding")].

Definition simulated_timeline
  : list (VideoProcessor.violation_info (option str)) :=
  [VideoProcessor.mk_info 30 1 simulated_types;
   VideoProcessor.mk_info 90 3 [Some (lit "helmet_violation")]].

(** A source of 31 frames, a frame being the list of violations the
    detector finds on it: a violation on the frame of index 30 only. *)
Definition clip : list (list nat) := repeat [] 30 ++ [[1%nat]].

(** A well-formed box of zero area, a square, and a square away from
    it. *)
Definition thin : BBox := (3, 4, 3, 9).
Definition square : BBox := (0, 0, 10, 10).
Definition far_square : BBox := (20, 20, 30, 30).

(** A square that overlaps [square] on a quarter of it. *)
Definition shifted_square : BBox := (5, 5, 15, 15).

(** OCR lines: a plate read with confidence 0.5, a falsy line, and a
    single letter read with confidence 0.9. *)
Definition ocr_lines : list PaddleOcrReader.ocr_line :=
  [Some (lit "ka01ab1234", 5 # 10); None; Some (lit "x", 9 # 10)].

(** Two OCR results with positive confidences. *)
Definition ocr_results : list (str * Q) :=
  [(lit "ka01ab1234", 5 # 10); (lit "MH12XY9012", 9 # 10)].

(** The plate numbers of three timeline entries. *)
Definition plates_seen : list (list str) :=
  [[lit "KA01AB1234"; lit "MH12XY9012"]; []; [lit "KA01AB1234"]].

(** A transaction id of the demo that names the payment app. *)
Definition upi_txn : str := lit "UPI20240001".

End Examples.

(** * Vocabulary of the further properties *)

Module Props.

Import PyStr SpatialLogic Detect.

(** The boxes overlap on a region of positive area. *)
Definition strict_overlap (a b : BBox) : Prop :=
  let '(ax1, ay1, ax2, ay2) := a in
  let '(bx1, by1, bx2, by2) := b in
  Z.max ax1 bx1 < Z.min ax2 bx2 /\ Z.max ay1 by1 < Z.min ay2 by2.

(** The centre of [p] lies in the closed box [b], said on integers. *)
Definition centre_inside (b p : BBox) : Prop :=
  let '(x1, y1, x2, y2) := b in
  let '(px1, py1, px2, py2) := p in
  2 * x1 <= px1 + px2 <= 2 * x2 /\ 2 * y1 <= py1 + py2 <= 2 * y2.

(** The box [p] lies within the box [b]. *)
Definition within (p b : BBox) : Prop :=
  let '(x1, y1, x2, y2) := b in
  let '(px1, py1, px2, py2) := p in
  x1 <= px1 /\ px2 <= x2 /\ y1 <= py1 /\ py2 <= y2.

(** What a violation of a frame says about the frame's detections. *)
Definition grounded (mt : model_type) (persons bikes helmets : list BBox)
  (v : violation) : Prop :=
  match v with
  | DirectViolation bbox _ => is_custom mt = true /\ In bbox persons
  | TripleRiding bike_bbox riders confidence =>
      In bike_bbox bikes
      /\ riders = length (Spec.riders_of bike_bbox persons)
      /\ (3 <= riders <= length persons)%nat
      /\ confidence = (90 # 100)%Q
  | HelmetViolation rider_bbox bike_bbox confidence =>
      is_custom mt = false
      /\ In bike_bbox bikes /\ In rider_bbox persons
      /\ centre_inside bike_bbox rider_bbox
      /\ has_helmet_for_person rider_bbox helmets = false
      /\ confidence = (85 # 100)%Q
  | FallbackViolation _ => False
  end.

(** A contour area that the fallback detector counts as a vehicle. *)
Definition vehicle_area (area : Q) : bool :=
  Py.Qgtb area (inject_Z 2000) && Py.Qgtb (inject_Z 50000) area.

(** The output of the plate normaliser is well formed: the sentinel, or
    at least five characters of [[A-Z0-9]]. *)
Definition normal_form (s : str) : Prop :=
  s = lit "UNKNOWN"
  \/ ((5 <= length s)%nat /\ Forall (fun c => Spec.is_AZ09 c = true) s).

(** The confidences of the OCR lines, a falsy line counting for
    nothing. *)
Definition line_conf (line : PaddleOcrReader.ocr_line) : Q :=
  match line with Some (_, conf) => conf | None => 0%Q end.

(** The number of violations of a timeline. *)
Definition timeline_violations {V : Type}
  (timeline : list (VideoProcessor.violation_info V)) : Z :=
  Spec.sumZ
    (map (fun e => Z.of_nat (length (VideoProcessor.vi_violations e)))
       timeline).

(** The frame indices below [n] that the video processor samples. *)
Definition sampled_count (frame_skip n : Z) : Z :=
  (n + frame_skip - 1) / frame_skip.

(** The frame counts that the worker samples among [n] frames, with
    their timestamps. *)
Definition worker_samples (FRAME_SKIP : Z) (fps : Q) (n : nat)
  : list (Z * Q) :=
  map (fun k => let c := Z.of_nat k * FRAME_SKIP in (c, inject_Z c / fps)%Q)
    (seq 1 (Z.to_nat (Z.of_nat n / FRAME_SKIP))).

(** The number of boxes the extraction put in the four classes. *)
Definition class_total (e : extracted) : nat :=
  (length (person (bboxes e)) + length (motorbike (bboxes e))
   + length (helmet (bboxes e)) + length (license_plate (bboxes e)))%nat.

(** Each class has as many scores as boxes, and there are no more direct
    violations than persons. *)
Definition paired (e : extracted) : Prop :=
  length (person (bboxes e)) = length (person (scores e))
  /\ length (motorbike (bboxes e)) = length (motorbike (scores e))
  /\ length (helmet (bboxes e)) = length (helmet (scores e))
  /\ length (license_plate (bboxes e)) = length (license_plate (scores e))
  /\ (length (direct_violations e) <= length (person (bboxes e)))%nat.

(** What the loop of the video processor keeps true of its state. *)
Definition loop_inv {V : Type} (frame_skip : Z)
  (st : VideoProcessor.loop_state V) : Prop :=
  0 <= VideoProcessor.frame_idx st
  /\ VideoProcessor.frames_processed V st
     = sampled_count frame_skip (VideoProcessor.frame_idx st)
  /\ VideoProcessor.total_violations V st
     = timeline_violations (VideoProcessor.violations_timeline st)
  /\ StronglySorted Z.lt
       (map VideoProcessor.frame_number
          (VideoProcessor.violations_timeline st))
  /\ Forall
       (fun e =>
          0 <= VideoProcessor.frame_number e < VideoProcessor.frame_idx st
          /\ VideoProcessor.vi_violations e <> [])
       (VideoProcessor.violations_timeline st)
  /\ Z.of_nat (length (VideoProcessor.violations_timeline st))
     <= VideoProcessor.frames_processed V st.

(** The frame counts above [c] and up to [c + n] that the worker
    samples, with their timestamps. *)
Definition worker_samples_from (FRAME_SKIP : Z) (fps : Q) (c : Z) (n : nat)
  : list (Z * Q) :=
  map (fun k => let m := Z.of_nat k * FRAME_SKIP in (m, inject_Z m / fps)%Q)
    (seq (S (Z.to_nat (c / FRAME_SKIP)))
       (Z.to_nat ((c + Z.of_nat n) / FRAME_SKIP - c / FRAME_SKIP))).

(** The label [create_demo_violation] gives a violation type, none for
    a type outside its two. *)
Definition demo_labels (vtype : option str) : list str :=
  match vtype with
  | Some t =>
      if PyStr.eqb t (lit "helmet_violation")
      then [lit "Riding without Helmet"]
      else if PyStr.eqb t (lit "triple_riding") then [lit "Triple Riding"]
      else []
  | None => []
  end.

(** The type is one of the two the classifier emits. *)
Definition known_type (vtype : option str) : bool :=
  match vtype with
  | Some t =>
      PyStr.eqb t (lit "helmet_violation") || PyStr.eqb t (lit "triple_riding")
  | None => false
  end.

End Props.

(** * Lemmas on the loops *)

Import PyStr SpatialLogic Detect Spec.

Lemma fold_left_append {A B : Type} (g : B -> list A) (l : list B)
  (init : list A) :
  fold_left (fun acc x => acc ++ g x) l init = init ++ flat_map g l.
Proof.
  revert init; induction l as [|x l IH]; intros init; simpl.
  - now rewrite app_nil_r.
  - rewrite IH. now rewrite app_assoc.
Qed.

Lemma fold_left_ext_list {A B : Type} (f g : A -> B -> A) (l : list B)
  (init : A) :
  (forall a x, f a x = g a x) -> fold_left f l init = fold_left g l init.
Proof.
  intros E; revert init; induction l as [|x l IH]; intros init; simpl; auto.
  rewrite E. apply IH.
Qed.

Lemma assign_riders_filter (bike_bbox : BBox) (persons : list BBox) :
  assign_riders_to_bike bike_bbox persons = riders_of bike_bbox persons.
Proof.
  unfold riders_of.
  induction persons as [|pb rest IH]; simpl; auto.
  destruct (point_inside bike_bbox (bbox_center pb)); now rewrite IH.
Qed.

Lemma helmet_loop (helmets : list BBox) (bike_bbox : BBox)
  (riders : list BBox) (vs : list violation) :
  fold_left (helmet_check helmets bike_bbox) riders vs
  = vs ++ flat_map
            (fun rider_bbox =>
               if has_helmet_for_person rider_bbox helmets then []
               else [HelmetViolation rider_bbox bike_bbox (85 # 100)])
            riders.
Proof.
  rewrite <- fold_left_append.
  apply fold_left_ext_list; intros a x.
  unfold helmet_check.
  destruct (has_helmet_for_person x helmets); simpl; auto.
  now rewrite app_nil_r.
Qed.

Lemma bike_step_append (mt : model_type) (persons helmets : list BBox)
  (vs : list violation) (bike_bbox : BBox) :
  bike_step mt persons helmets vs bike_bbox
  = vs ++ (triple_part persons bike_bbox
           ++ helmet_part mt persons helmets bike_bbox).
Proof.
  unfold bike_step, triple_part, helmet_part.
  rewrite assign_riders_filter. cbv zeta.
  destruct (3 <=? length (riders_of bike_bbox persons))%nat;
    destruct (is_custom mt); cbn [negb];
    rewrite ?helmet_loop, ?app_nil_r, <- ?app_assoc; auto.
Qed.

Lemma classify_shape (mt : model_type) (e : extracted) :
  classify mt e
  = (if is_custom mt then direct_violations e else [])
    ++ flat_map
         (fun b =>
            triple_part (person (bboxes e)) b
            ++ helmet_part mt (person (bboxes e)) (helmet (bboxes e)) b)
         (motorbike (bboxes e)).
Proof.
  unfold classify.
  rewrite (fold_left_ext_list _
             (fun acc b =>
                acc ++ (triple_part (person (bboxes e)) b
                        ++ helmet_part mt (person (bboxes e))
                             (helmet (bboxes e)) b)))
    by (intros; apply bike_step_append).
  rewrite fold_left_append. f_equal.
  destruct (is_custom mt); simpl; auto.
  destruct (direct_violations e); reflexivity.
Qed.

Lemma str_eqb_eq (a b : str) : PyStr.eqb a b = true <-> a = b.
Proof.
  revert b; induction a as [|x a IH]; intros [|y b]; simpl;
    try (split; [discriminate | discriminate]); try tauto.
  rewrite andb_true_iff, N.eqb_eq, IH.
  split; [intros [-> ->]; reflexivity | intros E; inversion E; auto].
Qed.

Lemma str_eqb_refl (a : str) : PyStr.eqb a a = true.
Proof. now apply str_eqb_eq. Qed.

(** The extraction loop, one box at a time, in the custom mode. *)
Lemma extract_box_custom (e : extracted) (box : yolo_box) :
  let e' := extract_box custom_indonesian e box in
  direct_violations e'
  = direct_violations e
    ++ (if is_tanpahelm box
        then [DirectViolation (_to_bbox (xyxy box)) (conf box)] else [])
  /\ motorbike (bboxes e') = motorbike (bboxes e)
  /\ exists extra,
       person (bboxes e') = person (bboxes e) ++ extra
       /\ (is_tanpahelm box = true -> extra = [_to_bbox (xyxy box)]).
Proof.
  unfold extract_box, is_tanpahelm, in_tuple; cbn [is_custom existsb orb].
  rewrite !orb_false_r.
  destruct (PyStr.eqb (cls_name box) (lit "tanpahelm")) eqn:T.
  - apply str_eqb_eq in T. rewrite T. cbn.
    repeat split; auto. exists [_to_bbox (xyxy box)]. auto.
  - destruct (PyStr.eqb (cls_name box) (lit "pengendara"));
      [|destruct (PyStr.eqb (cls_name box) (lit "helm"));
        [|destruct (PyStr.eqb (cls_name box) (lit "platnomor"))]];
      cbn; rewrite ?app_nil_r; repeat split; auto;
      solve [ eexists; split; [reflexivity | discriminate]
            | exists []; rewrite app_nil_r; split; [reflexivity | discriminate] ].
Qed.

Lemma extract_custom_from (boxes : list yolo_box) (e : extracted) :
  let e' := fold_left (extract_box custom_indonesian) boxes e in
  direct_violations e'
  = direct_violations e
    ++ map (fun box => DirectViolation (_to_bbox (xyxy box)) (conf box))
         (filter is_tanpahelm boxes)
  /\ motorbike (bboxes e') = motorbike (bboxes e)
  /\ (forall box, In box boxes -> is_tanpahelm box = true ->
      In (_to_bbox (xyxy box)) (person (bboxes e')))
  /\ (forall b, In b (person (bboxes e)) -> In b (person (bboxes e'))).
Proof.
  revert e; induction boxes as [|box boxes IH]; intros e; cbn [fold_left].
  - cbn. rewrite app_nil_r. repeat split; auto. intros box [].
  - destruct (extract_box_custom e box) as (D & M & extra & P & X).
    destruct (IH (extract_box custom_indonesian e box)) as (D' & M' & I' & K').
    cbv zeta in *. repeat split.
    + rewrite D', D. cbn [filter].
      destruct (is_tanpahelm box); cbn [map]; rewrite <- app_assoc; auto.
    + now rewrite M', M.
    + intros bx [-> | Hin] Ht.
      * apply K'. rewrite P, (X Ht). apply in_or_app. right. now left.
      * now apply I'.
    + intros b Hb. apply K'. rewrite P. apply in_or_app. now left.
Qed.

(** Outside the custom mode the loop records no direct violation. *)
Lemma extract_box_standard (mt : model_type) (e : extracted) (box : yolo_box) :
  is_custom mt = false ->
  direct_violations (extract_box mt e box) = direct_violations e.
Proof.
  intros H. unfold extract_box. rewrite H.
  repeat match goal with
         | |- context [if ?c then _ else _] => destruct c
         end; reflexivity.
Qed.

Lemma extract_standard_from (mt : model_type) (boxes : list yolo_box)
  (e : extracted) :
  is_custom mt = false ->
  direct_violations (fold_left (extract_box mt) boxes e) = direct_violations e.
Proof.
  intros H; revert e; induction boxes as [|box boxes IH]; intros e;
    cbn [fold_left]; auto.
  rewrite IH. now apply extract_box_standard.
Qed.

(** Whatever the mode, the recorded direct violations are direct ones. *)
Lemma extract_directs (mt : model_type) (boxes : list yolo_box) :
  Forall (fun v => is_direct v = true)
    (direct_violations (extract mt boxes)).
Proof.
  unfold extract. destruct (is_custom mt) eqn:C.
  - destruct mt; try discriminate.
    destruct (extract_custom_from boxes empty_extracted) as (D & _).
    cbv zeta in D. rewrite D. cbn [empty_extracted direct_violations app].
    apply Forall_forall. intros v Hv. apply in_map_iff in Hv.
    destruct Hv as (box & <- & _). reflexivity.
  - rewrite extract_standard_from by assumption. constructor.
Qed.

Lemma filter_none {A : Type} (p : A -> bool) (l : list A) :
  Forall (fun x => p x = false) l -> filter p l = [].
Proof.
  induction 1 as [|x l Hx _ IH]; simpl; auto. now rewrite Hx.
Qed.

Lemma filter_all {A : Type} (p : A -> bool) (l : list A) :
  Forall (fun x => p x = true) l -> filter p l = l.
Proof.
  induction 1 as [|x l Hx _ IH]; simpl; auto. now rewrite Hx, IH.
Qed.

Lemma filter_flat_map {A B : Type} (p : A -> bool) (g : B -> list A)
  (l : list B) :
  filter p (flat_map g l) = flat_map (fun x => filter p (g x)) l.
Proof.
  induction l as [|x l IH]; simpl; auto. now rewrite filter_app, IH.
Qed.

Lemma BBox_eqb_eq (a b : BBox) : BBox_eqb a b = true <-> a = b.
Proof.
  destruct a as [[[ax1 ay1] ax2] ay2], b as [[[bx1 by1] bx2] by2].
  unfold BBox_eqb. rewrite !andb_true_iff, !Z.eqb_eq.
  split; [intros [[[-> ->] ->] ->]; reflexivity | intros E; inversion E; auto].
Qed.

Lemma helmet_part_spatial (mt : model_type) (persons helmets : list BBox)
  (b : BBox) :
  Forall (fun v => is_spatial_helmet v = true)
    (helmet_part mt persons helmets b).
Proof.
  unfold helmet_part. destruct (is_custom mt); [constructor|].
  apply Forall_forall. intros v Hv. apply in_flat_map in Hv.
  destruct Hv as (r & _ & Hv).
  destruct (has_helmet_for_person r helmets); [destruct Hv|].
  destruct Hv as [<- | []]. reflexivity.
Qed.

Lemma triple_part_triple (persons : list BBox) (b : BBox) :
  Forall (fun v => is_triple v = true) (triple_part persons b).
Proof.
  unfold triple_part.
  destruct (3 <=? length (riders_of b persons))%nat; repeat constructor.
Qed.

Lemma Forall_weaken {A : Type} (P Q : A -> Prop) (l : list A) :
  (forall x, P x -> Q x) -> Forall P l -> Forall Q l.
Proof. intros H F. eapply Forall_impl; eauto. Qed.

(** The violation list of a frame, by phase and by vehicle. *)
Lemma detection_shape (mt : model_type) (boxes : list yolo_box) :
  let md := _yolo_advanced_detection mt boxes in
  let persons := person (md_bboxes md) in
  let helmets := helmet (md_bboxes md) in
  violations md
  = (if is_custom mt
     then map (fun box => DirectViolation (_to_bbox (xyxy box)) (conf box))
            (filter is_tanpahelm boxes)
     else [])
    ++ flat_map
         (fun b => triple_part persons b ++ helmet_part mt persons helmets b)
         (motorbike (md_bboxes md)).
Proof.
  cbn [_yolo_advanced_detection violations md_bboxes].
  rewrite classify_shape. f_equal.
  destruct (is_custom mt) eqn:C; auto.
  destruct mt; try discriminate. unfold extract.
  destruct (extract_custom_from boxes empty_extracted) as (D & _).
  exact D.
Qed.

(** ** Triple riding, vehicle by vehicle *)

(** The triple-riding violations of the output, in terms of the vehicle
    and person lists the extraction loop has built. *)
Lemma triple_riding_of_lists (mt : model_type) (boxes : list yolo_box) :
  let md := _yolo_advanced_detection mt boxes in
  let persons := person (md_bboxes md) in
  let bikes := motorbike (md_bboxes md) in
  filter is_triple (violations md)
  = flat_map
      (fun bike_bbox =>
         let n := length (riders_of bike_bbox persons) in
         if (3 <=? n)%nat then [TripleRiding bike_bbox n (90 # 100)] else [])
      bikes
  /\ forall b,
       length (filter (is_triple_of b) (violations md))
       = if (3 <=? length (riders_of b persons))%nat
         then length (filter (fun b' => BBox_eqb b' b) bikes)
         else 0%nat.
Proof.
  intros md persons bikes.
  pose proof (detection_shape mt boxes) as S. cbv zeta in S.
  fold md in S. fold persons in S. fold bikes in S.
  assert (D : Forall (fun v => is_direct v = true)
                (if is_custom mt
                 then map (fun box =>
                             DirectViolation (_to_bbox (xyxy box)) (conf box))
                        (filter is_tanpahelm boxes)
                 else [])).
  { destruct (is_custom mt); [|constructor].
    apply Forall_forall. intros v Hv. apply in_map_iff in Hv.
    destruct Hv as (bx & <- & _). reflexivity. }
  split.
  - rewrite S, filter_app.
    rewrite (filter_none is_triple)
      by (eapply Forall_weaken; [|exact D]; intros [] H; auto; discriminate).
    cbn [app]. rewrite filter_flat_map.
    apply flat_map_ext. intros b. rewrite filter_app.
    rewrite (filter_all _ _ (triple_part_triple persons b)).
    rewrite (filter_none is_triple), app_nil_r; [reflexivity|].
    eapply Forall_weaken; [|apply helmet_part_spatial].
    intros [] H; auto; discriminate.
  - intros b. rewrite S, filter_app.
    rewrite (filter_none (is_triple_of b))
      by (eapply Forall_weaken; [|exact D]; intros [] H; auto; discriminate).
    cbn [app]. rewrite filter_flat_map. clear S.
    generalize bikes as l. induction l as [|b' l IH]; cbn [flat_map filter].
    + now destruct (3 <=? length (riders_of b persons))%nat.
    + rewrite length_app, IH, filter_app, length_app.
      rewrite (filter_none (is_triple_of b)
                 (helmet_part mt persons (helmet (md_bboxes md)) b'))
        by (eapply Forall_weaken; [|apply helmet_part_spatial];
            intros [] H; auto; discriminate).
      unfold triple_part. cbn [length].
      destruct (BBox_eqb b' b) eqn:E.
      * apply BBox_eqb_eq in E. subst b'.
        destruct (3 <=? length (riders_of b persons))%nat; cbn.
        -- rewrite (proj2 (BBox_eqb_eq b b) eq_refl). reflexivity.
        -- reflexivity.
      * destruct (3 <=? length (riders_of b' persons))%nat; cbn;
          rewrite ?E; cbn; lia.
Qed.

(** What one detection adds to the person list and to the vehicle
    list. *)
Lemma extract_box_lists (mt : model_type) (e : extracted) (box : yolo_box) :
  person (bboxes (extract_box mt e box))
  = person (bboxes e)
    ++ (if is_person_detection mt box then [_to_bbox (xyxy box)] else [])
  /\ motorbike (bboxes (extract_box mt e box))
     = motorbike (bboxes e)
       ++ (if is_vehicle_detection mt box then [_to_bbox (xyxy box)] else []).
Proof.
  unfold extract_box, is_person_detection, is_vehicle_detection, in_tuple.
  cbn [existsb]. rewrite !orb_false_r.
  destruct (is_custom mt); cbn [negb andb].
  - destruct (PyStr.eqb (cls_name box) (lit "pengendara")) eqn:E1;
      [cbn; rewrite app_nil_r; auto|].
    destruct (PyStr.eqb (cls_name box) (lit "helm")) eqn:E2.
    { apply str_eqb_eq in E2. rewrite E2. cbn. rewrite !app_nil_r. auto. }
    destruct (PyStr.eqb (cls_name box) (lit "platnomor")) eqn:E3.
    { apply str_eqb_eq in E3. rewrite E3. cbn. rewrite !app_nil_r. auto. }
    destruct (PyStr.eqb (cls_name box) (lit "tanpahelm")) eqn:E4;
      cbn; rewrite !app_nil_r; auto.
  - destruct (PyStr.eqb (cls_name box) (lit "person")) eqn:E1.
    { apply str_eqb_eq in E1. rewrite E1. cbn. rewrite app_nil_r. auto. }
    destruct (PyStr.eqb (cls_name box) (lit "motorbike")
              || (PyStr.eqb (cls_name box) (lit "motorcycle")
                  || PyStr.eqb (cls_name box) (lit "bike"))) eqn:E2.
    { rewrite orb_assoc in E2. rewrite E2. cbn. rewrite app_nil_r. auto. }
    rewrite orb_assoc in E2. rewrite E2.
    destruct (PyStr.eqb (cls_name box) (lit "helmet")) eqn:E3;
      [cbn; rewrite !app_nil_r; auto|].
    match goal with
    | |- context [if ?c then _ else _] => destruct c
    end; cbn; rewrite !app_nil_r; auto.
Qed.

Lemma extract_lists_from (mt : model_type) (boxes : list yolo_box)
  (e : extracted) :
  person (bboxes (fold_left (extract_box mt) boxes e))
  = person (bboxes e) ++ person_boxes mt boxes
  /\ motorbike (bboxes (fold_left (extract_box mt) boxes e))
     = motorbike (bboxes e) ++ vehicle_boxes mt boxes.
Proof.
  unfold person_boxes, vehicle_boxes.
  revert e; induction boxes as [|box boxes IH]; intros e;
    cbn [fold_left filter map].
  - now rewrite !app_nil_r.
  - destruct (IH (extract_box mt e box)) as [P M].
    destruct (extract_box_lists mt e box) as [P1 M1].
    rewrite P, M, P1, M1, <- !app_assoc. split; f_equal.
    + destruct (is_person_detection mt box); reflexivity.
    + destruct (is_vehicle_detection mt box); reflexivity.
Qed.

(** C1: for every frame and detector mode, take the vehicle detections
    and the person detections among the boxes the model returns.  The
    triple-riding violations of the output are, in vehicle-detection
    order, one per vehicle detection whose box contains the centres of
    at least three person boxes, each carrying that vehicle's box, the
    observed rider count and the confidence 0.90, and none for a vehicle
    with fewer than three riders; counted per vehicle box [b], the output
    holds as many triple-riding violations of [b] as there are detections
    of [b] when [b] has three riders or more, and none otherwise.  The
    vehicle and person lists the function returns are these
    detections. *)
Theorem triple_riding_per_vehicle (mt : model_type) (boxes : list yolo_box) :
  let md := _yolo_advanced_detection mt boxes in
  let persons := person_boxes mt boxes in
  let bikes := vehicle_boxes mt boxes in
  person (md_bboxes md) = persons
  /\ motorbike (md_bboxes md) = bikes
  /\ filter is_triple (violations md)
     = flat_map
         (fun bike_bbox =>
            let n := length (riders_of bike_bbox persons) in
            if (3 <=? n)%nat
            then [TripleRiding bike_bbox n (90 # 100)]
            else [])
         bikes
  /\ forall b,
       length (filter (is_triple_of b) (violations md))
       = if (3 <=? length (riders_of b persons))%nat
         then length (filter (fun b' => BBox_eqb b' b) bikes)
         else 0%nat.
Proof.
  intros md persons bikes.
  destruct (extract_lists_from mt boxes empty_extracted) as [P M].
  cbn [empty_extracted bboxes person motorbike app] in P, M.
  assert (EP : person (md_bboxes md) = persons) by exact P.
  assert (EM : motorbike (md_bboxes md) = bikes) by exact M.
  split; [exact EP|]. split; [exact EM|].
  pose proof (triple_riding_of_lists mt boxes) as T. cbv zeta in T.
  fold md in T. rewrite EP, EM in T. exact T.
Qed.

(** The frame of the specification's scenario: one vehicle, three person
    centres inside it, every rider with a helmet. *)
Example three_riders_one_triple :
  violations (_yolo_advanced_detection yolov8n Examples.three_riders)
  = [TripleRiding (0, 0, 100, 100) 3 (90 # 100)].
Proof. reflexivity. Qed.

(** ** Direct-violation mode *)

Lemma custom_no_bikes (boxes : list yolo_box) :
  motorbike (md_bboxes (_yolo_advanced_detection custom_indonesian boxes))
  = [].
Proof.
  cbn [_yolo_advanced_detection md_bboxes]. unfold extract.
  destruct (extract_custom_from boxes empty_extracted) as (_ & M & _).
  exact M.
Qed.

Lemma custom_directs_in_persons (boxes : list yolo_box) :
  Forall
    (fun box =>
       In (_to_bbox (xyxy box))
         (person (md_bboxes (_yolo_advanced_detection custom_indonesian
                               boxes))))
    (filter is_tanpahelm boxes).
Proof.
  apply Forall_forall. intros bx Hbx. apply filter_In in Hbx.
  destruct Hbx as [Hin Ht].
  cbn [_yolo_advanced_detection md_bboxes]. unfold extract.
  destruct (extract_custom_from boxes empty_extracted) as (_ & _ & I & _).
  now apply I.
Qed.

(** C2: with the custom model, the violation list of a frame is exactly
    one helmet violation per direct-violation detection, in detection
    order, each with that detection's own box and confidence; the box of
    every such detection is in the person set; no spatially derived
    helmet violation is in the list; so the list has as many entries as
    there are direct-violation detections, all of type helmet violation,
    and their confidences are the detections' confidences. *)
Theorem direct_violation_mode (boxes : list yolo_box) :
  let md := _yolo_advanced_detection custom_indonesian boxes in
  let directs := filter is_tanpahelm boxes in
  violations md
  = map (fun box => DirectViolation (_to_bbox (xyxy box)) (conf box)) directs
  /\ Forall (fun box => In (_to_bbox (xyxy box)) (person (md_bboxes md)))
       directs
  /\ filter is_spatial_helmet (violations md) = []
  /\ length (violations md) = length directs
  /\ Forall (fun v => vtype v = lit "helmet_violation") (violations md)
  /\ map vconfidence (violations md) = map conf directs.
Proof.
  intros md directs.
  assert (V : violations md
              = map (fun box =>
                       DirectViolation (_to_bbox (xyxy box)) (conf box))
                  directs).
  { pose proof (detection_shape custom_indonesian boxes) as S.
    cbv zeta in S. rewrite custom_no_bikes in S.
    cbn [is_custom flat_map] in S. now rewrite app_nil_r in S. }
  split; [exact V|]. split; [|rewrite V; repeat split].
  - apply custom_directs_in_persons.
  - apply filter_none, Forall_forall. intros v Hv.
    apply in_map_iff in Hv. destruct Hv as (bx & <- & _). reflexivity.
  - apply length_map.
  - apply Forall_forall. intros v Hv.
    apply in_map_iff in Hv. destruct Hv as (bx & <- & _). reflexivity.
  - rewrite map_map. reflexivity.
Qed.

(** The frame of the specification's scenario: two direct-violation
    detections, no rider or helmet class. *)
Example two_direct_two_violations :
  violations (_yolo_advanced_detection custom_indonesian Examples.two_direct)
  = [DirectViolation (10, 10, 50, 90) (91 # 100);
     DirectViolation (60, 10, 100, 90) (77 # 100)].
Proof. reflexivity. Qed.

(** ** Helmet coverage *)

Lemma Qgtb_zero (x : Q) : Py.Qgtb x 0 = true <-> (0 < x)%Q.
Proof.
  unfold Py.Qgtb. rewrite negb_true_iff. split.
  - intros H. apply Qnot_le_lt. intros L.
    apply Qle_bool_iff in L. congruence.
  - intros H. destruct (Qle_bool x 0) eqn:L; auto.
    apply Qle_bool_iff in L. exfalso. exact (Qlt_not_le _ _ H L).
Qed.

Lemma has_helmet_in_iff (head : BBox) (helmets : list BBox) :
  has_helmet_in head helmets = true
  <-> exists hb, In hb helmets /\ (0 < iou head hb)%Q.
Proof.
  induction helmets as [|hb rest IH]; cbn [has_helmet_in].
  - split; [discriminate | intros (hb & [] & _)].
  - destruct (Py.Qgtb (iou head hb) 0) eqn:G.
    + split; auto. intros _. exists hb. split; [now left|].
      now apply Qgtb_zero.
    + rewrite IH. split.
      * intros (h & Hin & Hpos). exists h. split; [now right | exact Hpos].
      * intros (h & [<- | Hin] & Hpos).
        -- apply Qgtb_zero in Hpos. congruence.
        -- exists h. auto.
Qed.

(** C3: a person has a helmet exactly when some helmet box of the list
    has an IoU strictly above 0 with the person's head region; with an
    empty helmet list the answer is always false. *)
Theorem has_helmet_iff_overlap (P : BBox) (H : list BBox) :
  (has_helmet_for_person P H = true
   <-> exists hb, In hb H /\ (0 < iou (head_region P) hb)%Q)
  /\ has_helmet_for_person P [] = false.
Proof.
  split; [apply has_helmet_in_iff | reflexivity].
Qed.

Lemma has_helmet_iff_overlap_witness :
  has_helmet_for_person (0, 0, 10, 10) [(20, 20, 30, 30); (0, 0, 5, 5)] = true.
Proof.
  apply (proj2 (proj1 (has_helmet_iff_overlap (0, 0, 10, 10)
                         [(20, 20, 30, 30); (0, 0, 5, 5)]))).
  exists (0, 0, 5, 5). split.
  - right. left. reflexivity.
  - vm_compute. reflexivity.
Defined.

(** ** Order of the violation list *)

(** C4, as stated, fails: with two vehicles, the helmet violation of the
    first vehicle's rider comes before the triple-riding violation of the
    second vehicle. *)
Lemma three_phase_order_fails :
  violations (_yolo_advanced_detection yolov8n Examples.two_bikes)
  = [HelmetViolation (2, 2, 8, 8) (0, 0, 10, 10) (85 # 100);
     TripleRiding (100, 100, 200, 200) 3 (90 # 100);
     HelmetViolation (110, 110, 120, 120) (100, 100, 200, 200) (85 # 100);
     HelmetViolation (130, 130, 140, 140) (100, 100, 200, 200) (85 # 100);
     HelmetViolation (150, 150, 160, 160) (100, 100, 200, 200) (85 # 100)]
  /\ ~ three_phase_order
         (violations (_yolo_advanced_detection yolov8n Examples.two_bikes)).
Proof.
  assert (E : violations (_yolo_advanced_detection yolov8n Examples.two_bikes)
    = [HelmetViolation (2, 2, 8, 8) (0, 0, 10, 10) (85 # 100);
       TripleRiding (100, 100, 200, 200) 3 (90 # 100);
       HelmetViolation (110, 110, 120, 120) (100, 100, 200, 200) (85 # 100);
       HelmetViolation (130, 130, 140, 140) (100, 100, 200, 200) (85 # 100);
       HelmetViolation (150, 150, 160, 160) (100, 100, 200, 200) (85 # 100)])
    by reflexivity.
  split; [exact E|]. rewrite E.
  intros (ds & ts & hs & D & Fd & Ft & Fh).
  destruct ds as [|d ds].
  - destruct ts as [|t ts].
    + cbn [app] in D. subst hs.
      inversion Fh as [|? ? _ Fh']. inversion Fh' as [|? ? Bad _].
      discriminate Bad.
    + cbn [app] in D. inversion D; subst.
      inversion Ft as [|? ? Bad _]. discriminate Bad.
  - cbn [app] in D. inversion D; subst.
    inversion Fd as [|? ? Bad _]. discriminate Bad.
Qed.

(** C4, amended: the violation list is the direct violations in
    detection order (none outside the custom mode), followed, for each
    vehicle in vehicle-detection order, by that vehicle's triple-riding
    violation if it has one and then that vehicle's spatially derived
    helmet violations in rider order. *)
Theorem per_vehicle_order (mt : model_type) (boxes : list yolo_box) :
  let md := _yolo_advanced_detection mt boxes in
  let persons := person (md_bboxes md) in
  let helmets := helmet (md_bboxes md) in
  let directs :=
    if is_custom mt
    then map (fun box => DirectViolation (_to_bbox (xyxy box)) (conf box))
           (filter is_tanpahelm boxes)
    else [] in
  violations md
  = directs
    ++ flat_map
         (fun b => triple_part persons b ++ helmet_part mt persons helmets b)
         (motorbike (md_bboxes md))
  /\ Forall (fun v => is_direct v = true) directs
  /\ (forall b, Forall (fun v => is_triple v = true) (triple_part persons b))
  /\ (forall b, Forall (fun v => is_spatial_helmet v = true)
                  (helmet_part mt persons helmets b)).
Proof.
  intros md persons helmets directs. repeat split.
  - apply detection_shape.
  - unfold directs. destruct (is_custom mt); [|constructor].
    apply Forall_forall. intros v Hv. apply in_map_iff in Hv.
    destruct Hv as (bx & <- & _). reflexivity.
  - intros b. apply triple_part_triple.
  - intros b. apply helmet_part_spatial.
Qed.

(** ** Plate normaliser *)

Lemma AZ09_facts (c : N) :
  is_AZ09 c = true -> N.ltb c 128 = true /\ N.eqb c 10 = false.
Proof.
  unfold is_AZ09, is_letter, is_digit, Re.in_range.
  rewrite orb_true_iff, !andb_true_iff, !N.leb_le, N.ltb_lt, N.eqb_neq. lia.
Qed.

Section PlatePattern.

Variable decimal_nonascii : N -> bool.

Lemma cls_d_AZ09 (c : N) :
  is_AZ09 c = true -> PaddleOcrReader.cls_d decimal_nonascii c = is_digit c.
Proof.
  intros H. apply AZ09_facts in H. destruct H as [H _].
  unfold PaddleOcrReader.cls_d. now rewrite H.
Qed.

Lemma pattern_is_grammar (s : str) :
  Forall (fun c => is_AZ09 c = true) s ->
  Re.match_anchored (PaddleOcrReader.indian_plate_pattern decimal_nonascii) s
  = plate_grammar s.
Proof.
  intros F. unfold Re.match_anchored,
    PaddleOcrReader.indian_plate_pattern.
  cbn [Re.run Re.times Re.between Re.upto Nat.sub].
  do 11 (try (destruct s as [|?c s])).
  all: cbn [plate_grammar Re.at_dollar].
  all: repeat match goal with
       | H : Forall _ (_ :: _) |- _ => inversion H; subst; clear H
       end.
  all: repeat match goal with
       | H : is_AZ09 ?c = true |- _ =>
           rewrite ?(cls_d_AZ09 c H);
           rewrite ?(proj2 (AZ09_facts c H)); clear H
       end.
  all: change PaddleOcrReader.cls_AZ with is_letter.
  all: try (destruct s).
  all: btauto.
Qed.

End PlatePattern.

Lemma filter_AZ09_clean (s : str) :
  Forall (fun c => is_AZ09 c = true) (filter is_AZ09 s).
Proof.
  apply Forall_forall. intros c Hc. now apply filter_In in Hc.
Qed.

Lemma sub_is_filter (s : str) :
  Re.sub_class_empty PaddleOcrReader.cls_not_AZ09 s = filter is_AZ09 s.
Proof.
  unfold Re.sub_class_empty. apply filter_ext. intros c.
  unfold PaddleOcrReader.cls_not_AZ09. now rewrite negb_involutive.
Qed.

(** C5: for every raw string, whatever the interpreter's Unicode tables
    outside ASCII, [_normalize_plate_text] returns what the four rules
    give on the upper-cased string stripped of everything outside
    [[A-Z0-9]]: the cleaned string when it has two letters, two digits,
    one or two letters and four digits; else the cleaned string when its
    length is 8 to 10; else "UNKNOWN" when its length is under 5; else
    the cleaned string.  "mh 01-ab 1234" gives "MH01AB1234", "X" gives
    "UNKNOWN", and "ABC123456789XYZ" comes back as it is. *)
Theorem normalize_plate_text_rules (upper_nonascii : N -> list N)
  (decimal_nonascii : N -> bool) :
  let normalize :=
    PaddleOcrReader._normalize_plate_text upper_nonascii decimal_nonascii in
  (forall text : str,
     normalize text
     = normalize_spec (PaddleOcrReader.upper upper_nonascii) text)
  /\ normalize (lit "mh 01-ab 1234") = lit "MH01AB1234"
  /\ normalize (lit "X") = lit "UNKNOWN"
  /\ normalize (lit "ABC123456789XYZ") = lit "ABC123456789XYZ".
Proof.
  intros normalize. split; [|repeat split; reflexivity].
  intros text. unfold normalize, PaddleOcrReader._normalize_plate_text,
    normalize_spec.
  destruct text as [|c text]; [reflexivity|].
  rewrite sub_is_filter.
  rewrite (pattern_is_grammar decimal_nonascii) by apply filter_AZ09_clean.
  reflexivity.
Qed.

(** ** Fine policy *)

(** C6: [compute_fine] returns the configured first-offense amount when
    the history lookup reports 0 prior violations for the vehicle and the
    configured repeat-offense amount when it reports a count above 0; the
    violation type does not matter; and two calls for which the lookup
    reports the same count for the vehicle return the same amount. *)
Theorem compute_fine_by_history (FIRST_OFFENSE_FINE REPEAT_OFFENSE_FINE : Z)
  (DatabaseManager : Type)
  (count_previous_violations : DatabaseManager -> str -> Z)
  (v t : str) (h : DatabaseManager) :
  let computeFine :=
    Rules.compute_fine FIRST_OFFENSE_FINE REPEAT_OFFENSE_FINE DatabaseManager
      count_previous_violations in
  (count_previous_violations h v = 0 ->
   computeFine v t h = FIRST_OFFENSE_FINE)
  /\ (count_previous_violations h v > 0 ->
      computeFine v t h = REPEAT_OFFENSE_FINE)
  /\ (forall t', computeFine v t' h = computeFine v t h)
  /\ (forall t' h',
        count_previous_violations h' v = count_previous_violations h v ->
        computeFine v t' h' = computeFine v t h).
Proof.
  intros computeFine. unfold computeFine, Rules.compute_fine.
  split; [|split; [|split]].
  - intros ->. reflexivity.
  - intros H. destruct (Z.eqb_spec (count_previous_violations h v) 0); auto.
    lia.
  - reflexivity.
  - intros t' h' ->. reflexivity.
Qed.

Lemma compute_fine_by_history_witness :
  let history : (str -> Z) -> str -> Z := fun h v => h v in
  Rules.compute_fine 500 1000 (str -> Z) history
    (lit "KA05MN1234") (lit "helmet_violation") (fun _ => 0) = 500
  /\ Rules.compute_fine 500 1000 (str -> Z) history
       (lit "KA05MN1234") (lit "triple_riding") (fun _ => 2) = 1000
  /\ Rules.compute_fine 500 1000 (str -> Z) history
       (lit "KA05MN1234") (lit "triple_riding")
       (fun v => if PyStr.eqb v (lit "KA05MN1234") then 2 else 0)
     = Rules.compute_fine 500 1000 (str -> Z) history
         (lit "KA05MN1234") (lit "helmet_violation") (fun _ => 2).
Proof.
  intros history. split; [|split].
  - apply (proj1 (compute_fine_by_history 500 1000 (str -> Z) history
                    (lit "KA05MN1234") (lit "helmet_violation") (fun _ => 0))).
    reflexivity.
  - apply (proj1 (proj2 (compute_fine_by_history 500 1000 (str -> Z) history
                    (lit "KA05MN1234") (lit "triple_riding") (fun _ => 2)))).
    reflexivity.
  - apply (proj2 (proj2 (proj2
             (compute_fine_by_history 500 1000 (str -> Z) history
                (lit "KA05MN1234") (lit "helmet_violation") (fun _ => 2))))).
    reflexivity.
Defined.

(** ** Running totals *)

Lemma fold_left_sum {A : Type} (f : A -> Z) (l : list A) (init : Z) :
  fold_left (fun total v => total + f v) l init = init + sumZ (map f l).
Proof.
  revert init; induction l as [|x l IH]; intros init; cbn [fold_left map sumZ fold_right].
  - lia.
  - rewrite IH. unfold sumZ. lia.
Qed.

Lemma add_fine_amount (total : Z) (vtype : option str) :
  App.add_fine total vtype = total + app_amount vtype.
Proof.
  unfold App.add_fine, app_amount. destruct vtype as [t|]; [|lia].
  destruct (PyStr.eqb t (lit "helmet_violation")); [reflexivity|].
  destruct (PyStr.eqb t (lit "triple_riding")); [reflexivity|lia].
Qed.

Section RunningTotals.

Variable V : Type.
Variable get_type : V -> option str.

Lemma image_total_sum (violations : list V) :
  App.image_total_fine V get_type violations
  = sumZ (map (fun v => app_amount (get_type v)) violations).
Proof.
  unfold App.image_total_fine.
  rewrite (fold_left_ext_list _
             (fun total v => total + app_amount (get_type v)))
    by (intros; apply add_fine_amount).
  now rewrite fold_left_sum.
Qed.

Lemma frame_total_none (violations : list V) :
  App.frame_total_fine V get_type None violations = None.
Proof.
  unfold App.frame_total_fine.
  induction violations as [|v l IH]; cbn [fold_left]; auto.
Qed.

Lemma frame_total_sum (violations : list V) (n : Z) :
  App.frame_total_fine V get_type (Some n) violations
  = if forallb (has_type get_type) violations
    then Some (n + sumZ (map (fun v => app_amount (get_type v)) violations))
    else None.
Proof.
  revert n; induction violations as [|v l IH]; intros n.
  - cbn. f_equal. lia.
  - unfold App.frame_total_fine in *. cbn [fold_left forallb map].
    unfold Spec.has_type at 1.
    destruct (get_type v) as [t|] eqn:T.
    + rewrite IH. cbn [andb]. destruct (forallb (has_type get_type) l); auto.
      rewrite add_fine_amount. cbn [sumZ fold_right]. f_equal.
      unfold sumZ. lia.
    + apply frame_total_none.
Qed.

Lemma video_total_from
  (timeline : list (VideoProcessor.violation_info V)) (total : option Z) :
  fold_left
    (fun total frame_data =>
       App.frame_total_fine V get_type total
         (VideoProcessor.vi_violations frame_data))
    timeline total
  = match total with
    | None => None
    | Some n =>
        if forallb
             (fun frame_data =>
                forallb (has_type get_type) (VideoProcessor.vi_violations frame_data))
             timeline
        then Some (n + sumZ (map
                     (fun frame_data =>
                        sumZ (map (fun v => app_amount (get_type v))
                                (VideoProcessor.vi_violations frame_data)))
                     timeline))
        else None
    end.
Proof.
  revert total; induction timeline as [|fd l IH]; intros total.
  - destruct total; cbn; auto. f_equal. lia.
  - cbn [fold_left forallb map]. rewrite IH.
    destruct total as [n|]; [|now rewrite frame_total_none].
    rewrite frame_total_sum.
    destruct (forallb (has_type get_type) (VideoProcessor.vi_violations fd)); auto.
    cbn [andb]. destruct (forallb _ l); auto.
    cbn [sumZ fold_right]. f_equal. unfold sumZ. lia.
Qed.

End RunningTotals.

Lemma str_eqb_sym (a b : str) : PyStr.eqb a b = PyStr.eqb b a.
Proof.
  destruct (PyStr.eqb a b) eqn:E, (PyStr.eqb b a) eqn:F; auto.
  - apply str_eqb_eq in E. subst. rewrite str_eqb_refl in F. discriminate.
  - apply str_eqb_eq in F. subst. rewrite str_eqb_refl in E. discriminate.
Qed.

Lemma pdf_total_sum (violations : list (option str)) :
  EnhancedPdf.total_fine violations = sumZ (map pdf_amount violations).
Proof.
  unfold EnhancedPdf.total_fine.
  rewrite (fold_left_ext_list _ (fun total v => total + pdf_amount v)).
  - now rewrite fold_left_sum.
  - intros a [t|]; [|reflexivity]. f_equal.
    unfold pdf_amount, EnhancedPdf.FINES. cbn [EnhancedPdf.dict_get].
    rewrite !(str_eqb_sym _ t). reflexivity.
Qed.

(** ** Timestamps of the timeline *)

Section Timeline.

Variable frame : Type.
Variable V : Type.
Variable detect_violations : frame -> list V.

Lemma loop_body_entries (fps frame_skip : Z)
  (st : VideoProcessor.loop_state V) (f : frame) :
  Forall (entry_ok fps frame_skip) (VideoProcessor.violations_timeline st) ->
  Forall (entry_ok fps frame_skip)
    (VideoProcessor.violations_timeline
       (VideoProcessor.loop_body frame V detect_violations fps frame_skip
          st f)).
Proof.
  intros F. unfold VideoProcessor.loop_body.
  destruct (Z.eqb_spec (VideoProcessor.frame_idx st mod frame_skip) 0)
    as [M|M]; cbn [negb]; [|exact F].
  destruct (detect_violations f) as [|v vs] eqn:D; [exact F|].
  cbn [VideoProcessor.violations_timeline].
  apply Forall_app. split; [exact F|].
  constructor; [|constructor].
  repeat split; auto. cbn. discriminate.
Qed.

Lemma loop_entries (fps frame_skip : Z) (frames : list frame)
  (st : VideoProcessor.loop_state V) :
  Forall (entry_ok fps frame_skip) (VideoProcessor.violations_timeline st) ->
  Forall (entry_ok fps frame_skip)
    (VideoProcessor.violations_timeline
       (fold_left
          (VideoProcessor.loop_body frame V detect_violations fps frame_skip)
          frames st)).
Proof.
  revert st; induction frames as [|f frames IH]; intros st F;
    cbn [fold_left]; auto.
  apply IH. now apply loop_body_entries.
Qed.

Lemma process_video_entries (frame_skip : Z) (reported_fps : Q)
  (frames : list frame) :
  frame_skip <> 0 ->
  exists st,
    VideoProcessor.process_video frame V detect_violations frame_skip
      reported_fps frames = Some st
    /\ Forall (entry_ok (Py.int_of_float reported_fps) frame_skip)
         (VideoProcessor.violations_timeline st).
Proof.
  intros H. unfold VideoProcessor.process_video.
  destruct (Z.eqb_spec frame_skip 0); [contradiction|].
  eexists. split; [reflexivity|].
  apply loop_entries. constructor.
Qed.

End Timeline.

Lemma int_of_float_inject (n : Z) : Py.int_of_float (inject_Z n) = n.
Proof. unfold Py.int_of_float. cbn. apply Z.quot_1_r. Qed.

Lemma Qgtb_inject (n : Z) : Py.Qgtb (inject_Z n) 0 = (0 <? n).
Proof.
  destruct (0 <? n) eqn:E.
  - apply Qgtb_zero. apply Z.ltb_lt in E.
    unfold Qlt. cbn. lia.
  - destruct (Py.Qgtb (inject_Z n) 0) eqn:G; auto.
    apply Qgtb_zero in G. apply Z.ltb_ge in E.
    unfold Qlt in G. cbn in G. lia.
Qed.

(** C8, as stated, fails twice: for a reported fps of 29.97 the video
    processor divides the frame index 30 by 29, and for a reported fps of
    0 the worker's division raises on its first sampled frame. *)
Lemma timestamp_claim_fails :
  option_map
    (fun st =>
       map (fun e => (VideoProcessor.frame_number e,
                      VideoProcessor.timestamp_seconds e))
         (VideoProcessor.violations_timeline st))
    (VideoProcessor.process_video (list nat) nat (fun f => f) 30
       (2997 # 100) Examples.clip)
  = Some [(30, 30 # 29)]
  /\ ~ (30 # 29 == claimed_timestamp (2997 # 100) 30)%Q
  /\ Worker.process_video 30 0 30 = None.
Proof.
  split; [reflexivity|]. split; [|reflexivity].
  vm_compute. discriminate.
Qed.

(** C8, amended: the video processor never fails to compute a timestamp
    (for a non-zero stride), and every timeline entry, of frame index
    [i], has the timestamp [i] divided by the reported fps truncated to an
    integer when that integer is above 0, and [i] itself otherwise; for a
    whole-number fps this is the frame index over the reported fps when
    that is above 0 and the frame index itself when it is zero or below.
    The worker's timestamp is the frame count over the reported fps
    whenever that fps is not zero. *)
Theorem timestamp_of_entries (frame V : Type)
  (detect_violations : frame -> list V)
  (frame_skip : Z) (reported_fps : Q) (frames : list frame) :
  frame_skip <> 0 ->
  (exists st,
     VideoProcessor.process_video frame V detect_violations frame_skip
       reported_fps frames = Some st
     /\ Forall
          (fun entry =>
             let fps := Py.int_of_float reported_fps in
             let i := VideoProcessor.frame_number entry in
             VideoProcessor.timestamp_seconds entry
             = (if 0 <? fps then (inject_Z i / inject_Z fps)%Q
                else inject_Z i)
             /\ i mod frame_skip = 0)
          (VideoProcessor.violations_timeline st))
  /\ (forall n i : Z,
        VideoProcessor.timestamp_sec (Py.int_of_float (inject_Z n)) i
        = claimed_timestamp (inject_Z n) i)
  /\ (forall (fps : Q) (frame_count : Z),
        ~ (fps == 0)%Q ->
        Worker.timestamp fps frame_count
        = Some (inject_Z frame_count / fps)%Q).
Proof.
  intros H. split; [|split].
  - destruct (process_video_entries frame V detect_violations frame_skip
                reported_fps frames H) as (st & E & F).
    exists st. split; [exact E|].
    eapply Forall_weaken; [|exact F].
    intros entry (T & M & _). cbv zeta. split; [exact T | exact M].
  - intros n i. rewrite int_of_float_inject.
    unfold VideoProcessor.timestamp_sec, claimed_timestamp.
    now rewrite Qgtb_inject.
  - intros fps frame_count N. unfold Worker.timestamp, Py.truediv.
    destruct (Qeq_bool fps 0) eqn:E; auto.
    apply Qeq_bool_iff in E. contradiction.
Qed.

Lemma timestamp_of_entries_witness :
  exists st,
    VideoProcessor.process_video (list nat) nat (fun f => f) 30
      (30 # 1) Examples.clip = Some st
    /\ map (fun e => VideoProcessor.timestamp_seconds e)
         (VideoProcessor.violations_timeline st)
       = [30 # 30].
Proof.
  destruct (timestamp_of_entries (list nat) nat (fun f => f) 30 (30 # 1)
              Examples.clip) as ((st & E & _) & _).
  - discriminate.
  - exists st. split; [exact E|].
    vm_compute in E. inversion E. reflexivity.
Defined.

(** ** Intersection over union *)

Lemma inter_area_comm (a b : BBox) : inter_area a b = inter_area b a.
Proof.
  destruct a as [[[ax1 ay1] ax2] ay2], b as [[[bx1 by1] bx2] by2].
  unfold inter_area.
  now rewrite (Z.min_comm ax2), (Z.max_comm ax1), (Z.min_comm ay2),
    (Z.max_comm ay1).
Qed.

Lemma inter_area_self (a : BBox) : well_formed a -> inter_area a a = area a.
Proof.
  destruct a as [[[x1 y1] x2] y2]. unfold well_formed, inter_area, area.
  intros [Hx Hy].
  rewrite !Z.min_id, !Z.max_id, !Z.max_r by lia. reflexivity.
Qed.

Lemma inter_area_disjoint (a b : BBox) : disjoint a b -> inter_area a b = 0.
Proof.
  destruct a as [[[ax1 ay1] ax2] ay2], b as [[[bx1 by1] bx2] by2].
  unfold disjoint, inter_area.
  intros [H | [H | [H | H]]].
  - replace (Z.max 0 (Z.min ax2 bx2 - Z.max ax1 bx1)) with 0 by lia. lia.
  - replace (Z.max 0 (Z.min ax2 bx2 - Z.max ax1 bx1)) with 0 by lia. lia.
  - replace (Z.max 0 (Z.min ay2 by2 - Z.max ay1 by1)) with 0 by lia. lia.
  - replace (Z.max 0 (Z.min ay2 by2 - Z.max ay1 by1)) with 0 by lia. lia.
Qed.

Lemma inter_area_degenerate (a b : BBox) : area a = 0 -> inter_area a b = 0.
Proof.
  destruct a as [[[ax1 ay1] ax2] ay2], b as [[[bx1 by1] bx2] by2].
  unfold area, inter_area. intros H.
  apply Z.mul_eq_0 in H. destruct H as [H | H].
  - replace (Z.max 0 (Z.min ax2 bx2 - Z.max ax1 bx1)) with 0 by lia. lia.
  - replace (Z.max 0 (Z.min ay2 by2 - Z.max ay1 by1)) with 0 by lia. lia.
Qed.

Lemma iou_no_inter (a b : BBox) : inter_area a b = 0 -> (iou a b == 0)%Q.
Proof.
  intros H. unfold iou. rewrite H. unfold Qdiv. apply Qmult_0_l.
Qed.

Lemma iou_self_bounds (a : BBox) :
  well_formed a -> 0 < area a -> (1 - eps <= iou a a /\ iou a a <= 1)%Q.
Proof.
  intros W P. unfold iou. rewrite (inter_area_self a W).
  replace (area a + area a - area a) with (area a) by lia.
  assert (A : (1 <= inject_Z (area a))%Q).
  { change 1%Q with (inject_Z 1). rewrite <- Zle_Qle. lia. }
  unfold eps in *. split.
  - apply Qle_shift_div_l; lra.
  - apply Qle_shift_div_r; lra.
Qed.

(** C9: for well-formed boxes [A] and [B] (x1 <= x2, y1 <= y2), [iou] is
    symmetric; [iou(A, A)] is approximately 1.0, within the [1e-6] of the
    denominator, for a box of positive area; two disjoint boxes have IoU
    0; and a box of zero area has IoU 0 with every box, in either order
    and with itself, which is why the second clause is about boxes of
    positive area. *)
Theorem iou_properties (A B : BBox) :
  well_formed A -> well_formed B ->
  iou A B = iou B A
  /\ (0 < area A -> approx_one (iou A A))
  /\ (disjoint A B -> (iou A B == 0)%Q)
  /\ (area A = 0 ->
      (iou A B == 0)%Q /\ (iou B A == 0)%Q /\ (iou A A == 0)%Q).
Proof.
  intros WA WB. split; [|split; [|split]].
  - unfold iou. rewrite (inter_area_comm A B), (Z.add_comm (area A)).
    reflexivity.
  - intros P. destruct (iou_self_bounds A WA P) as [L U].
    unfold approx_one. apply Qabs_Qle_condition. unfold eps in *.
    split; lra.
  - intros D. now apply iou_no_inter, inter_area_disjoint.
  - intros Z. split; [|split]; apply iou_no_inter.
    + now apply inter_area_degenerate.
    + rewrite inter_area_comm. now apply inter_area_degenerate.
    + now apply inter_area_degenerate.
Qed.

Lemma iou_properties_witness :
  approx_one (iou Examples.square Examples.square)
  /\ (iou Examples.square Examples.far_square == 0)%Q
  /\ (iou Examples.thin Examples.square == 0)%Q.
Proof.
  split; [|split].
  - apply (proj1 (proj2 (iou_properties Examples.square Examples.square
                           ltac:(cbn; lia) ltac:(cbn; lia)))).
    reflexivity.
  - apply (proj1 (proj2 (proj2
              (iou_properties Examples.square Examples.far_square
                 ltac:(cbn; lia) ltac:(cbn; lia))))).
    cbn; lia.
  - apply (proj2 (proj2 (proj2
              (iou_properties Examples.thin Examples.square
                 ltac:(cbn; lia) ltac:(cbn; lia))))).
    reflexivity.
Defined.

(** ** Synthetic plate of the single-image pipeline *)

Lemma hex_digit_is_hex (n : Z) : 0 <= n < 16 -> is_hex (Md5.hex_digit n) = true.
Proof.
  intros H. unfold Md5.hex_digit, is_hex, Re.in_range.
  destruct (Z.ltb_spec n 10).
  - apply orb_true_iff. left. rewrite andb_true_iff, !N.leb_le. lia.
  - apply orb_true_iff. right. rewrite andb_true_iff, !N.leb_le. lia.
Qed.

Lemma hex_bytes_wf (bytes : list Z) :
  length (flat_map Md5.hex_byte bytes) = (2 * length bytes)%nat
  /\ Forall (fun c => is_hex c = true) (flat_map Md5.hex_byte bytes).
Proof.
  induction bytes as [|b bytes [IHl IHf]]; cbn [flat_map length].
  - split; [reflexivity | constructor].
  - split.
    + rewrite length_app, IHl. cbn. lia.
    + apply Forall_app. split; [|exact IHf].
      unfold Md5.hex_byte.
      repeat constructor; apply hex_digit_is_hex.
      * apply Z.mod_pos_bound. lia.
      * apply Z.mod_pos_bound. lia.
Qed.

Lemma le_bytes_length (n : nat) (x : Z) : length (Md5.le_bytes n x) = n.
Proof.
  revert x; induction n as [|n IH]; intros x; cbn; auto.
Qed.

Lemma hexdigest_wf (msg : list Z) :
  length (Md5.hexdigest msg) = 32%nat
  /\ Forall (fun c => is_hex c = true) (Md5.hexdigest msg).
Proof.
  unfold Md5.hexdigest.
  destruct (hex_bytes_wf (Md5.digest msg)) as [L F].
  split; [|exact F]. rewrite L. unfold Md5.digest.
  destruct (fold_left Md5.block _ Md5.init) as [[[a b] c] d].
  rewrite !length_app, !le_bytes_length. reflexivity.
Qed.

Lemma hex_value_some (c : N) :
  is_hex c = true -> exists d, PyFmt.hex_value c = Some d.
Proof.
  unfold is_hex, PyFmt.hex_value. intros H.
  destruct (Re.in_range 48 57 c); [eexists; reflexivity|].
  cbn [orb] in H. rewrite H. eexists; reflexivity.
Qed.

Lemma int16_from_some (s : str) (acc : N) :
  Forall (fun c => is_hex c = true) s ->
  exists v, PyFmt.int16_from acc s = Some v.
Proof.
  intros F; revert acc; induction F as [|c s Hc _ IH]; intros acc;
    cbn [PyFmt.int16_from].
  - eexists; reflexivity.
  - destruct (hex_value_some c Hc) as (d & ->). apply IH.
Qed.

Lemma Forall_firstn {A : Type} (P : A -> Prop) (n : nat) (l : list A) :
  Forall P l -> Forall P (firstn n l).
Proof.
  intros F. rewrite <- (firstn_skipn n l) in F.
  now apply Forall_app in F.
Qed.

Lemma Forall_skipn {A : Type} (P : A -> Prop) (n : nat) (l : list A) :
  Forall P l -> Forall P (skipn n l).
Proof.
  intros F. rewrite <- (firstn_skipn n l) in F.
  now apply Forall_app in F.
Qed.

(** [int(hash_val[i:j], 16)] succeeds on a slice inside a hexadecimal
    digest. *)
Lemma int16_slice (h : str) (i j : nat) :
  Forall (fun c => is_hex c = true) h ->
  (i < j <= length h)%nat ->
  exists v, PyFmt.int16 (PyFmt.slice i j h) = Some v.
Proof.
  intros F B. unfold PyFmt.int16.
  assert (L : length (PyFmt.slice i j h) = (j - i)%nat).
  { unfold PyFmt.slice. rewrite length_firstn, length_skipn. lia. }
  assert (Fs : Forall (fun c => is_hex c = true) (PyFmt.slice i j h)).
  { unfold PyFmt.slice. now apply Forall_firstn, Forall_skipn. }
  destruct (PyFmt.slice i j h) as [|c s] eqn:E.
  - cbn in L. lia.
  - now apply int16_from_some.
Qed.

Lemma format_2d (n : N) :
  (n < 51)%N -> is_digits 2 (PyFmt.format_0d 2 n) = true.
Proof.
  intros H.
  assert (A : forallb (fun k => is_digits 2 (PyFmt.format_0d 2 (N.of_nat k)))
                (seq 0 51) = true) by (vm_compute; reflexivity).
  rewrite forallb_forall in A.
  specialize (A (N.to_nat n)). rewrite N2Nat.id in A.
  apply A. apply in_seq. lia.
Qed.

Lemma format_4d (n : N) :
  (n < 10000)%N -> is_digits 4 (PyFmt.format_0d 4 n) = true.
Proof.
  intros H.
  assert (A : forallb (fun k => is_digits 4 (PyFmt.format_0d 4 (N.of_nat k)))
                (seq 0 (N.to_nat 10000)) = true) by (vm_compute; reflexivity).
  rewrite forallb_forall in A.
  specialize (A (N.to_nat n)). rewrite N2Nat.id in A.
  apply A. apply in_seq. lia.
Qed.

Lemma letter_of_mod (x : N) : is_letter (65 + x mod 26)%N = true.
Proof.
  unfold is_letter, Re.in_range. rewrite andb_true_iff, !N.leb_le.
  assert (H : (x mod 26 < 26)%N) by (apply N.mod_upper_bound; discriminate).
  revert H. generalize (x mod 26)%N. intros m H. lia.
Qed.

Lemma is_digits_2 (s : str) :
  is_digits 2 s = true ->
  exists d1 d2, s = [d1; d2] /\ is_digit d1 = true /\ is_digit d2 = true.
Proof.
  unfold is_digits. destruct s as [|d1 [|d2 [|d3 s]]]; try discriminate.
  cbn. rewrite !andb_true_iff. intros (? & ? & _). eauto.
Qed.

Lemma is_digits_4 (s : str) :
  is_digits 4 s = true ->
  exists n1 n2 n3 n4,
    s = [n1; n2; n3; n4]
    /\ is_digit n1 = true /\ is_digit n2 = true
    /\ is_digit n3 = true /\ is_digit n4 = true.
Proof.
  unfold is_digits.
  destruct s as [|n1 [|n2 [|n3 [|n4 [|n5 s]]]]]; try discriminate.
  cbn. rewrite !andb_true_iff. intros (? & ? & ? & ? & _).
  exists n1, n2, n3, n4. auto.
Qed.

Lemma state_code_of (s : N) :
  exists s1 s2,
    nth (N.to_nat (s mod N.of_nat (length App.state_codes)))
      App.state_codes [] = [s1; s2]
    /\ existsb (PyStr.eqb [s1; s2]) App.state_codes = true.
Proof.
  assert (B : (N.to_nat (s mod N.of_nat (length App.state_codes)) < 8)%nat).
  { change (N.of_nat (length App.state_codes)) with 8%N.
    assert (U : (s mod 8 < 8)%N) by (apply N.mod_upper_bound; discriminate).
    revert U. generalize (s mod 8)%N. intros m U. lia. }
  destruct (N.to_nat (s mod N.of_nat (length App.state_codes)))
    as [|[|[|[|[|[|[|[|k]]]]]]]]; try lia;
    do 2 eexists; split; reflexivity.
Qed.

(** The plate built from a hexadecimal digest always exists and has the
    shape of a plate. *)
Lemma synthetic_plate_wf (h : str) :
  length h = 32%nat ->
  Forall (fun c => is_hex c = true) h ->
  exists plate,
    App.synthetic_plate h = Some plate /\ is_synthetic_plate plate = true.
Proof.
  intros L F. unfold App.synthetic_plate.
  destruct (int16_slice h 0 2 F) as (s & ->); [lia|].
  destruct (int16_slice h 2 4 F) as (d & ->); [lia|].
  destruct (int16_slice h 4 6 F) as (l1 & ->); [lia|].
  destruct (int16_slice h 6 8 F) as (l2 & ->); [lia|].
  destruct (int16_slice h 8 12 F) as (n & ->); [lia|].
  eexists. split; [reflexivity|].
  destruct (state_code_of s) as (s1 & s2 & -> & S).
  destruct (is_digits_2 (PyFmt.format_0d 2 (d mod 50 + 1)%N))
    as (d1 & d2 & -> & D1 & D2).
  { apply format_2d.
    assert (H : (d mod 50 < 50)%N) by (apply N.mod_upper_bound; discriminate).
    revert H. generalize (d mod 50)%N. intros m H. lia. }
  destruct (is_digits_4 (PyFmt.format_0d 4 (n mod 10000)%N))
    as (n1 & n2 & n3 & n4 & -> & N1 & N2 & N3 & N4).
  { apply format_4d. apply N.mod_upper_bound. discriminate. }
  cbn [app is_synthetic_plate].
  now rewrite S, D1, D2, N1, N2, N3, N4, !letter_of_mod.
Qed.

Lemma synthetic_not_unknown (plate : str) :
  is_synthetic_plate plate = true -> plate <> lit "UNKNOWN".
Proof. intros H ->. discriminate H. Qed.

(** The digest function on the test suite of RFC 1321 and on the text
    of the dimensions of a 480 x 640 image, as [hashlib] computes it. *)
Lemma md5_test_vectors :
  Md5.hexdigest [] = lit "d41d8cd98f00b204e9800998ecf8427e"
  /\ Md5.hexdigest (App.encode (lit "a"))
     = lit "0cc175b9c0f1b6a831c399e269772661"
  /\ Md5.hexdigest (App.encode (lit "abc"))
     = lit "900150983cd24fb0d6963f7d28e17f72"
  /\ Md5.hexdigest (App.encode (lit "message digest"))
     = lit "f96b697d7cb7938d525a2f31aaf161d0"
  /\ Md5.hexdigest (App.encode (lit "(480, 640, 3)"))
     = lit "0a63dfe0bc366e9d4f0e2b781d8b2eea".
Proof. repeat split; vm_compute; reflexivity. Qed.

(** The plate of the code is the plate read off the digest's bytes. *)

Lemma lit_uint (u : Decimal.uint) :
  lit (NilEmpty.string_of_uint u) = PyFmt.uint_digits u.
Proof.
  induction u; cbn [NilEmpty.string_of_uint PyFmt.uint_digits]; auto;
    unfold lit in *; cbn [list_ascii_of_string map]; now rewrite IHu.
Qed.

Lemma lit_app (a b : string) : lit (a ++ b) = lit a ++ lit b.
Proof.
  unfold lit. induction a as [|c a IH];
    cbn [append list_ascii_of_string map app]; auto.
  now rewrite IH.
Qed.

Lemma str_shape_text (shape : N * N * N) :
  App.str_shape shape = shape_text shape.
Proof.
  destruct shape as [[h w] c]. unfold App.str_shape, shape_text.
  rewrite !lit_app, !lit_uint. unfold PyFmt.str_int.
  rewrite <- ?app_assoc. reflexivity.
Qed.

Lemma encode_bytes (s : str) : App.encode s = map Z.of_N s.
Proof. reflexivity. Qed.

Lemma le_bytes_range (n : nat) (x : Z) :
  Forall (fun b => 0 <= b < 256) (Md5.le_bytes n x).
Proof.
  revert x; induction n as [|n IH]; intros x; cbn [Md5.le_bytes];
    constructor; [apply Z.mod_pos_bound; lia | apply IH].
Qed.

Lemma digest_bytes (msg : list Z) :
  exists b0 b1 b2 b3 b4 b5 rest,
    Md5.digest msg = b0 :: b1 :: b2 :: b3 :: b4 :: b5 :: rest
    /\ Forall (fun b => 0 <= b < 256) [b0; b1; b2; b3; b4; b5].
Proof.
  unfold Md5.digest.
  destruct (fold_left Md5.block _ Md5.init) as [[[a b] c] d].
  cbn [Md5.le_bytes app].
  do 7 eexists. split; [reflexivity|].
  repeat constructor; apply Z.mod_pos_bound; lia.
Qed.

Lemma hex_byte_values (b : Z) :
  0 <= b < 256 ->
  exists x y dx dy,
    Md5.hex_byte b = [x; y]
    /\ PyFmt.hex_value x = Some dx /\ PyFmt.hex_value y = Some dy
    /\ (16 * dx + dy = Z.to_N b)%N.
Proof.
  intros H.
  assert (A : forallb (fun k => hex_byte_ok (Z.of_nat k)) (seq 0 256) = true)
    by (vm_compute; reflexivity).
  rewrite forallb_forall in A.
  specialize (A (Z.to_nat b)). rewrite Z2Nat.id in A by lia.
  assert (I : In (Z.to_nat b) (seq 0 256)) by (apply in_seq; lia).
  specialize (A I). unfold hex_byte_ok in A.
  unfold Md5.hex_byte in *. cbn [map] in A.
  destruct (PyFmt.hex_value (Md5.hex_digit (b / 16 mod 16))) as [dx|] eqn:X;
    [|discriminate].
  destruct (PyFmt.hex_value (Md5.hex_digit (b mod 16))) as [dy|] eqn:Y;
    [|discriminate].
  apply N.eqb_eq in A.
  exists (Md5.hex_digit (b / 16 mod 16)), (Md5.hex_digit (b mod 16)), dx, dy.
  split; [reflexivity|]. split; [assumption|]. split; [assumption|]. exact A.
Qed.

Lemma int16_hex_byte (b : Z) :
  0 <= b < 256 -> PyFmt.int16 (Md5.hex_byte b) = Some (Z.to_N b).
Proof.
  intros H.
  destruct (hex_byte_values b H) as (x & y & dx & dy & -> & X & Y & E).
  cbn [PyFmt.int16 PyFmt.int16_from]. rewrite X, Y. f_equal. lia.
Qed.

Lemma int16_hex_word (b c : Z) :
  0 <= b < 256 -> 0 <= c < 256 ->
  PyFmt.int16 (Md5.hex_byte b ++ Md5.hex_byte c)
  = Some (256 * Z.to_N b + Z.to_N c)%N.
Proof.
  intros Hb Hc.
  destruct (hex_byte_values b Hb)
    as (x & y & dx & dy & -> & X & Y & E).
  destruct (hex_byte_values c Hc)
    as (x' & y' & dx' & dy' & -> & X' & Y' & E').
  cbn [app PyFmt.int16 PyFmt.int16_from]. rewrite X, Y, X', Y'. f_equal. lia.
Qed.

Lemma format_2_digits_of (n : N) :
  (n < 100)%N ->
  PyFmt.format_0d 2 n = [(48 + n / 10)%N; (48 + n mod 10)%N].
Proof.
  intros H.
  assert (A : forallb
                (fun k =>
                   PyStr.eqb (PyFmt.format_0d 2 (N.of_nat k))
                     [(48 + N.of_nat k / 10)%N; (48 + N.of_nat k mod 10)%N])
                (seq 0 100) = true) by (vm_compute; reflexivity).
  rewrite forallb_forall in A.
  specialize (A (N.to_nat n)). rewrite N2Nat.id in A.
  apply str_eqb_eq, A, in_seq. lia.
Qed.

Lemma format_4_digits_of (n : N) :
  (n < 10000)%N ->
  PyFmt.format_0d 4 n
  = [(48 + n / 1000)%N; (48 + n / 100 mod 10)%N; (48 + n / 10 mod 10)%N;
     (48 + n mod 10)%N].
Proof.
  intros H.
  assert (A : forallb
                (fun k =>
                   let n := N.of_nat k in
                   PyStr.eqb (PyFmt.format_0d 4 n)
                     [(48 + n / 1000)%N; (48 + n / 100 mod 10)%N;
                      (48 + n / 10 mod 10)%N; (48 + n mod 10)%N])
                (seq 0 (N.to_nat 10000)) = true) by (vm_compute; reflexivity).
  rewrite forallb_forall in A.
  specialize (A (N.to_nat n)). cbv zeta in A. rewrite N2Nat.id in A.
  apply str_eqb_eq, A, in_seq. lia.
Qed.

Lemma synthetic_plate_of_digest (digest : list Z) :
  (6 <= length digest)%nat ->
  Forall (fun b => 0 <= b < 256) (firstn 6 digest) ->
  App.synthetic_plate (flat_map Md5.hex_byte digest)
  = Some (plate_of_digest (map Z.to_N digest)).
Proof.
  intros L F.
  destruct digest as [|b0 [|b1 [|b2 [|b3 [|b4 [|b5 rest]]]]]];
    cbn [length] in L; try lia.
  cbn [firstn] in F.
  inversion F as [|? ? R0 F1]; subst. inversion F1 as [|? ? R1 F2]; subst.
  inversion F2 as [|? ? R2 F3]; subst. inversion F3 as [|? ? R3 F4]; subst.
  inversion F4 as [|? ? R4 F5]; subst. inversion F5 as [|? ? R5 _]; subst.
  unfold App.synthetic_plate.
  set (hex := flat_map Md5.hex_byte
                (b0 :: b1 :: b2 :: b3 :: b4 :: b5 :: rest)).
  assert (S0 : PyFmt.slice 0 2 hex = Md5.hex_byte b0)
    by reflexivity.
  assert (S1 : PyFmt.slice 2 4 hex = Md5.hex_byte b1)
    by reflexivity.
  assert (S2 : PyFmt.slice 4 6 hex = Md5.hex_byte b2)
    by reflexivity.
  assert (S3 : PyFmt.slice 6 8 hex = Md5.hex_byte b3)
    by reflexivity.
  assert (S4 : PyFmt.slice 8 12 hex = Md5.hex_byte b4 ++ Md5.hex_byte b5)
    by reflexivity.
  rewrite S0, S1, S2, S3, S4.
  rewrite !int16_hex_byte, int16_hex_word by assumption.
  cbn [map plate_of_digest]. cbv zeta. f_equal.
  rewrite format_2_digits_of, format_4_digits_of.
  - reflexivity.
  - apply N.mod_upper_bound. discriminate.
  - assert (U : (Z.to_N b1 mod 50 < 50)%N)
      by (apply N.mod_upper_bound; discriminate).
    revert U. generalize (Z.to_N b1 mod 50)%N. intros m U. lia.
Qed.

Lemma synthetic_plate_of_shape (shape : N * N * N) :
  App.synthetic_plate (Md5.hexdigest (App.encode (App.str_shape shape)))
  = Some (shape_plate shape).
Proof.
  unfold Md5.hexdigest, shape_plate. rewrite str_shape_text.
  change (App.encode (shape_text shape)) with (map Z.of_N (shape_text shape)).
  destruct (digest_bytes (map Z.of_N (shape_text shape)))
    as (b0 & b1 & b2 & b3 & b4 & b5 & rest & E & F).
  rewrite E. apply synthetic_plate_of_digest.
  - cbn [length]. lia.
  - exact F.
Qed.

(** A frame with a violation is a vehicle image, on both detector
    paths. *)
Lemma fallback_from (areas : list Q) (st : list violation * Z) :
  0 <= snd st -> (fst st <> [] -> 0 < snd st) ->
  let st' := fold_left fallback_step areas st in
  0 <= snd st' /\ (fst st' <> [] -> 0 < snd st').
Proof.
  revert st; induction areas as [|a areas IH]; intros [vs n] P I;
    cbn [fold_left]; [auto|].
  apply IH; unfold fallback_step; cbn [fst snd] in *;
    destruct (Py.Qgtb a (inject_Z 2000) && Py.Qgtb (inject_Z 50000) a);
    try destruct (n + 1 <=? 2); cbn [fst snd]; try lia; auto.
  all: intros _; lia.
Qed.

Lemma violations_vehicle (run : detector_run) :
  violations (Detect.detect_violations run) <> [] ->
  is_vehicle_image (Detect.detect_violations run) = true.
Proof.
  destruct run as [mt boxes | areas]; cbn [Detect.detect_violations].
  - intros H.
    destruct (motorbike (md_bboxes (_yolo_advanced_detection mt boxes)))
      as [|b bs] eqn:B;
      [|cbn [_yolo_advanced_detection is_vehicle_image md_bboxes] in *;
        now rewrite B].
    destruct (person (md_bboxes (_yolo_advanced_detection mt boxes)))
      as [|p ps] eqn:P;
      [|cbn [_yolo_advanced_detection is_vehicle_image md_bboxes] in *;
        rewrite P; apply orb_true_r].
    exfalso. apply H.
    pose proof (detection_shape mt boxes) as S. cbv zeta in S.
    rewrite S, B. cbn [flat_map]. rewrite app_nil_r.
    destruct (is_custom mt) eqn:C; [|reflexivity].
    destruct mt; try discriminate.
    pose proof (custom_directs_in_persons boxes) as I.
    rewrite P in I.
    destruct (filter is_tanpahelm boxes) as [|bx l]; [reflexivity|].
    inversion I as [|? ? Bad _]. destruct Bad.
  - unfold _fallback_detection.
    pose proof (fallback_from areas ([], 0)) as F. cbv zeta in F.
    destruct (fold_left fallback_step areas ([], 0)) as [vs n].
    cbn [violations is_vehicle_image fst snd] in *.
    intros H. apply Z.ltb_lt. apply F; auto; try lia. intros X; now elim X.
Qed.

Lemma process_demo_image_synthetic (shape : N * N * N)
  (dr : AiDetector.detection_result) :
  AiDetector.is_vehicle_image dr = true ->
  AiDetector.violations dr <> [] ->
  fst (AiDetector.license_plate dr) = lit "UNKNOWN" ->
  exists r plate,
    App.process_demo_image shape dr = Some r
    /\ App.synthetic_plate (Md5.hexdigest (App.encode (App.str_shape shape)))
       = Some plate
    /\ App.license_plate r = plate
    /\ is_synthetic_plate plate = true
    /\ App.violations_found r = true.
Proof.
  intros Hv Hn Hp.
  destruct (hexdigest_wf (App.encode (App.str_shape shape))) as [L F].
  destruct (synthetic_plate_wf _ L F) as (plate & S & W).
  unfold App.process_demo_image. rewrite Hv, Hp, S. cbn [negb].
  change App.UNKNOWN with (lit "UNKNOWN"). rewrite str_eqb_refl.
  destruct (AiDetector.violations dr) as [|v vs]; [contradiction|].
  cbn [length Nat.ltb Nat.leb andb].
  eexists. exists plate. repeat split; auto.
Qed.

Lemma process_demo_image_known (shape : N * N * N)
  (dr : AiDetector.detection_result) (r : App.image_result) :
  App.process_demo_image shape dr = Some r ->
  App.violations_found r = true ->
  App.license_plate r <> lit "UNKNOWN".
Proof.
  unfold App.process_demo_image.
  destruct (AiDetector.is_vehicle_image dr); cbn [negb].
  - destruct (PyStr.eqb (fst (AiDetector.license_plate dr)) App.UNKNOWN
              && (0 <? length (AiDetector.violations dr))%nat) eqn:C.
    + destruct (hexdigest_wf (App.encode (App.str_shape shape))) as [L F].
      destruct (synthetic_plate_wf _ L F) as (plate & -> & W).
      intros E _. inversion E. cbn [App.license_plate].
      now apply synthetic_not_unknown.
    + intros E. inversion E. cbn [App.license_plate App.violations_found].
      intros Hf. rewrite Hf, andb_true_r in C.
      intros Bad. rewrite Bad in C.
      change App.UNKNOWN with (lit "UNKNOWN") in C.
      rewrite str_eqb_refl in C. discriminate.
  - intros E. inversion E. discriminate.
Qed.

(** C10: in the single-image pipeline, on either detector path, when at
    least one violation is found and the plate text is "UNKNOWN", the
    result is returned with the synthetic plate of the image's
    dimensions: the MD5 digest of the text "(h, w, c)" is taken, its
    first byte modulo 8 picks the state code, the second gives the
    two-digit district, the third and fourth the two letters, the fifth
    and sixth the four digits.  A result that reports violations never
    has the plate "UNKNOWN", and two such images of the same dimensions
    get the same plate.  For images of 480 x 640, 720 x 1280 and
    1080 x 1920 pixels in three channels the plates are KA50PQ8182,
    UP21LL1986 and AP08EK2110. *)
Theorem synthetic_plate_for_unknown (shape : N * N * N)
  (run : detector_run) (ocr : str * Q) :
  let dr := AiDetector.detect_violations (Detect.detect_violations run) ocr in
  (AiDetector.violations dr <> [] ->
   fst (AiDetector.license_plate dr) = lit "UNKNOWN" ->
   exists r,
     App.process_demo_image shape dr = Some r
     /\ App.license_plate r = shape_plate shape
     /\ is_synthetic_plate (shape_plate shape) = true
     /\ App.violations_found r = true)
  /\ (forall (dr0 : AiDetector.detection_result) (r : App.image_result),
        App.process_demo_image shape dr0 = Some r ->
        App.violations_found r = true ->
        App.license_plate r <> lit "UNKNOWN")
  /\ (forall (run' : detector_run) (ocr' : str * Q) r r',
        let dr' :=
          AiDetector.detect_violations (Detect.detect_violations run') ocr' in
        AiDetector.violations dr <> [] ->
        fst (AiDetector.license_plate dr) = lit "UNKNOWN" ->
        AiDetector.violations dr' <> [] ->
        fst (AiDetector.license_plate dr') = lit "UNKNOWN" ->
        App.process_demo_image shape dr = Some r ->
        App.process_demo_image shape dr' = Some r' ->
        App.license_plate r = App.license_plate r')
  /\ shape_plate (480, 640, 3)%N = lit "KA50PQ8182"
  /\ shape_plate (720, 1280, 3)%N = lit "UP21LL1986"
  /\ shape_plate (1080, 1920, 3)%N = lit "AP08EK2110".
Proof.
  assert (P : forall run0 ocr0,
            let dr0 :=
              AiDetector.detect_violations (Detect.detect_violations run0)
                ocr0 in
            AiDetector.violations dr0 <> [] ->
            fst (AiDetector.license_plate dr0) = lit "UNKNOWN" ->
            exists r,
              App.process_demo_image shape dr0 = Some r
              /\ App.license_plate r = shape_plate shape
              /\ is_synthetic_plate (shape_plate shape) = true
              /\ App.violations_found r = true).
  { intros run0 ocr0 dr0 Hn Hp.
    destruct (process_demo_image_synthetic shape dr0)
      as (r & plate & E & S & L & W & F); auto.
    - cbn [dr0 AiDetector.detect_violations AiDetector.is_vehicle_image].
      apply violations_vehicle. intros Z. apply Hn.
      cbn [dr0 AiDetector.detect_violations AiDetector.violations].
      now rewrite Z.
    - rewrite synthetic_plate_of_shape in S. injection S as <-.
      exists r. auto. }
  intros dr. split; [|split; [|split; [|split; [|split]]]].
  - apply P.
  - intros dr0 r. apply process_demo_image_known.
  - intros run' ocr' r r' dr' Hn Hp Hn' Hp' E E'.
    destruct (P run ocr Hn Hp) as (r0 & E0 & L & _).
    destruct (P run' ocr' Hn' Hp') as (r0' & E0' & L' & _).
    fold dr in E0. fold dr' in E0'.
    assert (r0 = r) by congruence. assert (r0' = r') by congruence.
    subst. congruence.
  - vm_compute. reflexivity.
  - vm_compute. reflexivity.
  - vm_compute. reflexivity.
Qed.

Lemma synthetic_plate_for_unknown_witness :
  option_map App.license_plate
    (App.process_demo_image (720, 1280, 3)%N
       (AiDetector.detect_violations
          (Detect.detect_violations (RunYolo yolov8n Examples.two_bikes))
          (lit "", 0%Q)))
  = Some (lit "UP21LL1986").
Proof.
  pose proof (synthetic_plate_for_unknown (720, 1280, 3)%N
                (RunYolo yolov8n Examples.two_bikes) (lit "", 0%Q)) as T.
  cbv zeta in T. destruct T as (T & _ & _ & _ & K & _).
  destruct T as (r & E & L & _).
  - vm_compute. discriminate.
  - reflexivity.
  - rewrite E. cbn [option_map]. rewrite L, K. reflexivity.
Defined.

(** ** Running totals against the flat table *)

Lemma known_amount (t : option str) :
  Props.known_type t = true ->
  app_amount t = claimed_amount t /\ pdf_amount t = claimed_amount t
  /\ has_type (fun v => v) t = true.
Proof.
  unfold Props.known_type, app_amount, pdf_amount, claimed_amount, has_type.
  destruct t as [t|]; [|discriminate].
  destruct (PyStr.eqb t (lit "helmet_violation")) eqn:H; [auto|].
  destruct (PyStr.eqb t (lit "triple_riding")) eqn:T; [|discriminate].
  apply str_eqb_eq in T. subst t. auto.
Qed.

Lemma unknown_amount (t : option str) :
  t <> Some (lit "no_helmet") -> pdf_amount t = claimed_amount t.
Proof.
  unfold pdf_amount, claimed_amount. destruct t as [t|]; [|reflexivity].
  intros N. destruct (PyStr.eqb t (lit "helmet_violation")); [reflexivity|].
  destruct (PyStr.eqb t (lit "no_helmet")) eqn:E.
  - apply str_eqb_eq in E. subst t. contradiction.
  - destruct (PyStr.eqb t (lit "triple_riding")); reflexivity.
Qed.

Lemma sumZ_map_ext {A : Type} (f g : A -> Z) (l : list A) :
  Forall (fun x => f x = g x) l -> sumZ (map f l) = sumZ (map g l).
Proof.
  induction 1 as [|x l E _ IH]; cbn [map sumZ fold_right]; [reflexivity|].
  unfold sumZ in IH. now rewrite E, IH.
Qed.

Lemma vtype_known (v : violation) : Props.known_type (Some (vtype v)) = true.
Proof. destruct v; reflexivity. Qed.

Lemma formatted_known (v : violation) :
  Props.known_type (Some (AiDetector.type (AiDetector.format_violation v)))
  = true.
Proof. destruct v; reflexivity. Qed.

Section KnownTypes.

Variable V : Type.
Variable get_type : V -> option str.

Lemma image_total_known (violations : list V) :
  forallb (fun v => Props.known_type (get_type v)) violations = true ->
  App.image_total_fine V get_type violations
  = sumZ (map (fun v => claimed_amount (get_type v)) violations).
Proof.
  intros K. rewrite image_total_sum. apply sumZ_map_ext.
  apply Forall_forall. intros v Hv.
  rewrite forallb_forall in K. now apply known_amount, K.
Qed.

Lemma pdf_total_known (violations : list V) :
  forallb (fun v => Props.known_type (get_type v)) violations = true ->
  EnhancedPdf.total_fine (map get_type violations)
  = sumZ (map (fun v => claimed_amount (get_type v)) violations).
Proof.
  intros K. rewrite pdf_total_sum, map_map. apply sumZ_map_ext.
  apply Forall_forall. intros v Hv.
  rewrite forallb_forall in K. now apply known_amount, K.
Qed.

Lemma known_has_type (violations : list V) :
  forallb (fun v => Props.known_type (get_type v)) violations = true ->
  forallb (has_type get_type) violations = true.
Proof.
  rewrite !forallb_forall. intros K v Hv.
  destruct (known_amount (get_type v) (K v Hv)) as (_ & _ & H). exact H.
Qed.

Lemma video_total_known
  (timeline : list (VideoProcessor.violation_info V)) :
  forallb
    (fun frame_data =>
       forallb (fun v => Props.known_type (get_type v))
         (VideoProcessor.vi_violations frame_data))
    timeline = true ->
  App.video_total_fine V get_type timeline
  = Some (sumZ (map
            (fun frame_data =>
               sumZ (map (fun v => claimed_amount (get_type v))
                       (VideoProcessor.vi_violations frame_data)))
            timeline)).
Proof.
  intros K. unfold App.video_total_fine. rewrite video_total_from.
  rewrite forallb_forall in K.
  replace (forallb _ timeline) with true.
  - rewrite Z.add_0_l. f_equal. apply sumZ_map_ext.
    apply Forall_forall. intros fd Hfd. apply sumZ_map_ext.
    apply Forall_forall. intros v Hv.
    specialize (K fd Hfd). rewrite forallb_forall in K.
    now apply known_amount, K.
  - symmetry. apply forallb_forall. intros fd Hfd.
    now apply known_has_type, K.
Qed.

End KnownTypes.

Lemma forallb_all {A : Type} (f : A -> bool) (l : list A) :
  (forall x, f x = true) -> forallb f l = true.
Proof. intros H. apply forallb_forall. intros x _. apply H. Qed.

(** The result of the single-image pipeline on a detector run. *)
Lemma detector_image_result (shape : N * N * N) (run : detector_run)
  (ocr : str * Q) :
  exists r,
    App.process_demo_image shape
      (AiDetector.detect_violations (Detect.detect_violations run) ocr)
    = Some r
    /\ App.violations r
       = map AiDetector.format_violation
           (violations (Detect.detect_violations run))
    /\ App.total_fine r
       = App.image_total_fine AiDetector.formatted_violation
           (fun v => Some (AiDetector.type v)) (App.violations r).
Proof.
  set (md := Detect.detect_violations run).
  unfold App.process_demo_image.
  cbn [AiDetector.detect_violations AiDetector.is_vehicle_image
       AiDetector.violations AiDetector.license_plate].
  destruct (is_vehicle_image md) eqn:Hv; cbn [negb].
  - destruct (hexdigest_wf (App.encode (App.str_shape shape))) as [L F].
    destruct (synthetic_plate_wf _ L F) as (plate & S & _). rewrite S.
    match goal with
    | |- context [if ?c then Some plate else Some ?p] =>
        destruct c; eexists; (split; [reflexivity|])
    end; cbn [App.violations App.total_fine]; split; reflexivity.
  - assert (E : violations md = []).
    { destruct (violations md) eqn:X; auto.
      assert (N : violations (Detect.detect_violations run) <> [])
        by (fold md; rewrite X; discriminate).
      apply violations_vehicle in N. fold md in N. congruence. }
    rewrite E. eexists. split; [reflexivity|]. split; reflexivity.
Qed.

(** C7: the running total of a processed image or video is the sum, over
    every violation of the frame's list or of every timeline entry, of
    the flat amount of its type: 500 for a helmet violation, 1000 for
    triple riding, 500 for any other type.  It holds on every output of
    the detector, for the image pipeline (where the total of the PDF
    report agrees with it) and for the timeline of a video, and for any
    violations whose types are the two the code emits.  The amount for
    another type is reached in the PDF report only, whose total is the
    sum of the table whenever no violation has the type "no_helmet". *)
Theorem running_total_flat_table :
  (forall (shape : N * N * N) (run : detector_run) (ocr : str * Q),
     exists r,
       App.process_demo_image shape
         (AiDetector.detect_violations (Detect.detect_violations run) ocr)
       = Some r
       /\ App.violations r
          = map AiDetector.format_violation
              (violations (Detect.detect_violations run))
       /\ App.total_fine r
          = sumZ (map (fun v => claimed_amount (Some (AiDetector.type v)))
                    (App.violations r))
       /\ EnhancedPdf.total_fine
            (map (fun v => Some (AiDetector.type v)) (App.violations r))
          = App.total_fine r)
  /\ (forall timeline : list (VideoProcessor.violation_info violation),
        App.video_total_fine violation (fun v => Some (vtype v)) timeline
        = Some (sumZ (map
                  (fun frame_data =>
                     sumZ (map (fun v => claimed_amount (Some (vtype v)))
                             (VideoProcessor.vi_violations frame_data)))
                  timeline)))
  /\ (forall (V : Type) (get_type : V -> option str) (violations : list V)
             (timeline : list (VideoProcessor.violation_info V)),
        forallb (fun v => Props.known_type (get_type v)) violations = true ->
        forallb
          (fun frame_data =>
             forallb (fun v => Props.known_type (get_type v))
               (VideoProcessor.vi_violations frame_data))
          timeline = true ->
        App.image_total_fine V get_type violations
        = sumZ (map (fun v => claimed_amount (get_type v)) violations)
        /\ App.video_total_fine V get_type timeline
           = Some (sumZ (map
                     (fun frame_data =>
                        sumZ (map (fun v => claimed_amount (get_type v))
                                (VideoProcessor.vi_violations frame_data)))
                     timeline))
        /\ EnhancedPdf.total_fine (map get_type violations)
           = sumZ (map (fun v => claimed_amount (get_type v)) violations))
  /\ (forall types : list (option str),
        ~ In (Some (lit "no_helmet")) types ->
        EnhancedPdf.total_fine types = sumZ (map claimed_amount types)).
Proof.
  split; [|split; [|split]].
  - intros shape run ocr.
    destruct (detector_image_result shape run ocr) as (r & E & Vs & T).
    exists r. split; [exact E|]. split; [exact Vs|].
    assert (K : forallb
                  (fun v => Props.known_type (Some (AiDetector.type v)))
                  (App.violations r) = true).
    { rewrite Vs. apply forallb_forall. intros v Hv.
      apply in_map_iff in Hv. destruct Hv as (v0 & <- & _).
      apply formatted_known. }
    split.
    + rewrite T. now apply image_total_known.
    + rewrite T, (image_total_known _ _ _ K).
      now apply (pdf_total_known AiDetector.formatted_violation
                   (fun v => Some (AiDetector.type v))).
  - intros timeline. apply video_total_known.
    apply forallb_all. intros fd. apply forallb_all. apply vtype_known.
  - intros V get_type violations timeline K1 K2. split; [|split].
    + now apply image_total_known.
    + now apply video_total_known.
    + now apply pdf_total_known.
  - intros types N. rewrite pdf_total_sum. apply sumZ_map_ext.
    apply Forall_forall. intros t Ht. apply unknown_amount.
    intros ->. contradiction.
Qed.

Lemma running_total_flat_table_witness :
  App.image_total_fine (option str) (fun v => v) Examples.simulated_types
  = 1500
  /\ App.video_total_fine (option str) (fun v => v)
       Examples.simulated_timeline = Some 2000
  /\ EnhancedPdf.total_fine [Some (lit "wrong_lane"); None] = 1000.
Proof.
  destruct (proj1 (proj2 (proj2 running_total_flat_table))
              (option str) (fun v => v) Examples.simulated_types
              Examples.simulated_timeline eq_refl eq_refl) as (I & T & _).
  split; [|split].
  - rewrite I. reflexivity.
  - rewrite T. reflexivity.
  - rewrite (proj2 (proj2 (proj2 running_total_flat_table))
               [Some (lit "wrong_lane"); None]).
    + reflexivity.
    + intros [H | [H | []]]; discriminate.
Defined.

(** * Further properties of the code *)

Import Props.

(** ** Geometry *)

Lemma inter_area_bounds (a b : BBox) :
  well_formed a -> well_formed b ->
  0 <= inter_area a b /\ inter_area a b <= area a
  /\ inter_area a b <= area b.
Proof.
  destruct a as [[[ax1 ay1] ax2] ay2], b as [[[bx1 by1] bx2] by2].
  unfold well_formed, inter_area, area. intros [Ax Ay] [Bx By].
  set (iw := Z.max 0 (Z.min ax2 bx2 - Z.max ax1 bx1)).
  set (ih := Z.max 0 (Z.min ay2 by2 - Z.max ay1 by1)).
  assert (0 <= iw <= ax2 - ax1) by (unfold iw; lia).
  assert (iw <= bx2 - bx1) by (unfold iw; lia).
  assert (0 <= ih <= ay2 - ay1) by (unfold ih; lia).
  assert (ih <= by2 - by1) by (unfold ih; lia).
  repeat split; nia.
Qed.

Lemma inter_area_pos (a b : BBox) :
  0 < inter_area a b <-> strict_overlap a b.
Proof.
  destruct a as [[[ax1 ay1] ax2] ay2], b as [[[bx1 by1] bx2] by2].
  unfold inter_area, strict_overlap.
  set (dw := Z.min ax2 bx2 - Z.max ax1 bx1).
  set (dh := Z.min ay2 by2 - Z.max ay1 by1).
  assert (E : (Z.max ax1 bx1 < Z.min ax2 bx2
               /\ Z.max ay1 by1 < Z.min ay2 by2) <-> (0 < dw /\ 0 < dh))
    by (unfold dw, dh; lia).
  rewrite E. clearbody dw dh. split.
  - intros H. destruct (Z.max_spec 0 dw) as [[? Hw] | [? Hw]],
      (Z.max_spec 0 dh) as [[? Hh] | [? Hh]]; rewrite Hw, Hh in H; nia.
  - intros [Hw Hh]. rewrite !Z.max_r by lia. nia.
Qed.

Lemma union_pos (a b : BBox) :
  well_formed a -> well_formed b ->
  (0 < inject_Z (area a + area b - inter_area a b) + eps)%Q
  /\ (inject_Z (inter_area a b)
      < inject_Z (area a + area b - inter_area a b) + eps)%Q.
Proof.
  intros Wa Wb. destruct (inter_area_bounds a b Wa Wb) as (I0 & Ia & Ib).
  assert (U : (inject_Z (inter_area a b)
               <= inject_Z (area a + area b - inter_area a b))%Q)
    by (rewrite <- Zle_Qle; lia).
  assert (P : (0 <= inject_Z (inter_area a b))%Q)
    by (change 0%Q with (inject_Z 0); rewrite <- Zle_Qle; lia).
  unfold eps. split; lra.
Qed.

(** X1: for well-formed boxes (x1 <= x2, y1 <= y2) the IoU lies between
    0 and 1, both included. *)
Theorem iou_range (A B : BBox) :
  well_formed A -> well_formed B -> (0 <= iou A B)%Q /\ (iou A B <= 1)%Q.
Proof.
  intros Wa Wb. destruct (union_pos A B Wa Wb) as [U L].
  destruct (inter_area_bounds A B Wa Wb) as (I0 & _).
  assert (P : (0 <= inject_Z (inter_area A B))%Q)
    by (change 0%Q with (inject_Z 0); rewrite <- Zle_Qle; lia).
  unfold iou. split.
  - apply Qle_shift_div_l; [exact U | lra].
  - apply Qle_shift_div_r; [exact U | lra].
Qed.

Lemma iou_range_witness :
  (0 <= iou Examples.square Examples.shifted_square)%Q
  /\ (iou Examples.square Examples.shifted_square <= 1)%Q.
Proof.
  apply (iou_range Examples.square Examples.shifted_square); cbn; lia.
Defined.

Lemma iou_pos_iff (a b : BBox) :
  well_formed a -> well_formed b ->
  (0 < iou a b)%Q <-> strict_overlap a b.
Proof.
  intros Wa Wb. destruct (union_pos a b Wa Wb) as [U _].
  rewrite <- inter_area_pos. unfold iou. split.
  - intros H. destruct (Z_lt_le_dec 0 (inter_area a b)) as [|N]; auto.
    exfalso. destruct (inter_area_bounds a b Wa Wb) as (I0 & _).
    assert (E : inter_area a b = 0) by lia. rewrite E in H.
    unfold Qdiv in H. rewrite Qmult_0_l in H. now apply Qlt_irrefl in H.
  - intros H. apply Qlt_shift_div_l; [exact U|].
    rewrite Qmult_0_l. change 0%Q with (inject_Z 0). now rewrite <- Zlt_Qlt.
Qed.

(** X2: for well-formed boxes the IoU is positive exactly when the boxes
    overlap on a region of positive area; boxes that only touch along an
    edge or at a corner have IoU 0. *)
Theorem iou_positive_iff_overlap (A B : BBox) :
  well_formed A -> well_formed B ->
  ((0 < iou A B)%Q <-> strict_overlap A B)
  /\ (~ strict_overlap A B -> (iou A B == 0)%Q).
Proof.
  intros Wa Wb. split; [now apply iou_pos_iff|].
  intros N. apply iou_no_inter.
  destruct (inter_area_bounds A B Wa Wb) as (I0 & _).
  destruct (Z_lt_le_dec 0 (inter_area A B)) as [P|]; [|lia].
  apply inter_area_pos in P. contradiction.
Qed.

Lemma iou_positive_iff_overlap_witness :
  (0 < iou Examples.square Examples.shifted_square)%Q.
Proof.
  apply (proj1 (iou_positive_iff_overlap Examples.square
                  Examples.shifted_square ltac:(cbn; lia) ltac:(cbn; lia))).
  cbn. lia.
Defined.

Lemma head_region_y2 (x1 y1 x2 y2 : Z) :
  head_region (x1, y1, x2, y2)
  = (x1, y1, x2, Z.quot (y1 * 10 + 3 * (y2 - y1)) 10).
Proof.
  unfold head_region, head_region_ratio, Py.int_of_float. cbn.
  do 2 f_equal. f_equal; lia.
Qed.

Lemma head_region_facts (P : BBox) :
  well_formed P ->
  let '(x1, y1, x2, y2) := P in
  let '(hx1, hy1, hx2, hy2) := head_region P in
  well_formed (head_region P)
  /\ hx1 = x1 /\ hx2 = x2 /\ hy1 = y1
  /\ y1 <= hy2 <= y2
  /\ (0 <= y1 -> hy2 - y1 = 3 * (y2 - y1) / 10).
Proof.
  destruct P as [[[x1 y1] x2] y2]. intros [Wx Wy].
  rewrite head_region_y2. unfold well_formed.
  assert (B : y1 <= Z.quot (y1 * 10 + 3 * (y2 - y1)) 10 <= y2).
  { Z.quot_rem_to_equations. lia. }
  repeat split; try lia.
  intros N. rewrite Z.quot_div_nonneg by lia.
  Z.div_mod_to_equations. lia.
Qed.

(** X3: the head region of a well-formed person box (x1 <= x2,
    y1 <= y2) is again a well-formed box, with the person's left, right
    and top sides, and its bottom side lies between the person's top and
    bottom; when the top coordinate is not negative its height is three
    tenths of the person's height, rounded down, so the region is empty
    (height 0) exactly when the person is less than 4 pixels tall. *)
Theorem head_region_inside (P : BBox) :
  well_formed P ->
  let '(x1, y1, x2, y2) := P in
  let '(hx1, hy1, hx2, hy2) := head_region P in
  well_formed (head_region P)
  /\ hx1 = x1 /\ hx2 = x2 /\ hy1 = y1
  /\ y1 <= hy2 <= y2
  /\ (0 <= y1 -> hy2 - y1 = 3 * (y2 - y1) / 10)
  /\ (0 <= y1 -> (hy2 = y1 <-> y2 - y1 < 4)).
Proof.
  intros W. pose proof (head_region_facts P W) as F.
  destruct P as [[[x1 y1] x2] y2].
  destruct (head_region (x1, y1, x2, y2)) as [[[hx1 hy1] hx2] hy2].
  destruct F as (F1 & F2 & F3 & F4 & F5 & F6).
  do 6 (split; [assumption|]).
  intros N. specialize (F6 N). destruct W as [_ Wy].
  revert F6. Z.div_mod_to_equations. lia.
Qed.

Lemma head_region_inside_witness :
  head_region (10, 20, 50, 121) = (10, 20, 50, 50).
Proof.
  pose proof (head_region_inside (10, 20, 50, 121) ltac:(cbn; lia)) as H.
  cbv beta iota zeta in H.
  destruct (head_region (10, 20, 50, 121)) as [[[hx1 hy1] hx2] hy2].
  destruct H as (_ & -> & -> & -> & _ & H & _).
  specialize (H ltac:(lia)). cbn in H. do 3 f_equal. lia.
Defined.

(** ** Riders and helmets *)

Lemma point_inside_centre (b p : BBox) :
  point_inside b (bbox_center p) = true <-> centre_inside b p.
Proof.
  destruct b as [[[x1 y1] x2] y2], p as [[[px1 py1] px2] py2].
  unfold point_inside, bbox_center, centre_inside.
  rewrite !andb_true_iff, !Qle_bool_iff. unfold Qle. cbn -[Z.mul]. lia.
Qed.

Lemma riders_in (b r : BBox) (persons : list BBox) :
  In r (assign_riders_to_bike b persons)
  <-> In r persons /\ centre_inside b r.
Proof.
  rewrite assign_riders_filter. unfold riders_of.
  rewrite filter_In, point_inside_centre. reflexivity.
Qed.

Lemma riders_length (b : BBox) (persons : list BBox) :
  (length (riders_of b persons) <= length persons)%nat.
Proof. apply filter_length_le. Qed.

(** X4: the riders of a vehicle are exactly the person boxes of the list
    whose centre lies in the closed vehicle box, which on the integer
    coordinates reads [2*x1 <= px1+px2 <= 2*x2] and the same vertically;
    the list of riders of an appended list of persons is the riders of
    the first part followed by the riders of the second; and there are
    never more riders than persons. *)
Theorem riders_characterised (bike_bbox : BBox) (persons more : list BBox) :
  (forall r,
     In r (assign_riders_to_bike bike_bbox persons)
     <-> In r persons /\ centre_inside bike_bbox r)
  /\ assign_riders_to_bike bike_bbox (persons ++ more)
     = assign_riders_to_bike bike_bbox persons
       ++ assign_riders_to_bike bike_bbox more
  /\ (count_riders_on_bike bike_bbox persons <= length persons)%nat.
Proof.
  split; [|split].
  - intros r. apply riders_in.
  - rewrite !assign_riders_filter. apply filter_app.
  - unfold count_riders_on_bike. rewrite assign_riders_filter.
    apply riders_length.
Qed.

Lemma riders_characterised_witness :
  In (2, 2, 8, 8) (assign_riders_to_bike Examples.square [(2, 2, 8, 8)]).
Proof.
  apply (proj1 (riders_characterised Examples.square [(2, 2, 8, 8)] [])).
  split; [now left | cbn; lia].
Defined.

(** X5: a well-formed person box that lies within the vehicle box is a
    rider of that vehicle; in particular a person detected with the very
    box of the vehicle is one. *)
Theorem person_within_is_rider (bike_bbox p : BBox) (persons : list BBox) :
  well_formed p -> within p bike_bbox -> In p persons ->
  In p (assign_riders_to_bike bike_bbox persons).
Proof.
  intros W I H. apply riders_in. split; [exact H|].
  destruct bike_bbox as [[[x1 y1] x2] y2], p as [[[px1 py1] px2] py2].
  unfold well_formed, within, centre_inside in *. lia.
Qed.

Lemma person_within_is_rider_witness :
  In Examples.square (assign_riders_to_bike Examples.square [Examples.square]).
Proof.
  apply person_within_is_rider.
  - cbn; lia.
  - cbn; lia.
  - now left.
Defined.

Lemma has_helmet_in_app (head : BBox) (h1 h2 : list BBox) :
  has_helmet_in head (h1 ++ h2)
  = has_helmet_in head h1 || has_helmet_in head h2.
Proof.
  induction h1 as [|hb h1 IH]; cbn [app has_helmet_in orb]; auto.
  destruct (Py.Qgtb (iou head hb) 0); auto.
Qed.

(** X6: over two lists of helmet boxes put together, a person has a
    helmet exactly when it has one over either list; so more helmet
    detections never take a helmet away, and the order of the helmet
    boxes does not matter. *)
Theorem has_helmet_append (P : BBox) (H1 H2 : list BBox) :
  has_helmet_for_person P (H1 ++ H2)
  = has_helmet_for_person P H1 || has_helmet_for_person P H2
  /\ has_helmet_for_person P (H1 ++ H2) = has_helmet_for_person P (H2 ++ H1).
Proof.
  unfold has_helmet_for_person. rewrite !has_helmet_in_app.
  split; [reflexivity | apply orb_comm].
Qed.

Lemma head_region_wf (P : BBox) : well_formed P -> well_formed (head_region P).
Proof.
  intros W. pose proof (head_region_facts P W) as H.
  destruct P as [[[x1 y1] x2] y2].
  destruct (head_region (x1, y1, x2, y2)) as [[[hx1 hy1] hx2] hy2].
  tauto.
Qed.

(** X7: for a well-formed person box and well-formed helmet boxes, the
    person has a helmet exactly when some helmet box overlaps the head
    region on a region of positive area. *)
Theorem has_helmet_iff_head_overlap (P : BBox) (H : list BBox) :
  well_formed P -> Forall well_formed H ->
  (has_helmet_for_person P H = true
   <-> exists hb, In hb H /\ strict_overlap (head_region P) hb).
Proof.
  intros W F. unfold has_helmet_for_person. rewrite has_helmet_in_iff.
  pose proof (head_region_wf P W) as Wh.
  rewrite Forall_forall in F.
  split; intros (hb & Hin & Hp); exists hb; split; auto.
  - apply iou_pos_iff in Hp; auto.
  - apply iou_pos_iff; auto.
Qed.

Lemma has_helmet_iff_head_overlap_witness :
  has_helmet_for_person (10, 20, 50, 121) [(15, 10, 45, 40)] = true.
Proof.
  apply (proj2 (has_helmet_iff_head_overlap (10, 20, 50, 121)
                  [(15, 10, 45, 40)] ltac:(cbn; lia)
                  ltac:(repeat constructor; cbn; lia))).
  exists (15, 10, 45, 40). split; [now left | cbn; lia].
Defined.

(** ** The classifier and the fallback detector *)

Lemma triple_part_grounded (mt : model_type)
  (persons bikes helmets : list BBox) (b : BBox) :
  In b bikes ->
  Forall (grounded mt persons bikes helmets) (triple_part persons b).
Proof.
  intros Hb. unfold triple_part.
  destruct (3 <=? length (riders_of b persons))%nat eqn:E; constructor;
    [|constructor].
  apply Nat.leb_le in E. cbn. pose proof (riders_length b persons).
  repeat split; auto.
Qed.

Lemma helmet_part_grounded (mt : model_type)
  (persons bikes helmets : list BBox) (b : BBox) :
  In b bikes ->
  Forall (grounded mt persons bikes helmets)
    (helmet_part mt persons helmets b).
Proof.
  intros Hb. unfold helmet_part.
  destruct (is_custom mt) eqn:C; [constructor|].
  apply Forall_forall. intros v Hv. apply in_flat_map in Hv.
  destruct Hv as (r & Hr & Hv).
  destruct (has_helmet_for_person r helmets) eqn:Hh; [destruct Hv|].
  destruct Hv as [<- | []].
  unfold riders_of in Hr. apply filter_In in Hr. destruct Hr as [Hin Hc].
  apply point_inside_centre in Hc. cbn. repeat split; auto.
Qed.

Lemma grounded_all (mt : model_type) (boxes : list yolo_box) :
  let md := _yolo_advanced_detection mt boxes in
  Forall
    (grounded mt (person (md_bboxes md)) (motorbike (md_bboxes md))
       (helmet (md_bboxes md)))
    (violations md).
Proof.
  intros md. pose proof (detection_shape mt boxes) as S. cbv zeta in S.
  fold md in S. rewrite S. apply Forall_app. split.
  - destruct (is_custom mt) eqn:C; [|constructor].
    destruct mt; try discriminate.
    pose proof (custom_directs_in_persons boxes) as I.
    fold md in I. rewrite Forall_forall in I.
    apply Forall_forall. intros v Hv. apply in_map_iff in Hv.
    destruct Hv as (bx & <- & Hbx). cbn. split; auto.
  - apply Forall_forall. intros v Hv. apply in_flat_map in Hv.
    destruct Hv as (b & Hb & Hv). apply in_app_or in Hv.
    destruct Hv as [Hv | Hv].
    + exact (proj1 (Forall_forall _ _)
               (triple_part_grounded mt _ _ (helmet (md_bboxes md)) b Hb)
               v Hv).
    + exact (proj1 (Forall_forall _ _)
               (helmet_part_grounded mt _ _ _ b Hb) v Hv).
Qed.

(** X8: every violation of a frame rests on the frame's detections.  A
    direct violation occurs in the custom mode only and its box is in the
    person list; a triple-riding violation names a box of the vehicle
    list, the number of that vehicle's riders, which is at least 3 and at
    most the number of persons, and the confidence 0.90; a spatial helmet
    violation occurs outside the custom mode only and names a box of the
    vehicle list and a box of the person list whose centre lies in the
    vehicle box and which has no helmet, with the confidence 0.85. *)
Theorem violations_grounded (mt : model_type) (boxes : list yolo_box) :
  let md := _yolo_advanced_detection mt boxes in
  Forall
    (grounded mt (person (md_bboxes md)) (motorbike (md_bboxes md))
       (helmet (md_bboxes md)))
    (violations md).
Proof. apply grounded_all. Qed.

Lemma extract_box_lengths (mt : model_type) (e : extracted) (box : yolo_box) :
  paired e ->
  paired (extract_box mt e box)
  /\ (class_total e <= class_total (extract_box mt e box)
      <= class_total e + 1)%nat.
Proof.
  unfold paired, class_total. intros (P & M & H & L & D). unfold extract_box.
  repeat match goal with
         | |- context [if ?c then _ else _] => destruct c
         end;
    cbn [add_person add_bike add_helmet add_plate add_direct bboxes scores
         direct_violations person motorbike helmet license_plate];
    rewrite ?length_app; cbn [length]; lia.
Qed.

Lemma extract_lengths_from (mt : model_type) (boxes : list yolo_box)
  (e0 : extracted) :
  paired e0 ->
  paired (fold_left (extract_box mt) boxes e0)
  /\ (class_total (fold_left (extract_box mt) boxes e0)
      <= class_total e0 + length boxes)%nat.
Proof.
  revert e0; induction boxes as [|box l IH]; intros e0 I0;
    cbn [fold_left length].
  - split; [exact I0 | lia].
  - destruct (extract_box_lengths mt e0 box I0) as [I1 B1].
    destruct (IH _ I1) as [I2 B2]. split; [exact I2 | lia].
Qed.

(** X9: after the extraction loop, the box list and the score list of
    each class have the same length, the four classes together hold at
    most as many boxes as the model returned (each detection goes to at
    most one class), and there are at most as many direct violations as
    persons. *)
Theorem extract_lengths (mt : model_type) (boxes : list yolo_box) :
  let e := extract mt boxes in
  length (person (bboxes e)) = length (person (scores e))
  /\ length (motorbike (bboxes e)) = length (motorbike (scores e))
  /\ length (helmet (bboxes e)) = length (helmet (scores e))
  /\ length (license_plate (bboxes e)) = length (license_plate (scores e))
  /\ (length (direct_violations e) <= length (person (bboxes e)))%nat
  /\ (length (person (bboxes e)) + length (motorbike (bboxes e))
      + length (helmet (bboxes e)) + length (license_plate (bboxes e))
      <= length boxes)%nat.
Proof.
  cbv zeta. unfold extract.
  destruct (extract_lengths_from mt boxes empty_extracted) as [I B].
  - unfold paired. cbn. repeat split; lia.
  - unfold paired, class_total in *. cbn in B. tauto.
Qed.

Lemma repeat_snoc {A : Type} (x : A) (n : nat) :
  repeat x n ++ [x] = repeat x (S n).
Proof. induction n as [|n IH]; cbn; auto. now rewrite IH. Qed.

Lemma fallback_fold (areas : list Q) (vs : list violation) (n : Z) :
  0 <= n ->
  vs = repeat (FallbackViolation (65 # 100)) (Z.to_nat (Z.min 2 n)) ->
  let n' := n + Z.of_nat (length (filter vehicle_area areas)) in
  fold_left fallback_step areas (vs, n)
  = (repeat (FallbackViolation (65 # 100)) (Z.to_nat (Z.min 2 n')), n').
Proof.
  revert vs n; induction areas as [|a areas IH]; intros vs n P E;
    cbn [fold_left filter].
  - cbn [length]. rewrite Z.add_0_r. now rewrite E.
  - unfold fallback_step at 2. fold (vehicle_area a).
    destruct (vehicle_area a); cbn [length].
    + destruct (Z.leb_spec (n + 1) 2).
      * rewrite IH; try lia.
        -- cbv zeta. now rewrite Nat2Z.inj_succ, <- Z.add_assoc, Z.add_1_l.
        -- rewrite E, repeat_snoc. f_equal. lia.
      * rewrite IH; try lia.
        -- cbv zeta. now rewrite Nat2Z.inj_succ, <- Z.add_assoc, Z.add_1_l.
        -- rewrite E. f_equal. lia.
    + rewrite IH; auto.
Qed.

Lemma fallback_at_most_two_shape (areas : list Q) :
  let count := Z.of_nat (length (filter vehicle_area areas)) in
  violations (_fallback_detection areas)
  = repeat (FallbackViolation (65 # 100)) (Z.to_nat (Z.min 2 count))
  /\ is_vehicle_image (_fallback_detection areas) = (0 <? count).
Proof.
  intros count.
  pose proof (fallback_fold areas [] 0 ltac:(lia) eq_refl) as F.
  cbv zeta in F. rewrite Z.add_0_l in F. fold count in F.
  unfold _fallback_detection. rewrite F. split; reflexivity.
Qed.

(** X10: the fallback detector counts the contours whose area lies
    strictly between 2000 and 50000 and emits one helmet violation of
    confidence 0.65 for each of the first two, never more than two; the
    frame is a vehicle image exactly when it counts at least one. *)
Theorem fallback_at_most_two (areas : list Q) :
  let count := Z.of_nat (length (filter vehicle_area areas)) in
  violations (_fallback_detection areas)
  = repeat (FallbackViolation (65 # 100)) (Z.to_nat (Z.min 2 count))
  /\ fallback_vehicle_count areas = count
  /\ is_vehicle_image (_fallback_detection areas) = (0 <? count)
  /\ (length (violations (_fallback_detection areas)) <= 2)%nat.
Proof.
  intros count.
  pose proof (fallback_fold areas [] 0 ltac:(lia) eq_refl) as F.
  cbv zeta in F. rewrite Z.add_0_l in F. fold count in F.
  unfold _fallback_detection, fallback_vehicle_count. rewrite F.
  cbn [violations is_vehicle_image snd]. repeat split.
  rewrite repeat_length. lia.
Qed.

(** ** Aggregate confidence and the single-image pipeline *)

Lemma inject_succ (n : nat) :
  (inject_Z (Z.of_nat (S n)) == inject_Z (Z.of_nat n) + 1)%Q.
Proof.
  rewrite Nat2Z.inj_succ. unfold Z.succ. rewrite inject_Z_plus. reflexivity.
Qed.

Lemma sum_bounds (lo hi : Q) (l : list Q) (acc : Q) :
  Forall (fun c => (lo <= c /\ c <= hi)%Q) l ->
  (acc + lo * inject_Z (Z.of_nat (length l)) <= fold_left Qplus l acc
   /\ fold_left Qplus l acc <= acc + hi * inject_Z (Z.of_nat (length l)))%Q.
Proof.
  intros F; revert acc; induction F as [|c l [L H] _ IH]; intros acc;
    cbn [fold_left length].
  - change (inject_Z (Z.of_nat 0)) with 0%Q. lra.
  - destruct (IH (acc + c)%Q) as [A B].
    pose proof (inject_succ (length l)) as E.
    set (n := inject_Z (Z.of_nat (length l))) in *.
    set (m := inject_Z (Z.of_nat (S (length l)))) in *.
    split; nra.
Qed.

Lemma mean_bounds (lo hi : Q) (l : list Q) :
  l <> [] ->
  Forall (fun c => (lo <= c /\ c <= hi)%Q) l ->
  (lo <= fold_left Qplus l 0 / inject_Z (Z.of_nat (length l))
   /\ fold_left Qplus l 0 / inject_Z (Z.of_nat (length l)) <= hi)%Q.
Proof.
  intros N F. destruct (sum_bounds lo hi l 0 F) as [A B].
  assert (P : (0 < inject_Z (Z.of_nat (length l)))%Q).
  { change 0%Q with (inject_Z 0). rewrite <- Zlt_Qlt.
    destruct l; [contradiction | cbn [length]; lia]. }
  split.
  - apply Qle_shift_div_l; [exact P | lra].
  - apply Qle_shift_div_r; [exact P | lra].
Qed.

Lemma formatted_confidences (vs : list violation) :
  map AiDetector.confidence (map AiDetector.format_violation vs)
  = map vconfidence vs.
Proof. rewrite map_map. reflexivity. Qed.

Lemma detection_confidence_of (md : metadata) (ocr : str * Q) :
  AiDetector.detection_confidence (AiDetector.detect_violations md ocr)
  = match violations md with
    | [] => None
    | _ :: _ =>
        Some (fold_left Qplus (map vconfidence (violations md)) 0
              / inject_Z (Z.of_nat (length (violations md))))%Q
    end.
Proof.
  unfold AiDetector.detect_violations.
  cbn [AiDetector.detection_confidence].
  rewrite formatted_confidences, length_map.
  destruct (violations md); reflexivity.
Qed.

Lemma detection_confidence_some (md : metadata) (ocr : str * Q) (c : Q) :
  AiDetector.detection_confidence (AiDetector.detect_violations md ocr)
  = Some c ->
  map vconfidence (violations md) <> []
  /\ c = (fold_left Qplus (map vconfidence (violations md)) 0
          / inject_Z (Z.of_nat (length (map vconfidence (violations md)))))%Q.
Proof.
  rewrite detection_confidence_of, length_map.
  destruct (violations md) as [|v vs]; [discriminate|].
  intros E. split; [discriminate | congruence].
Qed.

(** X11: the aggregate detection confidence of an image is absent
    exactly when no violation was found; otherwise it is the mean of the
    violations' confidences.  On the YOLO path outside the custom mode
    every confidence is 0.85 or 0.90, so the mean stays within one
    hundredth of that range: strictly between 0.84 and 0.91 (the margin
    leaves room for the rounding of the sum).  On the fallback path, with
    its at most two violations of confidence 0.65, the mean is 0.65. *)
Theorem detection_confidence_bounds (run : detector_run) (ocr : str * Q) :
  let md := Detect.detect_violations run in
  let dc :=
    AiDetector.detection_confidence (AiDetector.detect_violations md ocr) in
  (dc = None <-> violations md = [])
  /\ (forall c, dc = Some c ->
      match run with
      | RunYolo mt _ =>
          is_custom mt = false -> (84 # 100 < c /\ c < 91 # 100)%Q
      | RunFallback _ => (c == 65 # 100)%Q
      end).
Proof.
  intros md dc. unfold dc. split.
  - rewrite detection_confidence_of.
    destruct (violations md); split; intros; auto; discriminate.
  - intros c E.
    destruct (detection_confidence_some md ocr c E) as [N ->].
    clear E. destruct run as [mt boxes | areas].
    + intros C.
      match goal with
      | |- (_ < ?m /\ ?m < _)%Q =>
          cut (85 # 100 <= m /\ m <= 90 # 100)%Q; [intros [? ?]; split; lra|]
      end.
      apply mean_bounds; [exact N|].
      apply Forall_map.
      eapply Forall_weaken; [|apply (grounded_all mt boxes)].
      intros [] G; cbn in G; cbn [vconfidence].
      * destruct G as [G _]. congruence.
      * destruct G as (_ & _ & _ & ->). split; [discriminate|apply Qle_refl].
      * destruct G as (_ & _ & _ & _ & _ & ->).
        split; [apply Qle_refl|discriminate].
      * destruct G.
    + match goal with
      | |- (?m == _)%Q =>
          cut (65 # 100 <= m /\ m <= 65 # 100)%Q;
            [intros [? ?]; apply Qle_antisym; assumption|]
      end.
      apply mean_bounds; [exact N|].
      apply Forall_map. unfold md.
      cbn [Detect.detect_violations].
      destruct (fallback_at_most_two_shape areas) as [-> _].
      apply Forall_forall. intros x Hx. apply repeat_spec in Hx. subst x.
      cbn. split; apply Qle_refl.
Qed.

Lemma detection_confidence_bounds_witness :
  exists c,
    AiDetector.detection_confidence
      (AiDetector.detect_violations
         (Detect.detect_violations (RunYolo yolov8n Examples.two_bikes))
         (lit "", 0%Q)) = Some c
    /\ (84 # 100 < c /\ c < 91 # 100)%Q.
Proof.
  eexists. split; [reflexivity|].
  apply (proj2 (detection_confidence_bounds
                  (RunYolo yolov8n Examples.two_bikes) (lit "", 0%Q)) _
           eq_refl eq_refl).
Defined.

Lemma no_vehicle_no_violation (run : detector_run) :
  is_vehicle_image (Detect.detect_violations run) = false ->
  violations (Detect.detect_violations run) = [].
Proof.
  intros H. destruct (violations (Detect.detect_violations run)) eqn:V; auto.
  assert (N : violations (Detect.detect_violations run) <> [])
    by (rewrite V; discriminate).
  apply violations_vehicle in N. congruence.
Qed.

Lemma formatted_amount (v : violation) :
  app_amount (Some (AiDetector.type (AiDetector.format_violation v)))
  = if is_triple v then 1000 else 500.
Proof. destruct v; reflexivity. Qed.

(** X12: on the output of either detector path the single-image
    pipeline always returns a result, never its random stand-in; the
    result lists every violation of the detector, in order, with its type
    and confidence, reports violations exactly when there are some, and
    its total fine is 500 for each helmet violation plus 1000 for each
    triple-riding violation. *)
Theorem pipeline_keeps_violations (shape : N * N * N) (run : detector_run)
  (ocr : str * Q) :
  let md := Detect.detect_violations run in
  exists r,
    App.process_demo_image shape (AiDetector.detect_violations md ocr)
    = Some r
    /\ App.violations r = map AiDetector.format_violation (violations md)
    /\ App.violations_found r = (0 <? length (violations md))%nat
    /\ App.is_vehicle_image r = is_vehicle_image md
    /\ App.total_fine r
       = sumZ (map (fun v => if is_triple v then 1000 else 500)
                 (violations md)).
Proof.
  intros md. subst md. set (md := Detect.detect_violations run).
  unfold App.process_demo_image.
  cbn [AiDetector.detect_violations AiDetector.is_vehicle_image
       AiDetector.violations AiDetector.license_plate].
  destruct (is_vehicle_image md) eqn:Hv; cbn [negb].
  - destruct (hexdigest_wf (App.encode (App.str_shape shape))) as [L F].
    destruct (synthetic_plate_wf _ L F) as (plate & S & _). rewrite S.
    match goal with
    | |- context [if ?c then Some plate else Some ?p] =>
        destruct c; eexists; (split; [reflexivity|])
    end;
      cbn [App.violations App.violations_found App.is_vehicle_image
           App.total_fine];
      rewrite image_total_sum, map_map, length_map;
      repeat split; apply f_equal, map_ext, formatted_amount.
  - unfold md in *. rewrite (no_vehicle_no_violation run Hv).
    eexists. repeat split.
Qed.

(** ** Crops *)

(** X13: the plate region cut around a box that lies in the frame has
    its corner at most 10 pixels above and to the left of the box's
    corner, never outside the frame, and reaches at most 10 pixels past
    the box's far sides, stopping at the frame's edge: it always contains
    the box. *)
Theorem plate_region_margin (h w x1 y1 x2 y2 : Z) :
  0 <= x1 <= x2 -> x2 <= w -> 0 <= y1 <= y2 -> y2 <= h ->
  let r :=
    extract_plate_region h w
      (inject_Z x1, inject_Z y1, inject_Z x2, inject_Z y2) in
  Np.left r = Z.max 0 (x1 - 10)
  /\ Np.top r = Z.max 0 (y1 - 10)
  /\ Np.left r + Np.cols r = Z.min w (x2 + 10)
  /\ Np.top r + Np.rows r = Z.min h (y2 + 10)
  /\ Np.left r <= x1 /\ x2 <= Np.left r + Np.cols r
  /\ Np.top r <= y1 /\ y2 <= Np.top r + Np.rows r.
Proof.
  intros Hx Hxw Hy Hyh. unfold extract_plate_region, _to_bbox.
  rewrite !int_of_float_inject. cbv zeta.
  unfold Np.crop, Np.slice_bound. cbn [Np.left Np.top Np.cols Np.rows].
  repeat match goal with
         | |- context [?a <? 0] => destruct (Z.ltb_spec a 0)
         end; lia.
Qed.

Lemma plate_region_margin_witness :
  extract_plate_region 480 640
    (inject_Z 5, inject_Z 5, inject_Z 635, inject_Z 100)
  = Np.mk_region 0 0 110 640.
Proof.
  pose proof (plate_region_margin 480 640 5 5 635 100 ltac:(lia) ltac:(lia)
                ltac:(lia) ltac:(lia)) as H.
  cbv zeta in H.
  destruct (extract_plate_region 480 640
              (inject_Z 5, inject_Z 5, inject_Z 635, inject_Z 100))
    as [t l r c].
  cbn [Np.left Np.top Np.cols Np.rows] in H. f_equal; lia.
Defined.

(** X14: the crop of a plate box that lies in the image starts at the
    box's corner and is never larger than the box; a box that reaches the
    right or the bottom edge of the image loses its last column or row,
    so the crop never contains the last row or column of the image. *)
Theorem crop_from_bbox_size (h w x1 y1 x2 y2 : Z) :
  0 <= x1 <= x2 -> x2 <= w -> 0 <= y1 <= y2 -> y2 <= h ->
  let r := PaddleOcrReader.crop_from_bbox h w (x1, y1, x2, y2) in
  Np.left r = x1 /\ Np.top r = y1
  /\ Np.cols r = Z.max 0 (Z.min (w - 1) x2 - x1)
  /\ Np.rows r = Z.max 0 (Z.min (h - 1) y2 - y1)
  /\ Np.cols r <= x2 - x1 /\ Np.rows r <= y2 - y1
  /\ (0 < Np.cols r -> Np.left r + Np.cols r <= w - 1)
  /\ (0 < Np.rows r -> Np.top r + Np.rows r <= h - 1).
Proof.
  intros Hx Hxw Hy Hyh. unfold PaddleOcrReader.crop_from_bbox.
  cbv zeta. rewrite (Z.max_r 0 x1), (Z.max_r 0 y1) by lia.
  unfold Np.crop, Np.slice_bound.
  cbn [Np.left Np.top Np.cols Np.rows].
  destruct (Z.ltb_spec x1 0); [lia|]. destruct (Z.ltb_spec y1 0); [lia|].
  rewrite (Z.min_l x1 w), (Z.min_l y1 h) by lia.
  destruct (Z.ltb_spec (Z.min (w - 1) x2) 0),
    (Z.ltb_spec (Z.min (h - 1) y2) 0);
    repeat apply conj; lia.
Qed.

Lemma crop_from_bbox_size_witness :
  PaddleOcrReader.crop_from_bbox 480 640 (0, 0, 640, 480)
  = Np.mk_region 0 0 479 639.
Proof.
  pose proof (crop_from_bbox_size 480 640 0 0 640 480 ltac:(lia) ltac:(lia)
                ltac:(lia) ltac:(lia)) as H.
  cbv zeta in H.
  destruct (PaddleOcrReader.crop_from_bbox 480 640 (0, 0, 640, 480))
    as [t l r c].
  cbn [Np.left Np.top Np.cols Np.rows] in H. f_equal; lia.
Defined.

(** ** Selection of a maximum *)

Section MaxBy.

Variables (A K : Type) (gtb : K -> K -> bool) (le lt : K -> K -> Prop).
Variable key : A -> K.
Hypothesis gtb_true : forall a b, gtb a b = true -> lt b a.
Hypothesis gtb_false : forall a b, gtb a b = false -> le a b.
Hypothesis le_refl : forall a, le a a.
Hypothesis lt_le : forall a b, lt a b -> le a b.
Hypothesis le_lt_trans : forall a b c, le a b -> lt b c -> lt a c.

(** [max(..., key=...)] returns the first element of greatest key. *)
Lemma max_by_first (x : A) (rest : list A) :
  exists i,
    (i < length (x :: rest))%nat
    /\ Py.max_by gtb key x rest = nth i (x :: rest) x
    /\ (forall j, (j < length (x :: rest))%nat ->
        le (key (nth j (x :: rest) x)) (key (nth i (x :: rest) x)))
    /\ (forall j, (j < i)%nat ->
        lt (key (nth j (x :: rest) x)) (key (nth i (x :: rest) x))).
Proof.
  induction rest as [|y rest IH] using rev_ind.
  - exists 0%nat. cbn. repeat split; auto; try lia.
    intros j Hj. assert (j = 0)%nat by lia. subst. apply le_refl.
  - destruct IH as (i & Hi & E & M & F).
    unfold Py.max_by in *. rewrite fold_left_app. cbn [fold_left].
    rewrite E. change (x :: rest ++ [y]) with ((x :: rest) ++ [y]).
    assert (Ny : nth (length (x :: rest)) ((x :: rest) ++ [y]) x = y).
    { rewrite app_nth2 by lia. now rewrite Nat.sub_diag. }
    assert (Nj : forall j, (j < length (x :: rest))%nat ->
                 nth j ((x :: rest) ++ [y]) x = nth j (x :: rest) x)
      by (intros; now apply app_nth1).
    rewrite length_app. cbn [length] in *.
    destruct (gtb (key y) (key (nth i (x :: rest) x))) eqn:G.
    + apply gtb_true in G. exists (S (length rest)).
      rewrite Ny. repeat split; auto; try lia.
      * intros j Hj. destruct (Nat.eq_dec j (S (length rest))) as [->|Nq].
        -- rewrite Ny. apply le_refl.
        -- rewrite Nj by lia. apply lt_le.
           eapply le_lt_trans; [apply M; lia | exact G].
      * intros j Hj. rewrite Nj by lia.
        eapply le_lt_trans; [apply M; lia | exact G].
    + apply gtb_false in G. exists i. rewrite (Nj i) by lia.
      repeat split; auto; try lia.
      * intros j Hj. destruct (Nat.eq_dec j (S (length rest))) as [->|Nq].
        -- now rewrite Ny.
        -- rewrite Nj by lia. apply M. lia.
      * intros j Hj. rewrite Nj by lia. now apply F.
Qed.

End MaxBy.

Lemma nth_plate_areas (plates : list BBox) (i : nat) (d : BBox) :
  (i < length plates)%nat ->
  nth i (AiDetector.plate_areas plates) (0%nat, area d)
  = (i, area (nth i plates d)).
Proof.
  intros H. unfold AiDetector.plate_areas.
  rewrite combine_nth by now rewrite length_seq, length_map.
  rewrite seq_nth by lia. now rewrite map_nth.
Qed.

(** X15: among several plate boxes the one sent to OCR is the first of
    greatest area: no plate has a larger area, and every plate before it
    has a strictly smaller one. *)
Theorem largest_plate_first_max (plates : list BBox) (d : BBox) :
  plates <> [] ->
  exists i,
    AiDetector.largest_plate_index plates = Some i
    /\ (i < length plates)%nat
    /\ (forall j, (j < length plates)%nat ->
        area (nth j plates d) <= area (nth i plates d))
    /\ (forall j, (j < i)%nat ->
        area (nth j plates d) < area (nth i plates d)).
Proof.
  intros N. destruct plates as [|p ps]; [contradiction|].
  unfold AiDetector.largest_plate_index.
  assert (L : length (AiDetector.plate_areas (p :: ps)) = length (p :: ps)).
  { unfold AiDetector.plate_areas.
    rewrite length_combine, length_seq, length_map. apply Nat.min_id. }
  destruct (AiDetector.plate_areas (p :: ps)) as [|a rest] eqn:E;
    [discriminate|].
  destruct (max_by_first (nat * Z) Z Z.gtb Z.le Z.lt snd) with (x := a)
    (rest := rest) as (i & Hi & M & Le & Lt).
  - intros x y H. apply Z.gtb_lt in H. exact H.
  - intros x y H. rewrite Z.gtb_ltb in H. now apply Z.ltb_ge in H.
  - intros; lia.
  - intros; lia.
  - intros; lia.
  - rewrite L in Hi.
    assert (Nth : forall j, (j < length (p :: ps))%nat ->
                  nth j (a :: rest) a = (j, area (nth j (p :: ps) d))).
    { intros j Hj. rewrite <- E.
      rewrite <- (nth_plate_areas (p :: ps) j d Hj).
      apply nth_indep. rewrite E, L. exact Hj. }
    exists i. rewrite M, (Nth i Hi). cbn [fst]. repeat split; auto.
    + intros j Hj. specialize (Le j ltac:(rewrite L; exact Hj)).
      rewrite (Nth j Hj), (Nth i Hi) in Le. exact Le.
    + intros j Hj. specialize (Lt j Hj).
      rewrite (Nth j ltac:(lia)), (Nth i Hi) in Lt. exact Lt.
Qed.

Lemma largest_plate_first_max_witness :
  AiDetector.largest_plate_index
    [Examples.thin; Examples.square; Examples.far_square] = Some 1%nat.
Proof.
  destruct (largest_plate_first_max
              [Examples.thin; Examples.square; Examples.far_square]
              Examples.thin ltac:(discriminate))
    as (i & E & Hi & Le & Lt).
  rewrite E. f_equal.
  destruct i as [|[|[|i]]]; cbn in Hi; try lia; auto.
  - specialize (Le 1%nat ltac:(cbn; lia)). cbn in Le. lia.
  - specialize (Lt 1%nat ltac:(lia)). cbn in Lt. lia.
Defined.

(** ** Plate reading *)

Lemma Qgtb_lt (a b : Q) : Py.Qgtb a b = true <-> (b < a)%Q.
Proof.
  unfold Py.Qgtb. rewrite negb_true_iff. split.
  - intros H. apply Qnot_le_lt. intros L.
    apply Qle_bool_iff in L. congruence.
  - intros H. destruct (Qle_bool a b) eqn:L; auto.
    apply Qle_bool_iff in L. exfalso. exact (Qlt_not_le _ _ H L).
Qed.

Lemma Qgtb_le (a b : Q) : Py.Qgtb a b = false <-> (a <= b)%Q.
Proof.
  unfold Py.Qgtb. rewrite negb_false_iff. apply Qle_bool_iff.
Qed.

Lemma grammar_length (s : str) :
  plate_grammar s = true -> (9 <= length s)%nat.
Proof.
  do 9 (destruct s as [|? s]; [discriminate|]). intros _. cbn. lia.
Qed.

Lemma upper_AZ09 (upper_nonascii : N -> list N) (s : str) :
  Forall (fun c => is_AZ09 c = true) s ->
  PaddleOcrReader.upper upper_nonascii s = s.
Proof.
  induction 1 as [|c s Hc _ IH]; cbn [PaddleOcrReader.upper flat_map]; auto.
  fold (PaddleOcrReader.upper upper_nonascii s). rewrite IH.
  unfold PaddleOcrReader.upper_char.
  destruct (AZ09_facts c Hc) as [L _]. rewrite L.
  assert (R : Re.in_range 97 122 c = false).
  { unfold is_AZ09, is_letter, is_digit, Re.in_range in *.
    apply andb_false_iff. rewrite orb_true_iff, !andb_true_iff,
      !N.leb_le in Hc. rewrite !N.leb_gt. lia. }
  now rewrite R.
Qed.

Section Reader.

Variable upper_nonascii : N -> list N.
Variable decimal_nonascii : N -> bool.

Lemma normalize_as_rules (text : str) :
  PaddleOcrReader._normalize_plate_text upper_nonascii decimal_nonascii text
  = normalize_spec (PaddleOcrReader.upper upper_nonascii) text.
Proof.
  unfold PaddleOcrReader._normalize_plate_text, normalize_spec.
  destruct text as [|c text]; [reflexivity|].
  rewrite sub_is_filter.
  rewrite (pattern_is_grammar decimal_nonascii) by apply filter_AZ09_clean.
  reflexivity.
Qed.

Lemma normalize_normal_form (text : str) :
  normal_form
    (PaddleOcrReader._normalize_plate_text upper_nonascii decimal_nonascii
       text).
Proof.
  rewrite normalize_as_rules. unfold normalize_spec, normal_form.
  set (clean := filter is_AZ09 (PaddleOcrReader.upper upper_nonascii text)).
  pose proof (filter_AZ09_clean (PaddleOcrReader.upper upper_nonascii text))
    as F. fold clean in F.
  destruct (plate_grammar clean) eqn:G.
  - right. split; [|exact F]. apply grammar_length in G. lia.
  - destruct ((8 <=? length clean)%nat && (length clean <=? 10)%nat) eqn:B.
    + right. split; [|exact F].
      apply andb_true_iff in B. destruct B as [B _].
      apply Nat.leb_le in B. lia.
    + destruct (length clean <? 5)%nat eqn:S; [now left|].
      right. split; [|exact F]. apply Nat.ltb_ge in S. exact S.
Qed.

Lemma normalize_fixed (s : str) :
  normal_form s ->
  PaddleOcrReader._normalize_plate_text upper_nonascii decimal_nonascii s = s.
Proof.
  intros [-> | [L F]]; [reflexivity|].
  rewrite normalize_as_rules. unfold normalize_spec.
  rewrite (upper_AZ09 upper_nonascii s F), (filter_all _ _ F).
  destruct (plate_grammar s); auto.
  destruct ((8 <=? length s)%nat && (length s <=? 10)%nat); auto.
  destruct (Nat.ltb_spec (length s) 5); [lia | reflexivity].
Qed.

(** X16: whatever the text, the plate normaliser returns either
    "UNKNOWN" or a string of at least five characters, all of them
    capital letters or digits; it never returns an empty string. *)
Theorem normalize_output_form (text : str) :
  let out :=
    PaddleOcrReader._normalize_plate_text upper_nonascii decimal_nonascii
      text in
  (out = lit "UNKNOWN"
   \/ ((5 <= length out)%nat /\ Forall (fun c => is_AZ09 c = true) out))
  /\ out <> [].
Proof.
  cbv zeta. pose proof (normalize_normal_form text) as H.
  split; [exact H|].
  destruct H as [-> | [L _]]; [discriminate|].
  intros E. rewrite E in L. cbn in L. lia.
Qed.

(** X17: normalising twice is normalising once: every output of the
    plate normaliser is returned unchanged when it is normalised
    again. *)
Theorem normalize_idempotent (text : str) :
  let normalize :=
    PaddleOcrReader._normalize_plate_text upper_nonascii decimal_nonascii in
  normalize (normalize text) = normalize text.
Proof.
  cbv zeta. apply normalize_fixed, normalize_normal_form.
Qed.

Lemma paddle_fold (lines : list PaddleOcrReader.ocr_line) (best : str * Q) :
  let r := fold_left PaddleOcrReader.best_step lines best in
  (snd best <= snd r)%Q
  /\ (forall line, In line lines -> (line_conf line <= Qmax 0 (snd r))%Q)
  /\ (r = best \/ (In (Some r) lines /\ (snd best < snd r)%Q)).
Proof.
  revert best; induction lines as [|line lines IH]; intros best;
    cbn [fold_left].
  - repeat split; [apply Qle_refl | intros l [] | now left].
  - destruct (IH (PaddleOcrReader.best_step best line)) as (A & B & C).
    cbv zeta in *.
    set (r := fold_left PaddleOcrReader.best_step lines
                (PaddleOcrReader.best_step best line)) in *.
    assert (S : (snd best <= snd (PaddleOcrReader.best_step best line))%Q
                /\ (line_conf line
                    <= Qmax 0 (snd (PaddleOcrReader.best_step best line)))%Q
                /\ (PaddleOcrReader.best_step best line = best
                    \/ (Some (PaddleOcrReader.best_step best line) = line
                        /\ (snd best
                            < snd (PaddleOcrReader.best_step best line))%Q))).
    { unfold PaddleOcrReader.best_step, line_conf.
      destruct line as [[t c]|].
      - destruct (Py.Qgtb c (snd best)) eqn:G.
        + apply Qgtb_lt in G. cbn [snd]. repeat split.
          * now apply Qlt_le_weak.
          * apply Q.le_max_r.
          * right. split; auto.
        + apply Qgtb_le in G. repeat split.
          * apply Qle_refl.
          * eapply Qle_trans; [exact G | apply Q.le_max_r].
          * now left.
      - repeat split; [apply Qle_refl | apply Q.le_max_l | now left]. }
    destruct S as (S1 & S2 & S3). repeat split.
    + eapply Qle_trans; eauto.
    + intros l [<- | Hl]; [|now apply B].
      eapply Qle_trans; [exact S2|].
      apply Q.max_le_compat_l. exact A.
    + destruct C as [C | [C1 C2]].
      * rewrite C. destruct S3 as [S3 | [S3 S4]]; [now left|].
        right. split; [left; now rewrite S3 | exact S4].
      * right. split; [now right|].
        eapply Qle_lt_trans; eauto.
Qed.

(** X18: the PaddleOCR reader returns the greatest confidence among its
    lines, never below 0, no line having a greater one.  Either no line
    was selected and it returns "UNKNOWN" with confidence 0, or its
    confidence is positive and belongs to a line whose normalised text it
    returns. *)
Theorem paddle_ocr_best (lines : list PaddleOcrReader.ocr_line) :
  let r := PaddleOcrReader._paddle_ocr upper_nonascii decimal_nonascii lines
  in
  (0 <= snd r)%Q
  /\ (forall t c, In (Some (t, c)) lines -> (c <= snd r)%Q)
  /\ (r = (lit "UNKNOWN", 0%Q)
      \/ exists t,
           In (Some (t, snd r)) lines /\ (0 < snd r)%Q
           /\ fst r
              = PaddleOcrReader._normalize_plate_text upper_nonascii
                  decimal_nonascii t).
Proof.
  cbv zeta. unfold PaddleOcrReader._paddle_ocr.
  destruct (paddle_fold lines ([], 0%Q)) as (A & B & C). cbv zeta in *.
  destruct (fold_left PaddleOcrReader.best_step lines ([], 0%Q))
    as [bt bc] eqn:E.
  cbn [fst snd] in *. repeat split.
  - exact A.
  - intros t c H. specialize (B _ H). cbn [line_conf] in B.
    rewrite Q.max_r in B; auto.
  - destruct C as [C | [C1 C2]].
    + left. inversion C. reflexivity.
    + right. exists bt. repeat split; auto.
Qed.

Lemma agree_fold (rest : list (str * Q)) (p e : str * Q) :
  (p = e \/ (p = ([], 0%Q) /\ (snd e <= 0)%Q)) ->
  let p' := fold_left PaddleOcrReader.best_step (map Some rest) p in
  let e' :=
    fold_left
      (fun best y => if Py.Qgtb (snd y) (snd best) then y else best) rest e in
  p' = e' \/ (p' = ([], 0%Q) /\ (snd e' <= 0)%Q).
Proof.
  revert p e; induction rest as [|[t c] rest IH]; intros p e R;
    cbn [fold_left map]; [exact R|].
  apply IH. cbn [PaddleOcrReader.best_step snd].
  destruct R as [-> | [-> Le]]; [now left|]. cbn [snd].
  destruct (Py.Qgtb c 0) eqn:G0.
  - apply Qgtb_lt in G0.
    assert (G : Py.Qgtb c (snd e) = true)
      by (apply Qgtb_lt; eapply Qle_lt_trans; eauto).
    rewrite G. now left.
  - apply Qgtb_le in G0. right. split; auto.
    destruct (Py.Qgtb c (snd e)); auto.
Qed.

(** X19: on the same lines the two OCR back-ends return the same text
    and confidence whenever the EasyOCR result has a positive
    confidence; otherwise PaddleOCR returns "UNKNOWN" with confidence
    0. *)
Theorem ocr_backends_agree (results : list (str * Q)) :
  let paddle :=
    PaddleOcrReader._paddle_ocr upper_nonascii decimal_nonascii
      (map Some results) in
  let easy :=
    PaddleOcrReader._easyocr_fallback upper_nonascii decimal_nonascii results
  in
  ((0 < snd easy)%Q -> paddle = easy)
  /\ (~ (0 < snd easy)%Q -> paddle = (lit "UNKNOWN", 0%Q)).
Proof.
  cbv zeta. unfold PaddleOcrReader._paddle_ocr,
    PaddleOcrReader._easyocr_fallback.
  destruct results as [|[t c] rest].
  - cbn. split; [intros H; now apply Qlt_irrefl in H | reflexivity].
  - cbn [map fold_left]. unfold Py.max_by.
    assert (R : PaddleOcrReader.best_step ([], 0%Q) (Some (t, c)) = (t, c)
                \/ (PaddleOcrReader.best_step ([], 0%Q) (Some (t, c))
                    = ([], 0%Q) /\ (snd (t, c) <= 0)%Q)).
    { cbn [PaddleOcrReader.best_step snd].
      destruct (Py.Qgtb c 0) eqn:G; [now left|].
      apply Qgtb_le in G. right. split; auto. }
    pose proof (agree_fold rest _ (t, c) R) as H. cbv zeta in H.
    destruct (fold_left PaddleOcrReader.best_step (map Some rest)
                (PaddleOcrReader.best_step ([], 0%Q) (Some (t, c))))
      as [pt pc] eqn:P'.
    set (e := fold_left
                (fun best y => if Py.Qgtb (snd y) (snd best) then y else best)
                rest (t, c)) in *.
    cbn [snd]. destruct H as [H | [H Le]].
    + rewrite <- H. cbn [fst snd]. split; [reflexivity|].
      intros N.
      destruct (paddle_fold (map Some ((t, c) :: rest)) ([], 0%Q))
        as (_ & _ & C).
      cbv zeta in C. cbn [map fold_left] in C. rewrite P' in C.
      destruct C as [C | [_ C]]; [now inversion C|].
      cbn [snd] in C. contradiction.
    + inversion H. subst. split; [|reflexivity].
      intros P. exfalso. exact (Qlt_not_le _ _ P Le).
Qed.

End Reader.

Lemma paddle_ocr_best_witness :
  (5 # 10
   <= snd (PaddleOcrReader._paddle_ocr (fun c => [c]) (fun _ => false)
             Examples.ocr_lines))%Q.
Proof.
  apply (proj1 (proj2 (paddle_ocr_best (fun c => [c]) (fun _ => false)
                         Examples.ocr_lines)) (lit "ka01ab1234")).
  left. reflexivity.
Defined.

Lemma ocr_backends_agree_witness :
  PaddleOcrReader._paddle_ocr (fun c => [c]) (fun _ => false)
    (map Some Examples.ocr_results)
  = PaddleOcrReader._easyocr_fallback (fun c => [c]) (fun _ => false)
      Examples.ocr_results.
Proof.
  apply (proj1 (ocr_backends_agree (fun c => [c]) (fun _ => false)
                  Examples.ocr_results)).
  reflexivity.
Defined.

(** ** The loop of the video processor *)

Lemma sumZ_app (l1 l2 : list Z) : sumZ (l1 ++ l2) = sumZ l1 + sumZ l2.
Proof.
  unfold sumZ. induction l1 as [|x l1 IH]; cbn [app fold_right]; lia.
Qed.

Lemma sorted_snoc (l : list Z) (a : Z) :
  StronglySorted Z.lt l -> Forall (fun x => x < a) l ->
  StronglySorted Z.lt (l ++ [a]).
Proof.
  induction 1 as [|x l S IH F]; intros B; cbn [app].
  - repeat constructor.
  - inversion B as [|? ? Hx Hl]; subst. constructor; [now apply IH|].
    apply Forall_app. split; [exact F | repeat constructor; exact Hx].
Qed.

Lemma sampled_count_step (s k : Z) :
  0 < s -> 0 <= k ->
  sampled_count s (k + 1)
  = if k mod s =? 0 then sampled_count s k + 1 else sampled_count s k.
Proof.
  intros Hs Hk. unfold sampled_count.
  destruct (Z.eqb_spec (k mod s) 0) as [E | E].
  - apply Z.mod_divide in E; [|lia]. destruct E as [q ->].
    replace (q * s + 1 + s - 1) with ((q + 1) * s) by lia.
    rewrite Z.div_mul by lia.
    replace (q * s + s - 1) with (q * s + (s - 1)) by lia.
    rewrite Z.div_add_l, (Z.div_small (s - 1)) by lia. lia.
  - pose proof (Z.div_mod k s ltac:(lia)) as D.
    pose proof (Z.mod_pos_bound k s Hs) as B.
    remember (k / s) as q. remember (k mod s) as r.
    transitivity (q + 1).
    + symmetry. apply (Z.div_unique_pos _ s (q + 1) r); lia.
    + apply (Z.div_unique_pos _ s (q + 1) (r - 1)); lia.
Qed.

Section VideoLoop.

Variable frame : Type.
Variable V : Type.
Variable detect_violations : frame -> list V.

Lemma loop_body_inv (fps frame_skip : Z) (st : VideoProcessor.loop_state V)
  (f : frame) :
  0 < frame_skip -> loop_inv frame_skip st ->
  let st' :=
    VideoProcessor.loop_body frame V detect_violations fps frame_skip st f in
  loop_inv frame_skip st'
  /\ VideoProcessor.frame_idx st' = VideoProcessor.frame_idx st + 1.
Proof.
  intros Hs (I0 & Ip & It & Is & If & Il). cbv zeta.
  pose proof (sampled_count_step frame_skip (VideoProcessor.frame_idx st)
                Hs I0) as C.
  assert (If' : Forall
    (fun e : VideoProcessor.violation_info V =>
       0 <= VideoProcessor.frame_number e < VideoProcessor.frame_idx st + 1
       /\ VideoProcessor.vi_violations e <> [])
    (VideoProcessor.violations_timeline st)).
  { eapply Forall_weaken; [|exact If]. cbv beta. intros e [B N].
    split; [lia | exact N]. }
  unfold VideoProcessor.loop_body, loop_inv.
  destruct (Z.eqb_spec (VideoProcessor.frame_idx st mod frame_skip) 0)
    as [M | M]; cbn [negb].
  - destruct (detect_violations f) as [|v vs] eqn:D;
      cbn [VideoProcessor.frame_idx VideoProcessor.frames_processed
           VideoProcessor.total_violations VideoProcessor.violations_timeline].
    + repeat split; auto; lia.
    + rewrite map_app, length_app. unfold timeline_violations in *.
      rewrite map_app, sumZ_app.
      cbn [map VideoProcessor.frame_number VideoProcessor.vi_violations
           length]. unfold sumZ at 2. cbn [fold_right].
      repeat split; auto; try lia.
      * apply sorted_snoc; auto. apply Forall_map.
        eapply Forall_weaken; [|exact If]. cbv beta. intros e [B _]. lia.
      * apply Forall_app. split; [exact If'|].
        constructor; [|constructor].
        cbn [VideoProcessor.frame_number VideoProcessor.vi_violations].
        split; [lia | discriminate].
  - cbn [VideoProcessor.frame_idx VideoProcessor.frames_processed
         VideoProcessor.total_violations VideoProcessor.violations_timeline].
    repeat split; auto; lia.
Qed.

Lemma loop_inv_fold (fps frame_skip : Z) (frames : list frame)
  (st : VideoProcessor.loop_state V) :
  0 < frame_skip -> loop_inv frame_skip st ->
  let st' :=
    fold_left
      (VideoProcessor.loop_body frame V detect_violations fps frame_skip)
      frames st in
  loop_inv frame_skip st'
  /\ VideoProcessor.frame_idx st'
     = VideoProcessor.frame_idx st + Z.of_nat (length frames).
Proof.
  intros Hs. revert st; induction frames as [|f frames IH]; intros st I;
    cbn [fold_left length].
  - split; [exact I | lia].
  - destruct (loop_body_inv fps frame_skip st f Hs I) as [I1 E1].
    destruct (IH _ I1) as [I2 E2]. cbv zeta in *.
    split; [exact I2 | lia].
Qed.

Lemma process_video_inv (frame_skip : Z) (reported_fps : Q)
  (frames : list frame) :
  0 < frame_skip ->
  exists st,
    VideoProcessor.process_video frame V detect_violations frame_skip
      reported_fps frames = Some st
    /\ loop_inv frame_skip st
    /\ VideoProcessor.frame_idx st = Z.of_nat (length frames).
Proof.
  intros Hs. unfold VideoProcessor.process_video.
  destruct (Z.eqb_spec frame_skip 0); [lia|].
  eexists. split; [reflexivity|].
  apply (loop_inv_fold _ frame_skip frames
           (VideoProcessor.mk_loop V [] 0 0 0) Hs).
  unfold loop_inv, sampled_count, timeline_violations. cbn.
  repeat split; try lia; try constructor.
  rewrite Z.div_small; lia.
Qed.

End VideoLoop.

Lemma timeline_violations_nonneg {V : Type}
  (timeline : list (VideoProcessor.violation_info V)) :
  0 <= timeline_violations timeline.
Proof.
  unfold timeline_violations, sumZ.
  induction timeline as [|e tl IH]; cbn [map fold_right]; lia.
Qed.

(** X20: for a positive stride the timeline of a processed video is in
    strictly increasing order of frame number; every entry belongs to a
    frame of the source whose index is a multiple of the stride, and has
    at least one violation. *)
Theorem timeline_ordered (frame V : Type)
  (detect_violations : frame -> list V)
  (frame_skip : Z) (reported_fps : Q) (frames : list frame) :
  0 < frame_skip ->
  exists st,
    VideoProcessor.process_video frame V detect_violations frame_skip
      reported_fps frames = Some st
    /\ StronglySorted Z.lt
         (map VideoProcessor.frame_number
            (VideoProcessor.violations_timeline st))
    /\ Forall
         (fun e =>
            0 <= VideoProcessor.frame_number e < Z.of_nat (length frames)
            /\ VideoProcessor.frame_number e mod frame_skip = 0
            /\ VideoProcessor.vi_violations e <> [])
         (VideoProcessor.violations_timeline st).
Proof.
  intros Hs.
  destruct (process_video_inv frame V detect_violations frame_skip
              reported_fps frames Hs) as (st & E & I & L).
  destruct (process_video_entries frame V detect_violations frame_skip
              reported_fps frames ltac:(lia)) as (st' & E' & F').
  assert (st' = st) by congruence. subst st'.
  destruct I as (_ & _ & _ & S & F & _).
  exists st. split; [exact E|]. split; [exact S|].
  rewrite Forall_forall in *. intros e He.
  destruct (F e He) as [B N]. destruct (F' e He) as (_ & M & _).
  rewrite L in B. auto.
Qed.

Lemma timeline_ordered_witness :
  exists st,
    VideoProcessor.process_video (list nat) nat (fun f => f) 30 (30 # 1)
      Examples.clip = Some st
    /\ map VideoProcessor.frame_number (VideoProcessor.violations_timeline st)
       = [30].
Proof.
  destruct (timeline_ordered (list nat) nat (fun f => f) 30 (30 # 1)
              Examples.clip ltac:(lia)) as (st & E & _).
  exists st. split; [exact E|].
  vm_compute in E. inversion E. reflexivity.
Defined.

(** X21: for a positive stride, when a video is processed the number of
    frames analysed is the number of multiples of the stride among the
    frame indices, the violation total is the number of violations in the
    timeline, the timeline has at most one entry per analysed frame, and
    the total is positive exactly when the timeline is not empty. *)
Theorem video_counters (frame V : Type)
  (detect_violations : frame -> list V)
  (frame_skip : Z) (reported_fps : Q) (frames : list frame) :
  0 < frame_skip ->
  exists st,
    VideoProcessor.process_video frame V detect_violations frame_skip
      reported_fps frames = Some st
    /\ VideoProcessor.frames_processed V st
       = (Z.of_nat (length frames) + frame_skip - 1) / frame_skip
    /\ VideoProcessor.total_violations V st
       = timeline_violations (VideoProcessor.violations_timeline st)
    /\ Z.of_nat (length (VideoProcessor.violations_timeline st))
       <= VideoProcessor.frames_processed V st
    /\ (0 < VideoProcessor.total_violations V st
        <-> VideoProcessor.violations_timeline st <> []).
Proof.
  intros Hs.
  destruct (process_video_inv frame V detect_violations frame_skip
              reported_fps frames Hs) as (st & E & I & L).
  destruct I as (_ & P & T & _ & F & Le).
  exists st. split; [exact E|]. rewrite L in P. unfold sampled_count in P.
  repeat split; auto.
  - intros H Z. rewrite T, Z in H. cbn in H. lia.
  - intros N. rewrite T.
    destruct (VideoProcessor.violations_timeline st) as [|e tl];
      [contradiction|].
    inversion F as [|? ? [_ Ne] _]; subst.
    unfold timeline_violations. cbn [map]. unfold sumZ. cbn [fold_right].
    pose proof (timeline_violations_nonneg tl) as P0.
    unfold timeline_violations, sumZ in P0.
    destruct (VideoProcessor.vi_violations e); [contradiction|].
    cbn [length]. lia.
Qed.

Lemma video_counters_witness :
  exists st,
    VideoProcessor.process_video (list nat) nat (fun f => f) 30 (30 # 1)
      Examples.clip = Some st
    /\ VideoProcessor.frames_processed nat st = 2
    /\ VideoProcessor.total_violations nat st = 1.
Proof.
  destruct (video_counters (list nat) nat (fun f => f) 30 (30 # 1)
              Examples.clip ltac:(lia)) as (st & E & _).
  exists st. split; [exact E|].
  vm_compute in E. inversion E. split; reflexivity.
Defined.

(** ** Formatting of timestamps *)

Lemma Qfloor_div_pos (x : Q) (p : positive) :
  Qfloor (x / (Zpos p # 1)) = Qfloor x / Zpos p.
Proof.
  destruct x as [n d]. unfold Qdiv, Qinv, Qmult, Qfloor. cbn [Qnum Qden].
  rewrite Z.mul_1_r, Pos2Z.inj_mul, Z.div_div by lia. reflexivity.
Qed.

Lemma Qfloor_sub_Z (x : Q) (z : Z) :
  Qfloor (x - inject_Z z) = Qfloor x - z.
Proof.
  destruct x as [n d]. unfold Qminus, Qplus, Qopp, inject_Z, Qfloor.
  cbn [Qnum Qden]. rewrite Pos.mul_1_r, Z.mul_1_r.
  replace (n + - z * Z.pos d) with (n + (- z) * Z.pos d) by lia.
  rewrite Z.div_add by lia. lia.
Qed.

Lemma int_of_float_nonneg (y : Q) :
  (0 <= y)%Q -> Py.int_of_float y = Qfloor y.
Proof.
  destruct y as [n d]. unfold Qle, Py.int_of_float, Qfloor. cbn [Qnum Qden].
  intros H. apply Z.quot_div_nonneg; lia.
Qed.

Lemma fmod_floor (x : Q) (p : positive) :
  (0 <= Py.fmod x (Zpos p # 1))%Q
  /\ Qfloor (Py.fmod x (Zpos p # 1)) = Qfloor x mod Zpos p.
Proof.
  unfold Py.fmod, Py.floordiv. rewrite Qfloor_div_pos.
  set (k := Qfloor x / Z.pos p).
  assert (E : ((Zpos p # 1) * inject_Z k == inject_Z (Zpos p * k))%Q).
  { change (Zpos p # 1) with (inject_Z (Zpos p)).
    now rewrite <- inject_Z_mult. }
  split.
  - rewrite E. pose proof (Qfloor_le x) as L.
    assert (B : (inject_Z (Zpos p * k) <= inject_Z (Qfloor x))%Q).
    { rewrite <- Zle_Qle. unfold k.
      apply Z.mul_div_le. lia. }
    lra.
  - rewrite E, Qfloor_sub_Z. unfold k. rewrite Z.mod_eq by lia. reflexivity.
Qed.

Lemma format_2_digits (n : N) :
  (n < 100)%N -> is_digits 2 (PyFmt.format_0d 2 n) = true.
Proof.
  intros H.
  assert (A : forallb (fun k => is_digits 2 (PyFmt.format_0d 2 (N.of_nat k)))
                (seq 0 100) = true) by (vm_compute; reflexivity).
  rewrite forallb_forall in A.
  specialize (A (N.to_nat n)). rewrite N2Nat.id in A.
  apply A. apply in_seq. lia.
Qed.

Lemma format_int_2 (z : Z) :
  0 <= z < 100 -> length (PyFmt.format_0d_int 2 z) = 2%nat.
Proof.
  intros H. unfold PyFmt.format_0d_int.
  destruct (Z.ltb_spec z 0); [lia|].
  pose proof (format_2_digits (Z.to_N z) ltac:(lia)) as D.
  unfold is_digits in D. apply andb_true_iff in D. destruct D as [D _].
  now apply Nat.eqb_eq in D.
Qed.

(** X22: a timestamp that is not negative and below 2^53 seconds (the
    range in which the quotients of the floats are exact) is formatted
    from its whole seconds: with [s] the number of seconds rounded down,
    the three fields are [s / 3600], [(s mod 3600) / 60] and [s mod 60],
    so they add up to [s], none is negative, the minutes and the seconds
    are below 60, and for a time under 100 hours the text has exactly
    eight characters. *)
Theorem format_timestamp_fields (seconds : Q) :
  (0 <= seconds)%Q -> (seconds < 9007199254740992)%Q ->
  let s := Qfloor seconds in
  let hours := s / 3600 in
  let minutes := s mod 3600 / 60 in
  let secs := s mod 60 in
  VideoFormat._format_timestamp seconds
  = PyFmt.format_0d_int 2 hours ++ lit ":"
    ++ PyFmt.format_0d_int 2 minutes ++ lit ":"
    ++ PyFmt.format_0d_int 2 secs
  /\ hours * 3600 + minutes * 60 + secs = s
  /\ 0 <= hours /\ 0 <= minutes < 60 /\ 0 <= secs < 60
  /\ ((seconds < 360000)%Q ->
      length (VideoFormat._format_timestamp seconds) = 8%nat).
Proof.
  intros P _. cbv zeta.
  assert (S0 : 0 <= Qfloor seconds)
    by (change 0 with (Qfloor 0); now apply Qfloor_resp_le).
  assert (E : VideoFormat._format_timestamp seconds
              = PyFmt.format_0d_int 2 (Qfloor seconds / 3600) ++ lit ":"
                ++ PyFmt.format_0d_int 2 (Qfloor seconds mod 3600 / 60)
                ++ lit ":"
                ++ PyFmt.format_0d_int 2 (Qfloor seconds mod 60)).
  { unfold VideoFormat._format_timestamp.
    destruct (fmod_floor seconds 3600) as [P1 F1].
    destruct (fmod_floor seconds 60) as [P2 F2].
    change (3600%Q) with (Zpos 3600 # 1). change (60%Q) with (Zpos 60 # 1).
    unfold Py.floordiv at 1 2. rewrite !int_of_float_inject.
    rewrite !Qfloor_div_pos, F1.
    rewrite (int_of_float_nonneg _ P2), F2. reflexivity. }
  split; [exact E|].
  assert (A : Qfloor seconds / 3600 * 3600 + Qfloor seconds mod 3600 / 60 * 60
              + Qfloor seconds mod 60 = Qfloor seconds
              /\ 0 <= Qfloor seconds mod 3600 / 60 < 60
              /\ 0 <= Qfloor seconds mod 60 < 60).
  { generalize (Qfloor seconds). intros s.
    Z.div_mod_to_equations. lia. }
  destruct A as (A1 & A2 & A3).
  split; [exact A1|]. split; [apply Z.div_pos; lia|].
  split; [exact A2|]. split; [exact A3|].
  intros L. rewrite E, !length_app. cbn [lit length map list_ascii_of_string].
  assert (B : 0 <= Qfloor seconds < 360000).
  { split.
    - exact S0.
    - apply Z.lt_le_trans with (m := Qfloor seconds + 1); [lia|].
      assert (Q1 : (inject_Z (Qfloor seconds) <= seconds)%Q)
        by apply Qfloor_le.
      assert (Q2 : (inject_Z (Qfloor seconds) < inject_Z 360000)%Q)
        by (change (inject_Z 360000) with 360000%Q; lra).
      rewrite <- Zlt_Qlt in Q2. lia. }
  rewrite !format_int_2; lia.
Qed.

Lemma format_timestamp_fields_witness :
  length (VideoFormat._format_timestamp (7261 # 2)) = 8%nat.
Proof.
  apply (proj2 (proj2 (proj2 (proj2 (proj2
           (format_timestamp_fields (7261 # 2) ltac:(discriminate)
              ltac:(reflexivity))))))).
  reflexivity.
Defined.

(** ** Sampling of the worker *)

Lemma div_succ (s c : Z) :
  0 < s -> 0 <= c ->
  if (c + 1) mod s =? 0
  then c / s = (c + 1) / s - 1 /\ c + 1 = (c + 1) / s * s /\ 1 <= (c + 1) / s
  else c / s = (c + 1) / s.
Proof.
  intros Hs Hc.
  pose proof (Z.div_mod (c + 1) s ltac:(lia)) as D.
  pose proof (Z.mod_pos_bound (c + 1) s Hs) as B.
  remember ((c + 1) / s) as q. remember ((c + 1) mod s) as r.
  destruct (Z.eqb_spec r 0) as [E | E].
  - subst r. rewrite E in *.
    assert (1 <= q) by nia. repeat split; try lia.
    symmetry. apply (Z.div_unique_pos c s (q - 1) (s - 1)); lia.
  - symmetry. apply (Z.div_unique_pos c s q (r - 1)); lia.
Qed.

Lemma worker_sample_from (FRAME_SKIP : Z) (fps : Q) (n : nat) (c : Z) :
  0 < FRAME_SKIP -> 0 <= c ->
  Worker.sample FRAME_SKIP fps n c
  = if Qeq_bool fps 0
    then if (c + Z.of_nat n) / FRAME_SKIP - c / FRAME_SKIP =? 0
         then Some [] else None
    else Some (worker_samples_from FRAME_SKIP fps c n).
Proof.
  intros Hs. revert c; induction n as [|n IH]; intros c Hc.
  - cbn [Worker.sample]. unfold worker_samples_from.
    rewrite Z.add_0_r, Z.sub_diag. cbn. now destruct (Qeq_bool fps 0).
  - cbn [Worker.sample]. destruct (Z.eqb_spec FRAME_SKIP 0); [lia|].
    rewrite (IH (c + 1)) by lia. unfold worker_samples_from.
    replace (c + 1 + Z.of_nat n) with (c + Z.of_nat (S n)) by lia.
    pose proof (div_succ FRAME_SKIP c Hs Hc) as D.
    assert (M : (c + 1) / FRAME_SKIP <= (c + Z.of_nat (S n)) / FRAME_SKIP)
      by (apply Z.div_le_mono; lia).
    set (X := (c + Z.of_nat (S n)) / FRAME_SKIP) in *.
    set (q := (c + 1) / FRAME_SKIP) in *.
    destruct ((c + 1) mod FRAME_SKIP =? 0).
    + destruct D as (D1 & D2 & D3). rewrite D1.
      unfold Worker.timestamp, Py.truediv.
      destruct (Qeq_bool fps 0).
      * destruct (Z.eqb_spec (X - (q - 1)) 0); [lia | reflexivity].
      * replace (S (Z.to_nat (q - 1))) with (Z.to_nat q) by lia.
        replace (Z.to_nat (X - (q - 1))) with (S (Z.to_nat (X - q))) by lia.
        cbn [seq map]. rewrite Z2Nat.id by lia. rewrite <- D2. reflexivity.
    + rewrite D. reflexivity.
Qed.

(** X23: for a positive stride and a reported fps other than zero the
    worker samples exactly the frame counts that are multiples of the
    stride, from the stride itself up to the number of frames, each with
    the timestamp count over fps; for a reported fps of zero it completes
    only when the video has fewer frames than the stride, and fails at
    its first sampled frame otherwise. *)
Theorem worker_sampling (FRAME_SKIP : Z) (fps : Q) (n : nat) :
  0 < FRAME_SKIP ->
  (~ (fps == 0)%Q ->
   Worker.process_video FRAME_SKIP fps n
   = Some (worker_samples FRAME_SKIP fps n))
  /\ ((fps == 0)%Q ->
      Worker.process_video FRAME_SKIP fps n
      = if Z.of_nat n <? FRAME_SKIP then Some [] else None).
Proof.
  intros Hs. unfold Worker.process_video.
  rewrite worker_sample_from by lia.
  rewrite Z.add_0_l, Z.div_0_l, Z.sub_0_r by lia. split.
  - intros N. destruct (Qeq_bool fps 0) eqn:E.
    + apply Qeq_bool_iff in E. contradiction.
    + unfold worker_samples_from, worker_samples.
      now rewrite Z.add_0_l, Z.div_0_l, Z.sub_0_r by lia.
  - intros Z. apply Qeq_bool_iff in Z. rewrite Z.
    destruct (Z.ltb_spec (Z.of_nat n) FRAME_SKIP).
    + rewrite Z.div_small by lia. reflexivity.
    + destruct (Z.eqb_spec (Z.of_nat n / FRAME_SKIP) 0) as [E|]; auto.
      apply Z.div_small_iff in E; lia.
Qed.

Lemma worker_sampling_witness :
  Worker.process_video 30 (30 # 1) 65 = Some [(30, 30 # 30); (60, 60 # 30)].
Proof.
  rewrite (proj1 (worker_sampling 30 (30 # 1) 65 ltac:(lia))).
  - reflexivity.
  - discriminate.
Defined.

(** ** Totals and records of the web application *)

Lemma in_tuple_In (s : str) (l : list str) :
  in_tuple s l = true <-> In s l.
Proof.
  unfold in_tuple. rewrite existsb_exists. split.
  - intros (x & Hx & E). apply str_eqb_eq in E. now subst.
  - intros H. exists s. split; [exact H | apply str_eqb_refl].
Qed.

Lemma collect_plate_spec (acc : list str) (x : str) :
  NoDup acc ->
  NoDup (App.collect_plate acc x)
  /\ (forall n, In n (App.collect_plate acc x) <-> In n acc \/ n = x).
Proof.
  intros N. unfold App.collect_plate.
  destruct (in_tuple x acc) eqn:E.
  - apply in_tuple_In in E. split; [exact N|].
    intros n. split; [now left | intros [H | ->]; auto].
  - assert (NI : ~ In x acc).
    { intros H. apply in_tuple_In in H. congruence. }
    split.
    + apply NoDup_app; [exact N | repeat constructor; intros [] |].
      intros a Ha [<- | []]. contradiction.
    + intros n. rewrite in_app_iff. cbn. intuition.
Qed.

Lemma collect_plates_spec (plates acc : list str) :
  NoDup acc ->
  NoDup (fold_left App.collect_plate plates acc)
  /\ (forall n, In n (fold_left App.collect_plate plates acc)
                <-> In n acc \/ In n plates).
Proof.
  revert acc; induction plates as [|x plates IH]; intros acc N;
    cbn [fold_left].
  - split; [exact N | intros n; cbn; tauto].
  - destruct (collect_plate_spec acc x N) as [N1 I1].
    destruct (IH _ N1) as [N2 I2]. split; [exact N2|].
    intros n. rewrite I2, I1. cbn. intuition.
Qed.

Lemma all_plates_from (timeline_plates : list (list str)) (acc : list str) :
  NoDup acc ->
  let r :=
    fold_left (fun acc plates => fold_left App.collect_plate plates acc)
      timeline_plates acc in
  NoDup r
  /\ (forall n, In n r
                <-> In n acc
                    \/ exists plates, In plates timeline_plates /\ In n plates).
Proof.
  revert acc; induction timeline_plates as [|p tp IH]; intros acc N;
    cbn [fold_left].
  - split; [exact N|]. intros n. split; [now left|].
    intros [H | (pl & [] & _)]. exact H.
  - destruct (collect_plates_spec p acc N) as [N1 I1].
    destruct (IH _ N1) as [N2 I2]. cbv zeta in *. split; [exact N2|].
    intros n. rewrite I2, I1. split.
    + intros [[H | H] | (pl & H1 & H2)]; auto.
      * right. exists p. split; [now left | exact H].
      * right. exists pl. split; [now right | exact H2].
    + intros [H | (pl & [<- | H1] & H2)]; auto.
      right. exists pl. auto.
Qed.

(** X24: the plate numbers gathered from a video's timeline contain no
    number twice, and a number is among them exactly when it was read on
    some timeline entry. *)
Theorem plate_numbers_unique (timeline_plates : list (list str)) :
  NoDup (App.all_plate_numbers timeline_plates)
  /\ (forall n,
        In n (App.all_plate_numbers timeline_plates)
        <-> exists plates, In plates timeline_plates /\ In n plates).
Proof.
  destruct (all_plates_from timeline_plates [] (NoDup_nil _)) as [N I].
  cbv zeta in *. split; [exact N|].
  intros n. unfold App.all_plate_numbers. rewrite I. cbn. tauto.
Qed.

Lemma plate_numbers_unique_witness :
  In (lit "MH12XY9012") (App.all_plate_numbers Examples.plates_seen).
Proof.
  apply (proj2 (plate_numbers_unique Examples.plates_seen)).
  exists [lit "KA01AB1234"; lit "MH12XY9012"]. split.
  - left. reflexivity.
  - right. left. reflexivity.
Defined.

Lemma demo_fold (types : list (option str)) (fine : Z) (labels : list str) :
  fold_left App.demo_step types (Some (fine, labels))
  = if forallb (has_type (fun v => v)) types
    then Some (fine + sumZ (map app_amount types),
               labels ++ flat_map demo_labels types)
    else None.
Proof.
  revert fine labels; induction types as [|t types IH]; intros fine labels.
  - cbn. rewrite app_nil_r. do 2 f_equal. lia.
  - cbn [fold_left forallb map flat_map]. unfold has_type at 1.
    destruct t as [t|].
    + cbn [App.demo_step andb app_amount demo_labels].
      destruct (PyStr.eqb t (lit "helmet_violation")).
      * rewrite IH. destruct (forallb _ types); auto.
        rewrite <- app_assoc. cbn [sumZ fold_right]. do 2 f_equal.
        unfold sumZ. lia.
      * destruct (PyStr.eqb t (lit "triple_riding")).
        -- rewrite IH. destruct (forallb _ types); auto.
           rewrite <- app_assoc. cbn [sumZ fold_right]. do 2 f_equal.
           unfold sumZ. lia.
        -- rewrite IH. destruct (forallb _ types); reflexivity.
    + cbn [App.demo_step andb].
      clear IH. induction types as [|t' types IH']; cbn [fold_left]; auto.
Qed.

Lemma join_labels_named (labels : list str) :
  Forall (fun l => l = lit "Riding without Helmet" \/ l = lit "Triple Riding")
    labels ->
  labels <> [] ->
  join (lit " + ") labels <> lit "Traffic Violation".
Proof.
  intros F N. destruct labels as [|l rest]; [contradiction|].
  inversion F as [|? ? [-> | ->] _]; subst;
    destruct rest; cbn; discriminate.
Qed.

Lemma demo_labels_named (types : list (option str)) :
  Forall (fun l => l = lit "Riding without Helmet" \/ l = lit "Triple Riding")
    (flat_map demo_labels types).
Proof.
  apply Forall_forall. intros l Hl. apply in_flat_map in Hl.
  destruct Hl as ([t|] & _ & Hl); [|destruct Hl].
  unfold demo_labels in Hl.
  destruct (PyStr.eqb t (lit "helmet_violation"));
    [destruct Hl as [<- | []]; now left|].
  destruct (PyStr.eqb t (lit "triple_riding")); [|destruct Hl].
  destruct Hl as [<- | []]. now right.
Qed.

Lemma demo_labels_amount (types : list (option str)) :
  0 <= sumZ (map app_amount types)
  /\ (flat_map demo_labels types = [] <-> sumZ (map app_amount types) = 0).
Proof.
  induction types as [|t types [P IH]]; cbn [map flat_map sumZ fold_right].
  - split; [lia | tauto].
  - fold (sumZ (map app_amount types)).
    assert (A : (demo_labels t = [] /\ app_amount t = 0)
                \/ (demo_labels t <> [] /\ 500 <= app_amount t)).
    { unfold demo_labels, app_amount. destruct t as [t|]; [|now left].
      destruct (PyStr.eqb t (lit "helmet_violation"));
        [right; split; [discriminate | lia]|].
      destruct (PyStr.eqb t (lit "triple_riding"));
        [right; split; [discriminate | lia] | now left]. }
    destruct A as [[A1 A2] | [A1 A2]].
    + rewrite A1, A2. cbn [app]. split; [lia|]. rewrite IH. lia.
    + split; [lia|]. split.
      * intros E. apply app_eq_nil in E. tauto.
      * lia.
Qed.

(** X25: the record created for a detection stores the fine that the
    result page shows as the image's running total whenever every
    violation has a type, and fails otherwise; its violation type is the
    generic "Traffic Violation" exactly when that fine is 0, that is when
    no violation has one of the two types. *)
Theorem demo_record_fine (types : list (option str)) :
  (forallb (has_type (fun v => v)) types = false ->
   App.create_demo_violation types = None)
  /\ (forallb (has_type (fun v => v)) types = true ->
      exists label,
        App.create_demo_violation types
        = Some (App.image_total_fine (option str) (fun v => v) types, label)
        /\ (label = lit "Traffic Violation"
            <-> App.image_total_fine (option str) (fun v => v) types = 0)).
Proof.
  unfold App.create_demo_violation. rewrite demo_fold. split.
  - intros ->. reflexivity.
  - intros ->. rewrite Z.add_0_l, image_total_sum. cbn [app].
    destruct (demo_labels_amount types) as [P E].
    pose proof (demo_labels_named types) as F.
    destruct (flat_map demo_labels types) as [|l rest] eqn:L.
    + eexists. split; [reflexivity|]. split; [intros _; now apply E | auto].
    + eexists. split; [reflexivity|]. split.
      * intros J. exfalso. revert J. apply join_labels_named; [exact F|].
        discriminate.
      * intros Z. apply E in Z. discriminate.
Qed.

Lemma demo_record_fine_witness :
  App.create_demo_violation
    [Some (lit "helmet_violation"); Some (lit "triple_riding")]
  = Some (1500, lit "Riding without Helmet + Triple Riding").
Proof.
  destruct (proj2 (demo_record_fine
                     [Some (lit "helmet_violation");
                      Some (lit "triple_riding")]) eq_refl)
    as (label & E & _).
  rewrite E. vm_compute in E. inversion E. reflexivity.
Defined.

Lemma amount_le (t : option str) :
  app_amount t <= pdf_amount t /\ 500 <= pdf_amount t <= 1000
  /\ (known_type t = true -> app_amount t = pdf_amount t).
Proof.
  unfold app_amount, pdf_amount, known_type. destruct t as [t|];
    [|repeat split; try lia; discriminate].
  destruct (PyStr.eqb t (lit "helmet_violation")) eqn:H;
    [repeat split; lia|].
  destruct (PyStr.eqb t (lit "triple_riding")) eqn:T.
  - destruct (PyStr.eqb t (lit "no_helmet")); repeat split; lia.
  - destruct (PyStr.eqb t (lit "no_helmet")); repeat split; try lia;
      discriminate.
Qed.

(** X26: for the same violations the total of the PDF report is never
    below the running total of the result page, and the two agree when
    every violation has one of the two types the classifier emits; the
    PDF charges every violation between 500 and 1000. *)
Theorem pdf_total_covers (types : list (option str)) :
  App.image_total_fine (option str) (fun v => v) types
  <= EnhancedPdf.total_fine types
  /\ 500 * Z.of_nat (length types) <= EnhancedPdf.total_fine types
     <= 1000 * Z.of_nat (length types)
  /\ (forallb known_type types = true ->
      App.image_total_fine (option str) (fun v => v) types
      = EnhancedPdf.total_fine types).
Proof.
  rewrite image_total_sum, pdf_total_sum.
  induction types as [|t types (IH1 & IH2 & IH3)];
    cbn [map sumZ fold_right length forallb].
  - split; [lia | split; [lia | reflexivity]].
  - change (fold_right Z.add 0 (map (fun v => app_amount v) types))
      with (sumZ (map app_amount types)).
    change (fold_right Z.add 0 (map pdf_amount types))
      with (sumZ (map pdf_amount types)).
    change (fun v : option str => app_amount v) with app_amount in *.
    destruct (amount_le t) as (A1 & A2 & A3).
    split; [lia | split; [lia|]].
    intros H. apply andb_true_iff in H. destruct H as [H1 H2].
    rewrite (A3 H1), (IH3 H2). reflexivity.
Qed.

Lemma pdf_total_covers_witness :
  App.image_total_fine (option str) (fun v => v)
    [Some (lit "helmet_violation"); Some (lit "triple_riding")]
  = EnhancedPdf.total_fine
      [Some (lit "helmet_violation"); Some (lit "triple_riding")].
Proof.
  apply (proj2 (proj2 (pdf_total_covers
                         [Some (lit "helmet_violation");
                          Some (lit "triple_riding")]))).
  reflexivity.
Defined.

(** ** Payment verification *)

Section PaymentProps.

Variable upper_nonascii : N -> list N.

Lemma paid_same (e : Q) : Py.Qgtb (Qabs (e - e)) (1 # 100) = false.
Proof.
  apply Qgtb_le. apply Qabs_Qle_condition. split; lra.
Qed.

Lemma paid_half (e : Q) :
  (1 <= e)%Q -> Py.Qgtb (Qabs (e * (5 # 10) - e)) (1 # 100) = true.
Proof.
  intros H. apply Qgtb_lt.
  apply Qlt_le_trans with (- (e * (5 # 10) - e))%Q; [lra|].
  rewrite <- Qabs_opp. apply Qle_Qabs.
Qed.

Lemma paid_double (e : Q) :
  (1 <= e)%Q -> Py.Qgtb (Qabs (e * 2 - e)) (1 # 100) = true.
Proof.
  intros H. apply Qgtb_lt.
  apply Qlt_le_trans with (e * 2 - e)%Q; [lra|]. apply Qle_Qabs.
Qed.

(** X27: for an expected amount of at least one rupee, a payment is
    verified exactly when the transaction id has at least 8 characters, no
    other violation uses it, its upper-case form contains no underpayment
    and no overpayment word, and it contains one of the accepted words or
    digit groups or has at least 12 characters; the amount recorded as
    paid is then the expected amount. *)
Theorem payment_verified (transaction_id : str) (expected_amount : Q)
  (existing : bool) (paid_amount : Q) :
  (1 <= expected_amount)%Q ->
  App.verify_demo_payment upper_nonascii transaction_id expected_amount
    existing = App.Verified paid_amount
  <-> ((8 <= length transaction_id)%nat
       /\ existing = false
       /\ paid_amount = expected_amount
       /\ App.any_in [lit "LESS"; lit "UNDER"; lit "SMALL"; lit "HALF"]
            (PaddleOcrReader.upper upper_nonascii transaction_id) = false
       /\ App.any_in [lit "MORE"; lit "OVER"; lit "EXTRA"; lit "DOUBLE"]
            (PaddleOcrReader.upper upper_nonascii transaction_id) = false
       /\ (App.any_in [lit "UPI"; lit "PAY"; lit "CORRECT"; lit "FULL";
                       lit "EXACT"]
             (PaddleOcrReader.upper upper_nonascii transaction_id) = true
           \/ App.any_in [lit "123"; lit "456"; lit "789"]
                (PaddleOcrReader.upper upper_nonascii transaction_id) = true
           \/ (12 <= length transaction_id)%nat)).
Proof.
  intros He. unfold App.verify_demo_payment, App.extract_demo_amount.
  cbv zeta.
  set (U := PaddleOcrReader.upper upper_nonascii transaction_id).
  destruct (Nat.ltb_spec (length transaction_id) 8) as [L | L].
  { split; [discriminate | intros (H & _); lia]. }
  destruct existing.
  { split; [discriminate | intros (_ & H & _); discriminate]. }
  destruct (App.any_in [lit "LESS"; lit "UNDER"; lit "SMALL"; lit "HALF"] U).
  { rewrite (paid_half _ He).
    split; [discriminate | intros (_ & _ & _ & H & _); discriminate]. }
  destruct (App.any_in [lit "MORE"; lit "OVER"; lit "EXTRA"; lit "DOUBLE"] U).
  { rewrite (paid_double _ He).
    split; [discriminate | intros (_ & _ & _ & _ & H & _); discriminate]. }
  destruct (App.any_in
              [lit "UPI"; lit "PAY"; lit "CORRECT"; lit "FULL"; lit "EXACT"]
              U).
  { rewrite paid_same. split.
    - intros E. injection E as <-. repeat apply conj; auto.
    - intros (_ & _ & -> & _). reflexivity. }
  destruct (App.any_in [lit "123"; lit "456"; lit "789"] U).
  { rewrite paid_same. split.
    - intros E. injection E as <-. repeat apply conj; auto.
    - intros (_ & _ & -> & _). reflexivity. }
  destruct (Nat.leb_spec 12 (length transaction_id)) as [G | G].
  { rewrite paid_same. split.
    - intros E. injection E as <-. repeat apply conj; auto.
    - intros (_ & _ & -> & _). reflexivity. }
  split; [discriminate|].
  intros (_ & _ & _ & _ & _ & [H | [H | H]]); try discriminate. lia.
Qed.

End PaymentProps.

Lemma payment_verified_witness :
  App.verify_demo_payment (fun c => [c]) Examples.upi_txn 500 false
  = App.Verified 500.
Proof.
  apply (payment_verified (fun c => [c]) Examples.upi_txn 500 false 500).
  - unfold Qle. cbn. lia.
  - repeat apply conj; try reflexivity.
    + cbn. lia.
    + left. reflexivity.
Defined.

(** ** Upload file names *)

Section UploadProps.

Variable lower_nonascii : str -> str.

Lemma after_last_none (sep : N) (s acc : str) :
  has_char sep s = false -> after_last sep s acc = acc.
Proof.
  revert acc; induction s as [|c s IH]; intros acc H; cbn in *; auto.
  apply orb_false_iff in H. destruct H as [H1 H2].
  rewrite N.eqb_sym, H1. now apply IH.
Qed.

Lemma after_last_app (sep : N) (stem ext acc : str) :
  has_char sep ext = false ->
  after_last sep (stem ++ sep :: ext) acc = ext.
Proof.
  intros H. revert acc; induction stem as [|c stem IH]; intros acc.
  - cbn. rewrite N.eqb_refl. now apply after_last_none.
  - cbn. destruct (N.eqb c sep); apply IH.
Qed.

Lemma extension_app (stem ext : str) :
  has_char 46 ext = false ->
  has_char 46 (stem ++ 46%N :: ext) = true
  /\ App.extension lower_nonascii (stem ++ 46%N :: ext)
     = lower lower_nonascii ext.
Proof.
  intros H.
  assert (D : has_char 46 (stem ++ 46%N :: ext) = true).
  { unfold has_char. rewrite existsb_app. cbn. apply orb_true_r. }
  split; [exact D|].
  unfold App.extension, rsplit1. rewrite D. cbv zeta. cbn [nth].
  now rewrite after_last_app.
Qed.

Lemma video_in_allowed (e : str) :
  in_tuple e [lit "mp4"; lit "avi"; lit "mov"; lit "mkv"; lit "webm"] = true ->
  in_tuple e App.ALLOWED_EXTENSIONS = true.
Proof.
  unfold in_tuple, App.ALLOWED_EXTENSIONS. cbn [existsb].
  repeat match goal with
         | |- context [PyStr.eqb e ?l] => destruct (PyStr.eqb e l)
         end; cbn; auto.
Qed.

(** X28: a file name without a dot is neither an allowed upload nor a
    video; in a name with a dot only the part after the last dot counts,
    compared in lower case with the extension tables; and every name that
    is taken for a video is an allowed upload. *)
Theorem upload_names (filename stem ext : str) :
  (has_char 46 filename = false ->
   App.allowed_file lower_nonascii filename = false
   /\ App.is_video_file lower_nonascii filename = false)
  /\ (has_char 46 ext = false ->
      App.allowed_file lower_nonascii (stem ++ 46%N :: ext)
      = in_tuple (lower lower_nonascii ext) App.ALLOWED_EXTENSIONS
      /\ App.is_video_file lower_nonascii (stem ++ 46%N :: ext)
         = in_tuple (lower lower_nonascii ext)
             [lit "mp4"; lit "avi"; lit "mov"; lit "mkv"; lit "webm"])
  /\ (App.is_video_file lower_nonascii filename = true ->
      App.allowed_file lower_nonascii filename = true).
Proof.
  split; [|split].
  - intros H. unfold App.allowed_file, App.is_video_file. rewrite H. auto.
  - intros H. destruct (extension_app stem ext H) as [D E].
    unfold App.allowed_file, App.is_video_file. rewrite D, E. auto.
  - unfold App.allowed_file, App.is_video_file. cbv zeta.
    destruct (has_char 46 filename); [|discriminate].
    apply video_in_allowed.
Qed.

End UploadProps.

Lemma upload_names_witness :
  App.allowed_file (fun s => s) (lit "ride.final" ++ 46%N :: lit "MP4") = true
  /\ App.is_video_file (fun s => s) (lit "ride.final" ++ 46%N :: lit "MP4")
     = true.
Proof.
  destruct (proj1 (proj2 (upload_names (fun s => s) [] (lit "ride.final")
                            (lit "MP4"))) eq_refl) as [A V].
  rewrite A, V. split; reflexivity.
Defined.
